(** * AIM report automation: floor/room extraction, ranking, sorting, ageing

    A shallow embedding of the two Python modules of the repository,

    - [aim_report_automation.py] (module [aim_report_automation] below), and
    - [aim_formatter.py]         (module [aim_formatter] below),

    together with the library functions they call ([re.search], [re.match],
    [str.strip], [str.upper], [np.busday_count], [pd.to_datetime], the
    multi-column [DataFrame.sort_values]).

    Conventions of the model:
    - text is a list of 8-bit characters read as ASCII: characters above 127
      carry no class (neither letter, digit nor white space) and no case;
      the model follows Python on ASCII text, and the properties that
      depend on the classes of characters are stated for ASCII text;
    - a calendar date is a day number counted from 1970-01-01, the
      representation of [numpy.datetime64[D]]; [NaT] is the missing date;
      the time of day and the time zone of a timestamp are left out;
    - a frame is what [pd.read_csv] hands over, with text cells: a cell is
      a string or the missing value; the date parser behind
      [pd.to_datetime] is a parameter of the pipelines;
    - several columns of a frame may bear one name: selecting that name
      gives a frame instead of a series, on which the code raises;
    - raised exceptions are values of type [error]; the workbook and its
      styling are left out. *)

From Stdlib Require Import Ascii String List ZArith Lia Bool Arith.
From Stdlib Require Import Permutation Sorted.
Import ListNotations.

(* ------------------------------------------------------------------ *)
(** ** Text and the [str] methods used by the code *)

Definition text := list ascii.

Definition txt (s : string) : text := list_ascii_of_string s.

Definition code (c : ascii) : nat := nat_of_ascii c.

Definition in_range (lo hi : nat) (c : ascii) : bool :=
  (lo <=? code c) && (code c <=? hi).

Definition is_digit (c : ascii) : bool := in_range 48 57 c.
Definition is_upper (c : ascii) : bool := in_range 65 90 c.
Definition is_lower (c : ascii) : bool := in_range 97 122 c.
Definition is_alpha (c : ascii) : bool := is_upper c || is_lower c.
Definition is_alnum (c : ascii) : bool := is_alpha c || is_digit c.

(** A character of the ASCII range. *)
Definition is_ascii (c : ascii) : bool := code c <? 128.

(** White space as [str.strip()] and the pattern [\s] see it: TAB..CR,
    FS..US and the blank. *)
Definition is_space (c : ascii) : bool := in_range 9 13 c || in_range 28 32 c.

(** A word character, [\w]. *)
Definition is_word (c : ascii) : bool := is_alnum c || (code c =? 95).

Definition to_lower (c : ascii) : ascii :=
  if is_upper c then ascii_of_nat (code c + 32) else c.

Definition to_upper (c : ascii) : ascii :=
  if is_lower c then ascii_of_nat (code c - 32) else c.

Definition upper (s : text) : text := map to_upper s.
Definition lower (s : text) : text := map to_lower s.

Fixpoint lstrip (s : text) : text :=
  match s with
  | c :: s' => if is_space c then lstrip s' else s
  | [] => []
  end.

Definition rstrip (s : text) : text := rev (lstrip (rev s)).

Definition strip (s : text) : text := rstrip (lstrip s).

Definition ascii_eqb (a b : ascii) : bool := code a =? code b.

Fixpoint text_eqb (a b : text) : bool :=
  match a, b with
  | [], [] => true
  | x :: a', y :: b' => ascii_eqb x y && text_eqb a' b'
  | _, _ => false
  end.

(** [s.isdigit()]: non-empty and made of digits only. *)
Definition isdigit (s : text) : bool :=
  match s with [] => false | _ => forallb is_digit s end.

(** [int(s)] on a string of decimal digits. *)
Definition digit_val (c : ascii) : Z := Z.of_nat (code c - 48).

Definition int_of_digits (s : text) : Z :=
  fold_left (fun acc c => 10 * acc + digit_val c)%Z s 0%Z.

(** [w in s] between strings. *)
Fixpoint starts_with (w s : text) : bool :=
  match w, s with
  | [], _ => true
  | x :: w', y :: s' => ascii_eqb x y && starts_with w' s'
  | _ :: _, [] => false
  end.

Fixpoint contains (w s : text) : bool :=
  starts_with w s ||
  match s with
  | [] => false
  | _ :: s' => contains w s'
  end.

(** Comparison of strings by code point, as [<] on [str]. *)
Fixpoint text_compare (a b : text) : comparison :=
  match a, b with
  | [], [] => Eq
  | [], _ :: _ => Lt
  | _ :: _, [] => Gt
  | x :: a', y :: b' =>
      match Nat.compare (code x) (code y) with
      | Eq => text_compare a' b'
      | o => o
      end
  end.

(* ------------------------------------------------------------------ *)
(** ** Regular expressions: the fragment of [re] the patterns use

    A backtracking matcher in continuation-passing style: alternatives are
    tried left to right, repetition is greedy and gives characters back one
    at a time, [search] tries every start position from the left. *)

Inductive cset : Type :=
| CDigit                                  (* \d *)
| CSpace                                  (* \s *)
| CRanges (rs : list (ascii * ascii)).    (* [a-b...] ; a single char is a-a *)

Inductive regex : Type :=
| Eps
| Lit (c : ascii)
| Cls (cs : cset)
| Cat (r1 r2 : regex)
| Alt (r1 r2 : regex)
| Rep (cs : cset) (lo : nat) (hi : option nat)   (* cs{lo,hi}, greedy *)
| Group (n : nat) (r : regex)                    (* capturing group n *)
| WordB.                                         (* \b *)

Definition ranges_mem (rs : list (ascii * ascii)) (c : ascii) : bool :=
  existsb (fun r => in_range (code (fst r)) (code (snd r)) c) rs.

(** Membership of a character in a class; [ic] is [re.IGNORECASE], under
    which a letter belongs to a class as soon as one of its two cases
    does.  This is Python on ASCII characters; beyond them Python folds a
    few more characters into the ASCII letters (U+0130, U+0131, U+017F,
    U+212A), and its [\s] and [\d] know more white space and digits. *)
Definition cset_mem (ic : bool) (cs : cset) (c : ascii) : bool :=
  match cs with
  | CDigit => is_digit c
  | CSpace => is_space c
  | CRanges rs =>
      ranges_mem rs c ||
      (ic && (ranges_mem rs (to_lower c) || ranges_mem rs (to_upper c)))
  end.

Definition lit_eq (ic : bool) (p c : ascii) : bool :=
  if ic then ascii_eqb (to_lower p) (to_lower c) else ascii_eqb p c.

Definition captures := list (nat * text).

Definition is_word_opt (o : option ascii) : bool :=
  match o with Some c => is_word c | None => false end.

Definition word_boundary (prev : option ascii) (s : text) : bool :=
  xorb (is_word_opt prev) (is_word_opt (hd_error s)).

Definition hi_allows (hi : option nat) : bool :=
  match hi with Some 0 => false | _ => true end.

Section Matcher.

Variable A : Type.

(** Greedy repetition of a one-character class. *)
Fixpoint rep_greedy (p : ascii -> bool) (lo : nat) (hi : option nat)
  (prev : option ascii) (s : text)
  (k : option ascii -> text -> option A) : option A :=
  let stop := match lo with 0 => k prev s | S _ => None end in
  match s with
  | c :: s' =>
      if p c && hi_allows hi then
        match rep_greedy p (pred lo) (option_map pred hi) (Some c) s' k with
        | Some r => Some r
        | None => stop
        end
      else stop
  | [] => stop
  end.

Fixpoint mtch (ic : bool) (r : regex) (prev : option ascii) (s : text)
  (g : captures)
  (k : option ascii -> text -> captures -> option A) : option A :=
  match r with
  | Eps => k prev s g
  | Lit p =>
      match s with
      | c :: s' => if lit_eq ic p c then k (Some c) s' g else None
      | [] => None
      end
  | Cls cs =>
      match s with
      | c :: s' => if cset_mem ic cs c then k (Some c) s' g else None
      | [] => None
      end
  | Cat r1 r2 =>
      mtch ic r1 prev s g (fun p' s' g' => mtch ic r2 p' s' g' k)
  | Alt r1 r2 =>
      match mtch ic r1 prev s g k with
      | Some x => Some x
      | None => mtch ic r2 prev s g k
      end
  | Rep cs lo hi =>
      rep_greedy (cset_mem ic cs) lo hi prev s (fun p' s' => k p' s' g)
  | Group n r1 =>
      mtch ic r1 prev s g
        (fun p' s' g' =>
           k p' s' ((n, firstn (length s - length s') s) :: g'))
  | WordB => if word_boundary prev s then k prev s g else None
  end.

End Matcher.

Arguments rep_greedy {A} p lo hi prev s k.
Arguments mtch {A} ic r prev s g k.

Definition accept : option ascii -> text -> captures -> option captures :=
  fun _ _ g => Some g.

(** [re.match]: a match anchored at the start of the string. *)
Definition re_match (ic : bool) (r : regex) (s : text) : option captures :=
  mtch ic r None s [] accept.

Fixpoint search_from (ic : bool) (r : regex) (prev : option ascii) (s : text)
  : option captures :=
  match mtch ic r prev s [] accept with
  | Some g => Some g
  | None =>
      match s with
      | [] => None
      | c :: s' => search_from ic r (Some c) s'
      end
  end.

(** [re.search]: the leftmost match. *)
Definition re_search (ic : bool) (r : regex) (s : text) : option captures :=
  search_from ic r None s.

(** [m.group(n)] *)
Fixpoint group (n : nat) (g : captures) : text :=
  match g with
  | [] => []
  | (m, v) :: g' => if Nat.eqb m n then v else group n g'
  end.

(** Pattern building blocks. *)
Fixpoint lit (w : text) : regex :=
  match w with
  | [] => Eps
  | [c] => Lit c
  | c :: w' => Cat (Lit c) (lit w')
  end.

Definition star (cs : cset) : regex := Rep cs 0 None.
Definition plus (cs : cset) : regex := Rep cs 1 None.
Definition opt (cs : cset) : regex := Rep cs 0 (Some 1).

Definition rng (a b : string) : ascii * ascii :=
  (hd "000"%char (txt a), hd "000"%char (txt b)).

(** [[A-Za-z0-9]] *)
Definition alnum_set : cset :=
  CRanges [rng "A" "Z"; rng "a" "z"; rng "0" "9"].

(** [[A-Z]] *)
Definition upper_set : cset := CRanges [rng "A" "Z"].

(** [[:\-]] *)
Definition sep_set : cset := CRanges [rng ":" ":"; rng "-" "-"].

Fixpoint cat_all (rs : list regex) : regex :=
  match rs with
  | [] => Eps
  | [r] => r
  | r :: rs' => Cat r (cat_all rs')
  end.

Fixpoint alt_all (rs : list regex) : regex :=
  match rs with
  | [] => Eps
  | [r] => r
  | r :: rs' => Alt r (alt_all rs')
  end.

(** A cell of the CSV frame: a string, or the missing value (NaN). *)
Inductive cell : Type :=
| NaN
| Str (s : text).

(** First pattern of an ordered list that matches; its group 1. *)
Fixpoint first_match (ic : bool) (patterns : list regex) (desc : text) : text :=
  match patterns with
  | [] => []
  | p :: ps =>
      match re_search ic p desc with
      | Some g => group 1 g
      | None => first_match ic ps desc
      end
  end.

Definition is_empty (s : text) : bool :=
  match s with [] => true | _ => false end.

Definition mem_text (s : text) (l : list text) : bool :=
  existsb (text_eqb s) l.

(* ------------------------------------------------------------------ *)
(** ** Values compared by the sort: [int] and [str] inside rank tuples *)

Inductive pyval : Type :=
| PInt (z : Z)
| PStr (s : text).

(** Order of two values of one type.  Python raises [TypeError] on an
    [int] against a [str]; the rank functions never produce that pair in
    one tier (see [floor_rank_typed] and [room_rank_typed]), and the model
    puts the [int] first there. *)
Definition pyval_compare (a b : pyval) : comparison :=
  match a, b with
  | PInt x, PInt y => Z.compare x y
  | PStr x, PStr y => text_compare x y
  | PInt _, PStr _ => Lt
  | PStr _, PInt _ => Gt
  end.

(** Lexicographic order of tuples. *)
Definition lex (c1 c2 : comparison) : comparison :=
  match c1 with Eq => c2 | o => o end.

Definition pair_compare (a b : Z * pyval) : comparison :=
  lex (Z.compare (fst a) (fst b)) (pyval_compare (snd a) (snd b)).

Definition triple_compare (a b : Z * pyval * text) : comparison :=
  lex (pair_compare (fst a) (fst b)) (text_compare (snd a) (snd b)).

(* ------------------------------------------------------------------ *)
(** ** [DataFrame.sort_values] on several columns

    pandas replaces every key column by the codes of its values in
    increasing order and calls [np.lexsort], which runs one stable sort per
    key, the least significant key first. *)

Section Sorting.

Variable R : Type.

Definition ordering := R -> R -> comparison.

Fixpoint insert (cmp : ordering) (x : R) (l : list R) : list R :=
  match l with
  | [] => [x]
  | y :: l' =>
      match cmp x y with
      | Gt => y :: insert cmp x l'
      | _ => x :: l
      end
  end.

(** One stable pass. *)
Definition stable_sort (cmp : ordering) (l : list R) : list R :=
  fold_right (insert cmp) [] l.

(** [by_] lists the key columns, the most significant first. *)
Definition sort_values (by_ : list ordering) (rows : list R) : list R :=
  fold_right stable_sort rows by_.

End Sorting.

Arguments insert {R} cmp x l.
Arguments stable_sort {R} cmp l.
Arguments sort_values {R} by_ rows.

(* ------------------------------------------------------------------ *)
(** ** [np.busday_count] with the default week mask and no holidays *)

(** Monday is 0; 1970-01-05 was a Monday. *)
Definition day_of_week (date : Z) : Z := ((date - 4) mod 7)%Z.

Definition weekmask (dow : Z) : bool := (dow <? 5)%Z.

(** The days left after the whole weeks, counted one by one. *)
Fixpoint count_remaining (n : nat) (dow : Z) : Z :=
  match n with
  | O => 0%Z
  | S n' =>
      ((if weekmask dow then 1 else 0) +
       count_remaining n' (if (dow + 1 =? 7)%Z then 0 else dow + 1))%Z
  end.

Definition busday_count (date_begin date_end : Z) : Z :=
  if (date_begin =? date_end)%Z then 0%Z
  else
    let swapped := (date_end <? date_begin)%Z in
    let b := if swapped then (date_end + 1)%Z else date_begin in
    let e := if swapped then (date_begin + 1)%Z else date_end in
    let whole_weeks := ((e - b) / 7)%Z in
    let b' := (b + whole_weeks * 7)%Z in
    let count :=
      (whole_weeks * 5 + count_remaining (Z.to_nat (e - b')) (day_of_week b'))%Z in
    if swapped then (- count)%Z else count.

(** A [pd.Timestamp]: a calendar day, or [NaT]. *)
Inductive timestamp : Type :=
| NaT
| Day (d : Z).

(** The count the specification describes: the days from [start] up to,
    not including, [stop] that fall on Monday to Friday. *)
Definition is_weekday (d : Z) : bool := (day_of_week d <? 5)%Z.

Definition days_from (start : Z) (n : nat) : list Z :=
  map (fun i => (start + Z.of_nat i)%Z) (seq 0 n).

Definition weekdays_between (start stop : Z) : Z :=
  Z.of_nat (length (filter is_weekday (days_from start (Z.to_nat (stop - start))))).

(** [Timestamp.strftime("%Y-%m-%d")]: the civil date of a day number. *)
Definition civil_from_days (days : Z) : Z * Z * Z :=
  let z := (days + 719468)%Z in
  let era := (z / 146097)%Z in
  let doe := (z - era * 146097)%Z in
  let yoe := ((doe - doe / 1460 + doe / 36524 - doe / 146096) / 365)%Z in
  let doy := (doe - (365 * yoe + yoe / 4 - yoe / 100))%Z in
  let mp := ((5 * doy + 2) / 153)%Z in
  let d := (doy - (153 * mp + 2) / 5 + 1)%Z in
  let m := (if mp <? 10 then mp + 3 else mp - 9)%Z in
  let y := (yoe + era * 400 + (if m <=? 2 then 1 else 0))%Z in
  (y, m, d).

(** The last [width] decimal digits of [n]. *)
Fixpoint decimal (width : nat) (n : Z) : text :=
  match width with
  | O => []
  | S w => decimal w (n / 10) ++ [ascii_of_nat (48 + Z.to_nat (n mod 10))]
  end.

Definition strftime (d : Z) : text :=
  let '(y, m, dd) := civil_from_days d in
  decimal 4 y ++ txt "-" ++ decimal 2 m ++ txt "-" ++ decimal 2 dd.

(* ------------------------------------------------------------------ *)
(** ** The CSV frame *)

Record DataFrame : Type := {
  columns : list text;
  data : list (list cell)      (* the rows, one cell per column *)
}.

Inductive error : Type :=
| ValueError (msg : string)
| KeyError (msg : string)
| AttributeError (msg : string).

Fixpoint index_of (name : text) (cols : list text) : option nat :=
  match cols with
  | [] => None
  | c :: cols' =>
      if text_eqb c name then Some 0
      else option_map S (index_of name cols')
  end.

(** The cell of a row in the first column of that name. *)
Definition cell_of (cols : list text) (name : text) (r : list cell) : cell :=
  match index_of name cols with
  | Some i => nth i r NaN
  | None => NaN
  end.

(** The number of columns that bear a name. *)
Definition occurrences (name : text) (cols : list text) : nat :=
  length (filter (text_eqb name) cols).

(** [df.columns.is_unique] *)
Definition distinct (cols : list text) : bool :=
  forallb (fun c => occurrences c cols =? 1) cols.

(** [df[name]]: [KeyError] without such a column, the series of the
    column when one column bears the name, and a frame of all of them when
    several do; [i] is the place of the first. *)
Inductive selection : Type :=
| NoColumn
| Series (i : nat)
| Frame (i : nat).

Definition select (name : text) (cols : list text) : selection :=
  match index_of name cols with
  | None => NoColumn
  | Some i => if occurrences name cols =? 1 then Series i else Frame i
  end.

(** [pd.notna] on a cell. *)
Definition notna (c : cell) : bool :=
  match c with NaN => false | Str _ => true end.

(** [df[name] = ...]: a new column goes to the end, an existing one keeps
    its place. *)
Definition assign_column (cols : list text) (name : text) : list text :=
  if mem_text name cols then cols else cols ++ [name].

(** The list [l] with [f] applied at place [i]. *)
Fixpoint update {A : Type} (i : nat) (f : A -> A) (l : list A) : list A :=
  match l, i with
  | [], _ => []
  | x :: l', O => f x :: l'
  | x :: l', S i' => x :: update i' f l'
  end.

(** What pandas raises where a series is needed and a frame is met. *)
Definition ambiguous : error :=
  ValueError "The truth value of a Series is ambiguous.".

(** [re.sub(r"[^\x20-\x7E]", "", c).strip()] *)
Definition clean_header (c : text) : text :=
  strip (filter (in_range 32 126) c).

(* ------------------------------------------------------------------ *)
(** ** aim_report_automation.py *)

Module aim_report_automation.

Definition floor_patterns : list regex :=
  [ (* (?:floor|flr|level|lvl)\s*[:\-]?\s*([A-Za-z0-9]+) *)
    cat_all [ alt_all [lit (txt "floor"); lit (txt "flr");
                       lit (txt "level"); lit (txt "lvl")];
              star CSpace; opt sep_set; star CSpace;
              Group 1 (plus alnum_set) ];
    (* \b(LL|SF)\b *)
    cat_all [ WordB; Group 1 (Alt (lit (txt "LL")) (lit (txt "SF"))); WordB ]
  ].

Definition room_patterns : list regex :=
  [ (* (?:room|rm)\s*[:\-]?\s*([A-Za-z0-9]+) *)
    cat_all [ Alt (lit (txt "room")) (lit (txt "rm"));
              star CSpace; opt sep_set; star CSpace;
              Group 1 (plus alnum_set) ];
    (* \b(\d{3,4}[A-Z]?)\b *)
    cat_all [ WordB;
              Group 1 (Cat (Rep CDigit 3 (Some 4)) (opt upper_set));
              WordB ]
  ].

(** The fallback of the floor from the leading digit(s) of the room. *)
Definition floor_fallback (floor_val room_val : text) : text :=
  if is_empty floor_val && negb (is_empty room_val) then
    if (2 <=? length room_val) && isdigit (firstn 2 room_val) then
      if mem_text (firstn 2 room_val) [txt "10"; txt "11"; txt "12"]
      then firstn 2 room_val
      else firstn 1 room_val
    else if negb (is_empty room_val) && isdigit (firstn 1 room_val) then
      firstn 1 room_val
    else floor_val
  else floor_val.

Definition normalize_floor (floor_val : text) : text :=
  if mem_text (upper floor_val) [txt "0"; txt "B"] then txt "B"
  else if text_eqb (upper floor_val) (txt "LL") then txt "LL"
  else if text_eqb (upper floor_val) (txt "SF") then txt "SF"
  else floor_val.

Definition _extract_floor_room (description : cell) : text * text :=
  match description with
  | NaN => ([], [])
  | Str d =>
      if is_empty (strip d) then ([], [])
      else
        let desc := strip d in
        let floor_val := first_match true floor_patterns desc in
        let room_val := first_match true room_patterns desc in
        let floor_val := floor_fallback floor_val room_val in
        (normalize_floor floor_val, room_val)
  end.

Definition BUILDING_ORDER : list text := [txt "ETB"; txt "WEB"; txt "HEB"; []].

(** Rank tuple of a floor label: blank, then B/LL/SF, then numbers, then
    the rest. *)
Definition _floor_rank (value : text) : Z * pyval :=
  if is_empty (strip value) then (0%Z, PStr [])
  else
    let val := strip (upper value) in
    if mem_text val [txt "B"; txt "LL"; txt "SF"] then (1%Z, PStr val)
    else if isdigit val then (2%Z, PInt (int_of_digits val))
    else (3%Z, PStr val).

(** [re.match] pattern of [_room_rank]: digits (group 1), then capital
    letters, possibly none (group 2). *)
Definition numeric_pattern : regex :=
  Cat (Group 1 (plus CDigit)) (Group 2 (star upper_set)).

Definition _room_rank (value : text) : Z * pyval * text :=
  if is_empty (strip value) then (0%Z, PStr [], [])
  else
    let val := strip (upper value) in
    match re_match false numeric_pattern val with
    | Some g => (1%Z, PInt (int_of_digits (group 1 g)), group 2 g)
    | None => (2%Z, PStr val, [])
    end.

Definition _building_rank (value : text) : Z :=
  let val := if is_empty value then [] else strip (upper value) in
  match index_of val BUILDING_ORDER with
  | Some i => Z.of_nat i
  | None =>
      if is_empty val then Z.of_nat (length BUILDING_ORDER)
      else Z.of_nat (length BUILDING_ORDER + 1)
  end.

Definition _business_days (start : timestamp) (end_ : Z) : option Z :=
  match start with
  | NaT => None
  | Day s => Some (busday_count s end_)
  end.

Definition _clean_headers (cols : list text) : list text :=
  map clean_header cols.

(** The dictionary [{c.lower(): c for c in df.columns}]: a later column
    replaces an earlier one with the same key. *)
Fixpoint lower_cols_get (key : text) (cols : list text) : option text :=
  match cols with
  | [] => None
  | c :: cols' =>
      match lower_cols_get key cols' with
      | Some c' => Some c'
      | None => if text_eqb (lower c) key then Some c else None
      end
  end.

Fixpoint _find_column (cols : list text) (search_terms : list text)
  : option text :=
  match search_terms with
  | [] => None
  | term :: terms =>
      match find (fun col => contains (lower term) (lower col)) cols with
      | Some col => Some col
      | None =>
          match lower_cols_get (lower term) cols with
          | Some col => Some col
          | None => _find_column cols terms
          end
      end
  end.

Definition fillna (c : cell) : text :=
  match c with NaN => [] | Str s => s end.

Definition replace_building (s : text) : text :=
  if text_eqb s (txt "E.T.B") then txt "ETB"
  else if text_eqb s (txt "W.E.B") then txt "WEB"
  else if text_eqb s (txt "H.E.B") then txt "HEB"
  else s.

(** One entry of the series [_normalize_building] returns. *)
Definition _normalize_building (cols : list text) (r : list cell) : text :=
  match _find_column cols [txt "building"; txt "property"; txt "facility"] with
  | None => []
  | Some building_col =>
      replace_building (strip (upper (fillna (cell_of cols building_col r))))
  end.

(** A row of the report: the derived columns and the cells it came from. *)
Record row : Type := {
  Building : text;
  Floor : text;
  Room : text;
  Age : option Z;
  Inspection_Status : text;
  source : list cell
}.

Definition by_building : ordering row :=
  fun a b => Z.compare (_building_rank (Building a)) (_building_rank (Building b)).

Definition by_floor : ordering row :=
  fun a b => pair_compare (_floor_rank (Floor a)) (_floor_rank (Floor b)).

Definition by_room : ordering row :=
  fun a b => triple_compare (_room_rank (Room a)) (_room_rank (Room b)).

(** [df.sort_values(by=["__building_rank", "__floor_rank", "__room_rank"])] *)
Definition sort_rows (rows : list row) : list row :=
  sort_values [by_building; by_floor; by_room] rows.

(** The required columns, in the order in which they are assigned and in
    which the report lists them. *)
Definition required : list text :=
  [txt "Building"; txt "Floor"; txt "Room"; txt "Age (Work Days)";
   txt "Inspection Status"].

Definition rank_columns : list text :=
  [txt "__building_rank"; txt "__floor_rank"; txt "__room_rank"].

(** The columns of the report: the required ones, then the other columns
    that hold a value, given by [non_empty]; selecting a column that went
    with the rank columns raises [KeyError]. *)
Definition ordered_cols (non_empty : text -> bool) (cols : list text)
  : option (list text) :=
  let df_columns := fold_left assign_column required cols in
  let non_empty_cols := filter non_empty df_columns in
  let ordered := filter (fun c => mem_text c df_columns) required in
  let ordered_cols :=
    ordered ++ filter (fun c => negb (mem_text c ordered)) non_empty_cols in
  if existsb (fun c => mem_text c rank_columns) ordered_cols then None
  else Some ordered_cols.

Definition date_created_col (cols : list text) : option text :=
  _find_column cols [txt "date created"; txt "created"].

Definition edit_date_col (cols : list text) : option text :=
  _find_column cols [txt "edit date"; txt "last updated"; txt "modified"].

(** The column the ages are computed from, if any. *)
Definition date_for_age (cols : list text) : option text :=
  match date_created_col cols with
  | Some c => Some c
  | None => edit_date_col cols
  end.

(** [filter(None, [date_created_col, edit_date_col])] *)
Definition date_columns (cols : list text) : list text :=
  match date_created_col cols with Some c => [c] | None => [] end ++
  match edit_date_col cols with Some c => [c] | None => [] end.

Section Pipeline.

(** The date parser behind [pd.to_datetime]: [None] when the text is not
    a date. *)
Variable parse_date : text -> option timestamp.

(** [pd.to_datetime(..., errors="coerce")] *)
Definition to_datetime_coerce (c : cell) : timestamp :=
  match c with
  | NaN => NaT
  | Str s => match parse_date s with Some t => t | None => NaT end
  end.

(** The derived columns are computed cell by cell, so the enriched frame
    is built row by row. *)
Definition enrich (today : Z) (cols : list text) (desc_col : text)
  (r : list cell) : row :=
  let fr := _extract_floor_room (cell_of cols desc_col r) in
  {| Building := _normalize_building cols r;
     Floor := fst fr;
     Room := snd fr;
     Age := match date_for_age cols with
            | Some c => _business_days (to_datetime_coerce (cell_of cols c r)) today
            | None => None
            end;
     Inspection_Status := txt "Pending";
     source := r |}.

(** [pd.to_datetime(..., errors="coerce").dt.strftime("%Y-%m-%d")] on a
    cell: a date is written year-month-day, anything else is lost. *)
Definition normalize_date (c : cell) : cell :=
  match to_datetime_coerce c with
  | NaT => NaN
  | Day d => Str (strftime d)
  end.

(** [_normalize_dates] on the cells of one row: every listed column, in
    turn. *)
Definition _normalize_dates (cols : list text) (date_cols : list text)
  (r : list cell) : list cell :=
  fold_left
    (fun r' col =>
       match index_of col cols with
       | Some i => update i normalize_date r'
       | None => r'
       end)
    date_cols r.

(** [df[c].notna().any()] once the derived columns are assigned and the
    dates normalized: [rows] holds the derived columns, [shown] the cells
    of the columns of the CSV. *)
Definition non_empty (cols : list text) (rows : list row)
  (shown : list (list cell)) (c : text) : bool :=
  if text_eqb c (txt "Age (Work Days)") then
    existsb (fun r => match Age r with Some _ => true | None => false end) rows
  else if mem_text c required then
    match rows with [] => false | _ => true end
  else existsb (fun r => notna (cell_of cols c r)) shown.

(** The frame is returned by its rows, in their final order: the derived
    columns and the cells of the CSV row; the report shows the columns
    [ordered_cols] and, in the date columns, the cells that
    [_normalize_dates] leaves. *)
Definition prepare_dataframe (today : Z) (df : DataFrame)
  : error + list row :=
  let cols := _clean_headers (columns df) in
  match _find_column cols [txt "description"; txt "desc"] with
  | None => inl (ValueError "Missing required Description column in CSV input.")
  | Some desc_col =>
      if match _find_column cols [txt "building"; txt "property"; txt "facility"] with
         | Some building_col => 2 <=? occurrences building_col cols
         | None => false
         end
      then (* the columns of that name have no [.str] *)
        inl (AttributeError "'DataFrame' object has no attribute 'str'")
      else
        match data df with
        | [] =>
            (* unpacking the zip of an empty series into Floor and Room *)
            inl (ValueError "not enough values to unpack (expected 2, got 0)")
        | _ =>
            if 2 <=? occurrences desc_col cols then
              (* the zip runs over the names of the frame [df[desc_col]] *)
              inl (ValueError "too many values to unpack (expected 2)")
            else if existsb (fun c => 2 <=? occurrences c cols) (date_columns cols) then
              (* [pd.to_datetime] on a frame *)
              inl (ValueError "cannot assemble with duplicate keys")
            else if negb (distinct cols) then
              (* [df[c].notna().any()] is a series where [c] is not unique *)
              inl ambiguous
            else
              let rows := map (enrich today cols desc_col) (data df) in
              let shown := map (_normalize_dates cols (date_columns cols)) (data df) in
              match ordered_cols (non_empty cols rows shown) cols with
              | None => inl (KeyError "not in index")
              | Some _ => inr (sort_rows rows)
              end
        end
  end.

End Pipeline.

End aim_report_automation.

(* ------------------------------------------------------------------ *)
(** ** aim_formatter.py *)

Module aim_formatter.

(** (?:Floor:|Flr:)\s*([A-Za-z0-9]+) *)
Definition floor_pattern : regex :=
  cat_all [ Alt (lit (txt "Floor:")) (lit (txt "Flr:"));
            star CSpace; Group 1 (plus alnum_set) ].

(** (?:Room:|Rm:)\s*([A-Za-z0-9]+) *)
Definition room_pattern : regex :=
  cat_all [ Alt (lit (txt "Room:")) (lit (txt "Rm:"));
            star CSpace; Group 1 (plus alnum_set) ].

Definition search_group1 (r : regex) (desc : text) : text :=
  match re_search true r desc with
  | Some g => strip (group 1 g)
  | None => []
  end.

(** [mapping.get(room_val[0], "")] *)
Definition mapping_get (c : ascii) : text :=
  if ascii_eqb c "0" then txt "B"
  else if is_digit c then [c]
  else [].

Definition floor_fallback (floor_val room_val : text) : text :=
  if is_empty floor_val && negb (is_empty room_val) then
    if (4 <=? length room_val) && isdigit (firstn 2 room_val)
       && mem_text (firstn 2 room_val) [txt "10"; txt "11"; txt "12"]
    then firstn 2 room_val
    else match room_val with
         | c :: _ => mapping_get c
         | [] => []
         end
  else floor_val.

Definition normalize_floor (floor_val : text) : text :=
  if text_eqb (upper floor_val) (txt "SF") then txt "SF"
  else if mem_text floor_val [txt "0"; txt "B"] then txt "B"
  else floor_val.

Definition extract_floor_room (description : cell) : text * text :=
  match description with
  | NaN => ([], [])
  | Str d =>
      if is_empty d then ([], [])
      else
        let desc := strip d in
        let floor_val := search_group1 floor_pattern desc in
        let room_val := search_group1 room_pattern desc in
        let floor_val := floor_fallback floor_val room_val in
        (normalize_floor floor_val, room_val)
  end.

Definition floor_rank (floor_val : text) : Z :=
  if is_empty floor_val || is_empty (strip floor_val) then 999%Z
  else
    let v := strip (upper floor_val) in
    if text_eqb v (txt "B") then 0%Z
    else if text_eqb v (txt "SF") then 99%Z
    else if isdigit v then int_of_digits v else 999%Z.

Definition room_rank (room_val : text) : Z :=
  if is_empty room_val || is_empty (strip room_val) then 999999%Z
  else
    let val := strip (upper room_val) in
    if existsb (fun x => contains x val) [txt "HALL"; txt "STR"; txt "ELEV"]
    then 700000%Z
    else
      (* re.match(r"(\d+)", val) *)
      match re_match false (Group 1 (plus CDigit)) val with
      | Some g => int_of_digits (group 1 g)
      | None => 600000%Z
      end.

Definition calculate_business_days (start_date : timestamp) (end_date : Z)
  : option Z :=
  match start_date with
  | NaT => None
  | Day s =>
      let n := busday_count s end_date in
      Some (if (n =? 0)%Z then 0%Z else n)      (* n or 0 *)
  end.

Record row : Type := {
  Age : option Z;
  Floor : text;
  Room : text;
  Inspection_Status : text;
  source : list cell
}.

Definition by_floor : ordering row :=
  fun a b => Z.compare (floor_rank (Floor a)) (floor_rank (Floor b)).

Definition by_room : ordering row :=
  fun a b => Z.compare (room_rank (Room a)) (room_rank (Room b)).

(** [df.sort_values(by=["__FloorRank", "__RoomRank"])] *)
Definition sort_rows (rows : list row) : list row :=
  sort_values [by_floor; by_room] rows.

Definition find_col (cols : list text) (part : text) : option text :=
  find (fun c => contains (lower part) (lower c)) cols.

(** [df.rename(columns={work_col: "Work Order", desc_col: "Description",
    date_col: "Date Created"})] on one name; of equal keys of the
    dictionary the last one counts. *)
Definition rename_column (work_col desc_col date_col c : text) : text :=
  if text_eqb c date_col then txt "Date Created"
  else if text_eqb c desc_col then txt "Description"
  else if text_eqb c work_col then txt "Work Order"
  else c.

Section Pipeline.

Variable parse_date : text -> option timestamp.

(** [pd.to_datetime(d)]: a text that is not a date raises. *)
Definition to_datetime (c : cell) : error + timestamp :=
  match c with
  | NaN => inr NaT
  | Str s =>
      match parse_date s with
      | Some t => inr t
      | None => inl (ValueError "Unknown datetime string format")
      end
  end.

(** The age column, [calculate_business_days(pd.to_datetime(d), today)]
    applied to every date cell: the first cell that raises ends it. *)
Fixpoint age_column (today : Z) (cells : list cell)
  : error + list (option Z) :=
  match cells with
  | [] => inr []
  | d :: rest =>
      match to_datetime d with
      | inl e => inl e
      | inr t =>
          match age_column today rest with
          | inl e => inl e
          | inr ages => inr (calculate_business_days t today :: ages)
          end
      end
  end.

(** [df["Age (Days)"] = df["Date Created"].apply(...)].  On a frame of
    several columns the function is given a whole column: its dates are
    parsed, and the test [pd.isna(start_date)] of a series raises; on a
    frame without rows [apply] returns the frame, which cannot be assigned
    to one column. *)
Definition date_created_ages (today : Z) (renamed : list text)
  (rows : list (list cell)) : error + list (option Z) :=
  match select (txt "Date Created") renamed with
  | NoColumn => inl (KeyError "Date Created")
  | Series i => age_column today (map (fun r => nth i r NaN) rows)
  | Frame i =>
      match rows with
      | [] => inl (ValueError "Cannot set a DataFrame with multiple columns to the single column Age (Days)")
      | _ =>
          match age_column today (map (fun r => nth i r NaN) rows) with
          | inl e => inl e
          | inr _ => inl ambiguous
          end
      end
  end.

(** A row with its derived columns; [desc] is the place of the column
    Description. *)
Definition enrich (desc : nat) (r : list cell) (age : option Z) : row :=
  let fr := extract_floor_room (nth desc r NaN) in
  {| Age := age;
     Floor := fst fr;
     Room := snd fr;
     Inspection_Status := txt "Pending";
     source := r |}.

Fixpoint zip_rows (desc : nat) (rs : list (list cell))
  (ages : list (option Z)) : list row :=
  match rs, ages with
  | r :: rs', a :: ages' => enrich desc r a :: zip_rows desc rs' ages'
  | _, _ => []
  end.

(** The part of [run_aim_formatter] before the workbook is written; the
    frame is returned by its rows, in their final order. *)
Definition run_aim_formatter (today : Z) (df : DataFrame)
  : error + list row :=
  let cols := map clean_header (columns df) in
  match find_col cols (txt "work"), find_col cols (txt "desc"),
        find_col cols (txt "date") with
  | Some work_col, Some desc_col, Some date_col =>
      let renamed := map (rename_column work_col desc_col date_col) cols in
      match date_created_ages today renamed (data df) with
      | inl e => inl e
      | inr ages =>
          match select (txt "Description") renamed, data df with
          | NoColumn, _ => inl (KeyError "Description")
          | Frame _, [] => inl (ValueError "too many values to unpack (expected 2)")
          | Frame _, _ :: _ => inl ambiguous     (* [not description] on a series *)
          | Series _, [] =>
              inl (ValueError "not enough values to unpack (expected 2, got 0)")
          | Series desc, _ :: _ =>
              if (2 <=? occurrences (txt "Floor") renamed)
                 || (2 <=? occurrences (txt "Room") renamed)
              then inl ambiguous                  (* the rank of a series *)
              else if (2 <=? occurrences (txt "__FloorRank") renamed)
                      || (2 <=? occurrences (txt "__RoomRank") renamed)
              then inl (ValueError "The column label is not unique.")
              else inr (sort_rows (zip_rows desc (data df) ages))
          end
      end
  | _, _, _ => inl (ValueError "Missing required columns.")
  end.

End Pipeline.

End aim_formatter.

(* ------------------------------------------------------------------ *)
(** * Vocabulary of the properties *)

Import aim_report_automation.

(** ** Words and runs in a text *)

(** [s] starts with the word [w], read as the matcher reads a literal. *)
Fixpoint starts_lit (ic : bool) (w s : text) : bool :=
  match w, s with
  | [], _ => true
  | p :: w', c :: s' => lit_eq ic p c && starts_lit ic w' s'
  | _ :: _, [] => false
  end.

(** The character before the position reached once [l] is consumed. *)
Definition last_opt (prev : option ascii) (l : text) : option ascii :=
  match l with
  | [] => prev
  | c :: l' => Some (last l' c)
  end.

(** A run of characters of the class [p] cannot go on into [s]. *)
Definition stops (p : ascii -> bool) (s : text) : bool :=
  match s with [] => true | c :: _ => negb (p c) end.

(** ** Explicit room markers *)

(** [w] is the word room or rm, in any case. *)
Definition room_word (w : text) : bool :=
  text_eqb (lower w) (txt "room") || text_eqb (lower w) (txt "rm").

(** After optional white space comes a letter or a digit. *)
Definition token_follows (s : text) : bool :=
  match lstrip s with c :: _ => is_alnum c | [] => false end.

(** After optional white space, at most one colon or hyphen and optional
    white space again comes a letter or a digit. *)
Definition token_follows_sep (s : text) : bool :=
  match lstrip s with
  | c :: s' => if cset_mem true sep_set c then token_follows s' else is_alnum c
  | [] => false
  end.

(** The room pattern of [aim_report_automation] can start at the head of
    [s]: the letters room or rm in any case, be it inside a longer word,
    then what [token_follows_sep] describes. *)
Definition automation_room_start (s : text) : bool :=
  (starts_lit true (txt "room") s && token_follows_sep (skipn 4 s)) ||
  (starts_lit true (txt "rm") s && token_follows_sep (skipn 2 s)).

(** The room pattern of [aim_formatter] can start at the head of [s]: the
    letters room or rm in any case and a colon, then optional white space
    and a letter or a digit. *)
Definition formatter_room_start (s : text) : bool :=
  (starts_lit true (txt "room:") s && token_follows (skipn 5 s)) ||
  (starts_lit true (txt "rm:") s && token_follows (skipn 3 s)).

(** [start] holds at none of the first [n] positions of [d]. *)
Fixpoint none_before (start : text -> bool) (n : nat) (d : text) : bool :=
  match n with
  | O => true
  | S n' =>
      negb (start d) &&
      match d with
      | [] => true
      | _ :: d' => none_before start n' d'
      end
  end.

(** The end of both room patterns: white space, then the token. *)
Definition token_tail : regex := Cat (star CSpace) (Group 1 (plus alnum_set)).

(** The first room pattern of [aim_report_automation]. *)
Definition automation_room_marker : regex :=
  Cat (Alt (lit (txt "room")) (lit (txt "rm")))
      (Cat (star CSpace) (Cat (opt sep_set) token_tail)).

(** Unfolds the comparison of a literal with explicit characters. *)
Ltac lit_chars :=
  cbn [app txt list_ascii_of_string starts_lit length firstn skipn];
  unfold lit_eq.

(** The description [d] contains an explicit marker followed by the
    token [X], as C1 words it. *)
Definition has_room_marker (d X : text) : Prop :=
  exists pre w sep rest,
    d = pre ++ w ++ txt ":" ++ sep ++ X ++ rest /\
    room_word w = true /\ forallb is_space sep = true /\
    X <> [] /\ forallb is_alnum X = true /\ stops is_alnum rest = true.

(** ** The floor derived from the room *)

(** The first two characters are one of the high-rise codes. *)
Definition high_rise (room : text) : bool :=
  mem_text (firstn 2 room) [txt "10"; txt "11"; txt "12"].

(** The floor of a leading digit: 0 is the basement. *)
Definition digit_floor (c : ascii) : text :=
  if ascii_eqb c "0" then txt "B" else [c].

(** The four descriptions of the end-to-end scenario. *)
Definition scenario : list text :=
  [txt "Floor: 2 Room: 204"; txt "Room: 1104";
   txt "Elevator near 2nd floor hallway"; txt "Basement storage Rm: B12"].

(** ** Keys and rows of the sort *)

Definition is_int (v : pyval) : bool :=
  match v with PInt _ => true | PStr _ => false end.

(** The order [cmp] separates no two rows of the class [P]. *)
Definition tied {R : Type} (cmp : ordering R) (P : R -> bool) : Prop :=
  forall a b, P a = true -> P b = true -> cmp a b <> Gt.

(** The comparison came out equal. *)
Definition is_eq (c : comparison) : bool :=
  match c with Eq => true | _ => false end.

(** The composite keys of [x] and [r] compare equal. *)
Definition same_key (x r : row) : bool :=
  is_eq (by_building x r) && is_eq (by_floor x r) && is_eq (by_room x r).

(** The same for [aim_formatter], whose key has no building rank. *)
Definition formatter_same_key (x r : aim_formatter.row) : bool :=
  is_eq (aim_formatter.by_floor x r) && is_eq (aim_formatter.by_room x r).

(** A comparison that decides equality, turns round with its arguments
    and is transitive. *)
Record order_ok {K : Type} (c : K -> K -> comparison) : Prop := {
  ok_eq : forall a b, c a b = Eq <-> a = b;
  ok_anti : forall a b, c b a = CompOpp (c a b);
  ok_trans : forall a b d, c a b <> Gt -> c b d <> Gt -> c a d <> Gt
}.

(** The order of two rows by a first key, then by a second one. *)
Definition lexo {R : Type} (major minor : ordering R) : ordering R :=
  fun a b => lex (major a b) (minor a b).

(** The composite keys. *)
Definition key_compare : ordering row :=
  lexo by_building (lexo by_floor by_room).

Definition formatter_key_compare : ordering aim_formatter.row :=
  lexo aim_formatter.by_floor aim_formatter.by_room.

(** [a] does not come after [b]. *)
Definition le_by {R : Type} (c : ordering R) : R -> R -> Prop :=
  fun a b => c a b <> Gt.

(** The row [base] with another floor. *)
Definition with_floor (base : row) (f : text) : row :=
  {| Building := Building base; Floor := f; Room := Room base;
     Age := Age base; Inspection_Status := Inspection_Status base;
     source := source base |}.

Definition formatter_with_floor (base : aim_formatter.row) (f : text)
  : aim_formatter.row :=
  {| aim_formatter.Age := aim_formatter.Age base;
     aim_formatter.Floor := f;
     aim_formatter.Room := aim_formatter.Room base;
     aim_formatter.Inspection_Status := aim_formatter.Inspection_Status base;
     aim_formatter.source := aim_formatter.source base |}.

(** The floors blank, B, 2, SF, 1. *)
Definition five_floors : list text :=
  [txt ""; txt "B"; txt "2"; txt "SF"; txt "1"].

(** A row without building, floor and room. *)
Definition blank_row : row :=
  {| Building := []; Floor := []; Room := []; Age := None;
     Inspection_Status := txt "Pending"; source := [] |}.

Definition formatter_blank_row : aim_formatter.row :=
  {| aim_formatter.Age := None; aim_formatter.Floor := [];
     aim_formatter.Room := [];
     aim_formatter.Inspection_Status := txt "Pending";
     aim_formatter.source := [] |}.

(** The row [base] with another room. *)
Definition with_room (base : row) (r : text) : row :=
  {| Building := Building base; Floor := Floor base; Room := r;
     Age := Age base; Inspection_Status := Inspection_Status base;
     source := source base |}.

Definition formatter_with_room (base : aim_formatter.row) (r : text)
  : aim_formatter.row :=
  {| aim_formatter.Age := aim_formatter.Age base;
     aim_formatter.Floor := aim_formatter.Floor base;
     aim_formatter.Room := r;
     aim_formatter.Inspection_Status := aim_formatter.Inspection_Status base;
     aim_formatter.source := aim_formatter.source base |}.

(** The label, upper-cased and stripped, starts with a digit. *)
Definition leading_digit (r : text) : bool :=
  match strip (upper r) with c :: _ => is_digit c | [] => false end.

(** The label is not blank and starts with something else. *)
Definition non_numeric (r : text) : bool :=
  match strip (upper r) with c :: _ => negb (is_digit c) | [] => false end.

(** The test of [aim_formatter] for a common area. *)
Definition common_area (r : text) : bool :=
  existsb (fun x => contains x (strip (upper r)))
          [txt "HALL"; txt "STR"; txt "ELEV"].

(** [x] sorts after [y], whichever comes first in the input. *)
Definition sorts_after (x y : row) : Prop :=
  sort_rows [x; y] = [y; x] /\ sort_rows [y; x] = [y; x].

Definition formatter_sorts_after (x y : aim_formatter.row) : Prop :=
  aim_formatter.sort_rows [x; y] = [y; x] /\
  aim_formatter.sort_rows [y; x] = [y; x].

(** ** Days and batches *)

(** The weekdays among the [n] days that start with [d]. *)
Fixpoint weekdays (n : nat) (d : Z) : Z :=
  match n with
  | O => 0%Z
  | S n' => ((if is_weekday d then 1 else 0) + weekdays n' (d + 1))%Z
  end.

(** The search terms of the description column. *)
Definition description_terms : list text := [txt "description"; txt "desc"].

(** A batch of one work order. *)
Definition one_order (date_header date_cell : string) : DataFrame :=
  {| columns := [txt "Work Order"; txt "Description"; txt date_header];
     data := [[Str (txt "WO-1"); Str (txt "Room: 204"); Str (txt date_cell)]] |}.


(** A parser that knows one date, 2024-01-03. *)
Definition one_date (s : text) : option timestamp :=
  if text_eqb s (txt "2024-01-03") then Some (Day 19725) else None.

(** The date cell is missing, or holds a text that is not a date. *)
Definition no_date (parse_date : text -> option timestamp) (c : cell) : Prop :=
  c = NaN \/ exists s, c = Str s /\ parse_date s = None.

(** What [pd.to_datetime] raises on a text that is no date. *)
Definition parse_error : error := ValueError "Unknown datetime string format".

(** A batch whose only date cell is no date. *)
Definition unconfirmed : DataFrame := one_order "Date Created" "to be confirmed".

(** ** What a pattern can consume and capture *)

(** The 256 characters. *)
Definition all_ascii : list ascii := map ascii_of_nat (seq 0 256).

(** Every character of the class [f] is in the class [q]. *)
Definition class_sub (f q : ascii -> bool) : bool :=
  forallb (fun c => implb (f c) (q c)) all_ascii.

(** [r] has no group and consumes characters of the class [q] only. *)
Fixpoint consumes (ic : bool) (q : ascii -> bool) (r : regex) : bool :=
  match r with
  | Eps | WordB => true
  | Lit p => class_sub (lit_eq ic p) q
  | Cls cs => class_sub (cset_mem ic cs) q
  | Cat a b | Alt a b => consumes ic q a && consumes ic q b
  | Rep cs _ _ => class_sub (cset_mem ic cs) q
  | Group _ _ => false
  end.

Definition any_char : ascii -> bool := fun _ => true.

(** [r] is a sequence with exactly one group, numbered 1, whose body
    consumes characters of the class [q] only. *)
Fixpoint one_group (ic : bool) (q : ascii -> bool) (r : regex) : bool :=
  match r with
  | Group 1 b => consumes ic q b
  | Cat a b =>
      (consumes ic any_char a && one_group ic q b) ||
      (one_group ic q a && consumes ic any_char b)
  | _ => false
  end.

(** ** Batches *)

(** The date cell is missing or holds a date. *)
Definition date_ok (parse_date : text -> option timestamp) (c : cell) : Prop :=
  c = NaN \/ exists s t, c = Str s /\ parse_date s = Some t.

(** The age [aim_formatter] gives to a row with the date cell [c]. *)
Definition formatter_age (parse_date : text -> option timestamp) (today : Z)
  (c : cell) : option Z :=
  match aim_formatter.to_datetime parse_date c with
  | inr t => aim_formatter.calculate_business_days t today
  | inl _ => None
  end.

(** ** The columns of the report *)

Definition formatter_derived : list text :=
  [txt "Age (Days)"; txt "Floor"; txt "Room"; txt "__FloorRank";
   txt "__RoomRank"; txt "Inspection Status"].

(** [headers = list(df.columns)] once the derived columns are assigned. *)
Definition formatter_headers (work_col desc_col date_col : text)
  (cols : list text) : list text :=
  fold_left assign_column formatter_derived
            (map (aim_formatter.rename_column work_col desc_col date_col) cols).

(** [ws.delete_cols(idx)] on one row of the sheet; columns count from 1. *)
Definition delete_cols {A : Type} (idx : nat) (r : list A) : list A :=
  firstn (idx - 1) r ++ skipn idx r.

(** The header row of the sheet after the two helper columns are deleted,
    the room rank first. *)
Definition sheet_header (headers : list text) : option (list text) :=
  match index_of (txt "__RoomRank") headers,
        index_of (txt "__FloorRank") headers with
  | Some room_i, Some floor_i =>
      Some (delete_cols (floor_i + 1) (delete_cols (room_i + 1) headers))
  | _, _ => None
  end.

(** [insp_col], the column the dropdown is attached to. *)
Definition insp_col (headers : list text) : option nat :=
  option_map (fun i => i + 1) (index_of (txt "Inspection Status") headers).

(** ** Batches that are refused *)

(** A column of the CSV that holds a value bears the name of a rank
    column. *)
Definition rank_named_values (cols : list text) (rows : list (list cell)) : bool :=
  existsb (fun c => mem_text c rank_columns &&
                    existsb (fun r => notna (cell_of cols c r)) rows) cols.




(** None of the names Floor, Room and of the two rank columns of
    [aim_formatter] is borne by two columns. *)
Definition once_at_most (renamed : list text) : bool :=
  forallb (fun n => occurrences n renamed <=? 1)
          [txt "Floor"; txt "Room"; txt "__FloorRank"; txt "__RoomRank"].

(** A frame whose second column contains desc and date and comes before
    the column Description. *)
Definition desc_date_batch : DataFrame :=
  {| columns := [txt "Work Order"; txt "Desc Date"; txt "Description"];
     data := [[Str (txt "WO-1"); Str (txt "2024-01-03"); Str (txt "Room: 204")]] |}.

(** The cell is missing or holds ASCII text. *)
Definition ascii_cell (c : cell) : bool :=
  match c with NaN => true | Str d => forallb is_ascii d end.

(* ------------------------------------------------------------------ *)
(** * Properties *)

(** ** Characters and text *)

Lemma ascii_eqb_eq (a b : ascii) : ascii_eqb a b = true <-> a = b.
Proof.
  unfold ascii_eqb, code. rewrite Nat.eqb_eq. split.
  - intro H. rewrite <- (ascii_nat_embedding a), <- (ascii_nat_embedding b).
    now rewrite H.
  - now intros ->.
Qed.

Lemma ascii_eqb_refl (a : ascii) : ascii_eqb a a = true.
Proof. now apply ascii_eqb_eq. Qed.

Lemma text_eqb_eq (a b : text) : text_eqb a b = true <-> a = b.
Proof.
  revert b. induction a as [|x a IH]; intros [|y b]; simpl; try easy.
  rewrite andb_true_iff, ascii_eqb_eq, IH. split.
  - now intros [-> ->].
  - intros H. now inversion H.
Qed.

Lemma alnum_not_space (c : ascii) : is_alnum c = true -> is_space c = false.
Proof. destruct c as [[] [] [] [] [] [] [] []]; vm_compute; congruence. Qed.

Lemma lstrip_app (a b : text) (c : ascii) :
  is_space c = false -> lstrip (a ++ c :: b) = lstrip a ++ c :: b.
Proof.
  intros Hc. induction a as [|x a IH]; simpl.
  - now rewrite Hc.
  - destruct (is_space x); auto.
Qed.

Lemma rstrip_app (a b : text) (c : ascii) :
  is_space c = false -> rstrip (a ++ c :: b) = a ++ c :: rstrip b.
Proof.
  intros Hc. unfold rstrip.
  rewrite rev_app_distr. simpl rev at 1.
  rewrite <- app_assoc. simpl app at 2.
  rewrite lstrip_app by assumption.
  rewrite rev_app_distr. simpl. rewrite rev_involutive.
  now rewrite <- app_assoc.
Qed.

Lemma lstrip_suffix (s : text) : exists ws, s = ws ++ lstrip s.
Proof.
  induction s as [|x s [ws IH]]; simpl.
  - now exists [].
  - destruct (is_space x).
    + exists (x :: ws). simpl. now f_equal.
    + now exists [].
Qed.

Lemma strip_alnum (X : text) : forallb is_alnum X = true -> strip X = X.
Proof.
  intros H. unfold strip.
  assert (Hl : forall Y, forallb is_alnum Y = true -> lstrip Y = Y).
  { intros [|c Y]; simpl; auto. rewrite andb_true_iff. intros [Hc _].
    now rewrite (alnum_not_space _ Hc). }
  rewrite (Hl X H). unfold rstrip. rewrite Hl.
  - apply rev_involutive.
  - rewrite forallb_forall in *. intros c Hc. apply H. now apply in_rev.
Qed.

(** ** The matcher on literals, runs of a class and groups *)

Lemma last_shift (l : text) (c d : ascii) : last (c :: l) d = last l c.
Proof.
  revert c d. induction l as [|x l IH]; intros c d; [reflexivity|].
  change (last (x :: l) d = last (x :: l) c). now rewrite !IH.
Qed.

Lemma last_opt_cons (prev : option ascii) (c : ascii) (l : text) :
  last_opt prev (c :: l) = last_opt (Some c) l.
Proof.
  destruct l as [|x l]; [reflexivity|].
  unfold last_opt. f_equal. apply last_shift.
Qed.

Lemma mtch_lit (A : Type) (ic : bool) (w : text) :
  forall prev s g (k : option ascii -> text -> captures -> option A),
    mtch ic (lit w) prev s g k =
    if starts_lit ic w s
    then k (last_opt prev (firstn (length w) s)) (skipn (length w) s) g
    else None.
Proof.
  induction w as [|p w IH]; intros prev s g k.
  - reflexivity.
  - assert (E : mtch ic (lit (p :: w)) prev s g k =
                mtch ic (Lit p) prev s g (fun p' s' g' => mtch ic (lit w) p' s' g' k)).
    { destruct w; reflexivity. }
    rewrite E. simpl mtch. destruct s as [|c s]; [reflexivity|].
    simpl starts_lit. destruct (lit_eq ic p c); [|reflexivity].
    rewrite IH. simpl andb. destruct (starts_lit ic w s); [|reflexivity].
    simpl length. simpl firstn. simpl skipn. now rewrite last_opt_cons.
Qed.

Lemma starts_lit_app (ic : bool) (w v s : text) :
  starts_lit ic (w ++ v) s = true -> starts_lit ic w s = true.
Proof.
  revert s. induction w as [|p w IH]; intros [|c s]; simpl; try easy.
  rewrite !andb_true_iff. intros [H1 H2]. split; auto.
Qed.

Lemma rep_greedy_zero (A : Type) (p : ascii -> bool) (lo : nat)
  (prev : option ascii) (s : text) (k : option ascii -> text -> option A) :
  rep_greedy p lo (Some 0) prev s k =
  match lo with 0 => k prev s | S _ => None end.
Proof.
  destruct s as [|c s]; simpl; auto.
  now rewrite andb_false_r.
Qed.

(** A greedy unbounded repetition takes a whole maximal run when the rest
    of the pattern then succeeds. *)
Lemma rep_greedy_run (A : Type) (p : ascii -> bool) (run : text) :
  forall lo prev s (k : option ascii -> text -> option A) x,
    forallb p run = true ->
    stops p s = true ->
    lo <= length run ->
    k (last_opt prev run) s = Some x ->
    rep_greedy p lo None prev (run ++ s) k = Some x.
Proof.
  induction run as [|c run IH]; intros lo prev s k x Hrun Hs Hlo Hk.
  - simpl in *. assert (lo = 0) by lia. subst lo.
    destruct s as [|c s]; simpl; auto.
    simpl in Hs. destruct (p c); simpl in *; [discriminate|auto].
  - simpl in Hrun. apply andb_true_iff in Hrun as [Hc Hrun].
    simpl app. simpl rep_greedy. rewrite Hc. simpl.
    rewrite (IH (pred lo) (Some c) s k x); auto.
    + simpl in Hlo. lia.
    + now rewrite <- (last_opt_cons prev).
Qed.

Lemma firstn_consumed (X rest : text) :
  firstn (length (X ++ rest) - length rest) (X ++ rest) = X.
Proof.
  rewrite length_app, Nat.add_sub.
  rewrite firstn_app, Nat.sub_diag, firstn_all. simpl. apply app_nil_r.
Qed.

Lemma alnum_set_mem (c : ascii) : cset_mem true alnum_set c = is_alnum c.
Proof. destruct c as [[] [] [] [] [] [] [] []]; reflexivity. Qed.

Lemma search_from_eq (ic : bool) (r : regex) (prev : option ascii) (s : text) :
  search_from ic r prev s =
  match mtch ic r prev s [] accept with
  | Some g => Some g
  | None =>
      match s with
      | [] => None
      | c :: s' => search_from ic r (Some c) s'
      end
  end.
Proof. destruct s; reflexivity. Qed.

(** The search skips the positions at which the pattern cannot start. *)
Lemma search_from_skip (ic : bool) (r : regex) (pre : text) :
  forall prev s,
    (forall a b, pre = a ++ b -> b <> [] ->
       mtch ic r (last_opt prev a) (b ++ s) [] accept = None) ->
    search_from ic r prev (pre ++ s) = search_from ic r (last_opt prev pre) s.
Proof.
  induction pre as [|c pre IH]; intros prev s H.
  - reflexivity.
  - rewrite search_from_eq.
    pose proof (H [] (c :: pre) eq_refl ltac:(easy)) as H0.
    unfold last_opt in H0. rewrite H0.
    cbn iota. cbn [app]. rewrite IH.
    + now rewrite last_opt_cons.
    + intros a b E Hb. rewrite <- (last_opt_cons prev).
      apply H; [|assumption]. simpl. now f_equal.
Qed.

(** What a greedy repetition has consumed when the rest succeeds. *)
Lemma rep_greedy_sound (A : Type) (p : ascii -> bool) (s : text) :
  forall lo hi prev (k : option ascii -> text -> option A) x,
    rep_greedy p lo hi prev s k = Some x ->
    exists p' m s', s = m ++ s' /\ forallb p m = true /\ k p' s' = Some x.
Proof.
  induction s as [|c s IH]; intros lo hi prev k x H.
  - cbn [rep_greedy] in H. destruct lo; [|discriminate].
    now exists prev, [], [].
  - cbn [rep_greedy] in H.
    assert (Hstop : match lo with 0 => k prev (c :: s) | S _ => None end = Some x ->
              exists p' m s', c :: s = m ++ s' /\ forallb p m = true /\ k p' s' = Some x).
    { destruct lo; [|discriminate]. intros Hk. now exists prev, [], (c :: s). }
    destruct (p c && hi_allows hi) eqn:E; [|now apply Hstop].
    destruct (rep_greedy p (pred lo) (option_map pred hi) (Some c) s k) as [y|] eqn:Er;
      [|now apply Hstop].
    inversion H; subst y. apply andb_true_iff in E as [Hc _].
    destruct (IH _ _ _ _ _ Er) as (p' & m & s' & -> & Hm & Hk).
    exists p', (c :: m), s'. cbn [forallb app]. now rewrite Hc.
Qed.

(** An optional character: none is taken, or one of the class. *)
Lemma rep_greedy_opt_sound (A : Type) (p : ascii -> bool) (prev : option ascii)
  (s : text) (k : option ascii -> text -> option A) (x : A) :
  rep_greedy p 0 (Some 1) prev s k = Some x ->
  k prev s = Some x \/
  exists c s', s = c :: s' /\ p c = true /\ k (Some c) s' = Some x.
Proof.
  destruct s as [|c s]; cbn [rep_greedy]; [now left|].
  destruct (p c) eqn:Hc; cbn [andb hi_allows option_map pred]; [|now left].
  rewrite rep_greedy_zero.
  destruct (k (Some c) s) as [y|] eqn:Hk; [|now left].
  intros H. inversion H; subst y. right. now exists c, s.
Qed.

(** A repetition that needs one character starts with one of the class. *)
Lemma rep_greedy_one_head (A : Type) (p : ascii -> bool) (hi : option nat)
  (prev : option ascii) (s : text) (k : option ascii -> text -> option A) (x : A) :
  rep_greedy p 1 hi prev s k = Some x ->
  exists c s', s = c :: s' /\ p c = true.
Proof.
  destruct s as [|c s]; cbn [rep_greedy]; [discriminate|].
  destruct (p c) eqn:Hc; cbn [andb].
  - intros _. now exists c, s.
  - discriminate.
Qed.

Lemma mtch_rep (A : Type) (ic : bool) (cs : cset) (lo : nat) (hi : option nat)
  prev s g (k : option ascii -> text -> captures -> option A) :
  mtch ic (Rep cs lo hi) prev s g k =
  rep_greedy (cset_mem ic cs) lo hi prev s (fun p' s' => k p' s' g).
Proof. reflexivity. Qed.

Lemma mtch_group (A : Type) (ic : bool) (n : nat) (r : regex)
  prev s g (k : option ascii -> text -> captures -> option A) :
  mtch ic (Group n r) prev s g k =
  mtch ic r prev s g
    (fun p' s' g' => k p' s' ((n, firstn (length s - length s') s) :: g')).
Proof. reflexivity. Qed.

Lemma lstrip_run (m t : text) :
  forallb is_space m = true -> lstrip (m ++ t) = lstrip t.
Proof.
  induction m as [|c m IH]; [reflexivity|]. cbn [forallb app lstrip].
  rewrite andb_true_iff. intros [-> H]. auto.
Qed.

Lemma lstrip_head_app (u t : text) (c : ascii) (u' : text) :
  lstrip u = c :: u' -> lstrip (u ++ t) = c :: u' ++ t.
Proof.
  induction u as [|x u IH]; [discriminate|]. cbn [app lstrip].
  destruct (is_space x); [exact IH|]. intros H. inversion H. reflexivity.
Qed.

Lemma span_run (p : ascii -> bool) (s : text) :
  exists run rest, s = run ++ rest /\ forallb p run = true /\ stops p rest = true.
Proof.
  induction s as [|c s (run & rest & -> & Hrun & Hrest)].
  - now exists [], [].
  - destruct (p c) eqn:E.
    + exists (c :: run), rest. simpl. now rewrite E.
    + exists [], (c :: run ++ rest). simpl. now rewrite E.
Qed.

(** ** Explicit room markers *)

Lemma starts_lit_ext (ic : bool) (p u s : text) :
  length p <= length u -> starts_lit ic p (u ++ s) = starts_lit ic p u.
Proof.
  revert u. induction p as [|x p IH]; intros [|c u]; simpl; intros H;
    try reflexivity; try lia.
  rewrite IH; [reflexivity | lia].
Qed.

Lemma room_word_cases (w : text) :
  room_word w = true ->
  (exists c1 c2 c3 c4, w = [c1; c2; c3; c4] /\ to_lower c1 = "r"%char /\
     to_lower c2 = "o"%char /\ to_lower c3 = "o"%char /\ to_lower c4 = "m"%char)
  \/ (exists c1 c2, w = [c1; c2] /\ to_lower c1 = "r"%char /\ to_lower c2 = "m"%char).
Proof.
  unfold room_word. rewrite orb_true_iff, !text_eqb_eq. intros [H|H].
  - left. destruct w as [|c1 [|c2 [|c3 [|c4 [|c5 w]]]]]; try discriminate.
    inversion H. now exists c1, c2, c3, c4.
  - right. destruct w as [|c1 [|c2 [|c3 w]]]; try discriminate.
    inversion H. now exists c1, c2.
Qed.

Lemma lower_r_not_space (c : ascii) :
  to_lower c = "r"%char -> is_space c = false.
Proof.
  destruct c as [[] [] [] [] [] [] [] []]; intro H; vm_compute in *; congruence.
Qed.

Lemma forallb_alnum_set (X : text) :
  forallb is_alnum X = true -> forallb (cset_mem true alnum_set) X = true.
Proof.
  rewrite !forallb_forall. intros H c Hc. rewrite alnum_set_mem. auto.
Qed.

Lemma stops_alnum_set (rest : text) :
  stops is_alnum rest = true -> stops (cset_mem true alnum_set) rest = true.
Proof. destruct rest; cbn [stops]; auto. now rewrite alnum_set_mem. Qed.

Lemma stops_space_alnum (X rest : text) :
  X <> [] -> forallb is_alnum X = true ->
  stops (cset_mem true CSpace) (X ++ rest) = true.
Proof.
  destruct X as [|c X]; [easy|]. simpl. rewrite andb_true_iff.
  intros _ [Hc _]. now rewrite (alnum_not_space _ Hc).
Qed.

Lemma token_tail_match (prev : option ascii) (sep X rest : text) :
  forallb is_space sep = true ->
  X <> [] -> forallb is_alnum X = true ->
  stops is_alnum rest = true ->
  mtch true token_tail prev (sep ++ X ++ rest) [] accept = Some [(1, X)].
Proof.
  intros Hsep HX Hal Hrest.
  unfold token_tail, star, plus. cbn [mtch].
  apply rep_greedy_run; auto.
  - now apply stops_space_alnum.
  - lia.
  - apply rep_greedy_run.
    + now apply forallb_alnum_set.
    + now apply stops_alnum_set.
    + destruct X; [easy | simpl; lia].
    + unfold accept. now rewrite firstn_consumed.
Qed.

Lemma rep_greedy_opt_take (A : Type) (p : ascii -> bool) (prev : option ascii)
  (c : ascii) (s : text) (k : option ascii -> text -> option A) (x : A) :
  p c = true -> k (Some c) s = Some x ->
  rep_greedy p 0 (Some 1) prev (c :: s) k = Some x.
Proof.
  intros Hc Hk. cbn [rep_greedy]. rewrite Hc. cbn [andb hi_allows option_map pred].
  now rewrite rep_greedy_zero, Hk.
Qed.

(** After the word, [aim_report_automation] accepts the colon and goes on
    to the token. *)
Lemma automation_tail_match (prev : option ascii) (sep X rest : text) :
  forallb is_space sep = true ->
  X <> [] -> forallb is_alnum X = true ->
  stops is_alnum rest = true ->
  mtch true (Cat (star CSpace) (Cat (opt sep_set) token_tail)) prev
    (":"%char :: sep ++ X ++ rest) [] accept = Some [(1, X)].
Proof.
  intros Hsep HX Hal Hrest.
  unfold star at 1. unfold opt. cbn [mtch].
  apply (rep_greedy_run _ (cset_mem true CSpace) []); auto.
  apply rep_greedy_opt_take; [reflexivity|].
  now apply token_tail_match.
Qed.

Lemma mtch_cat (A : Type) (ic : bool) (r1 r2 : regex) prev s g
  (k : option ascii -> text -> captures -> option A) :
  mtch ic (Cat r1 r2) prev s g k =
  mtch ic r1 prev s g (fun p' s' g' => mtch ic r2 p' s' g' k).
Proof. reflexivity. Qed.

Lemma mtch_alt (A : Type) (ic : bool) (r1 r2 : regex) prev s g
  (k : option ascii -> text -> captures -> option A) :
  mtch ic (Alt r1 r2) prev s g k =
  match mtch ic r1 prev s g k with
  | Some x => Some x
  | None => mtch ic r2 prev s g k
  end.
Proof. reflexivity. Qed.

Lemma automation_room_at_marker (prev : option ascii) (w sep X rest : text) :
  room_word w = true ->
  forallb is_space sep = true ->
  X <> [] -> forallb is_alnum X = true ->
  stops is_alnum rest = true ->
  mtch true automation_room_marker prev (w ++ ":"%char :: sep ++ X ++ rest) [] accept
  = Some [(1, X)].
Proof.
  intros Hw Hsep HX Hal Hrest.
  unfold automation_room_marker. rewrite mtch_cat, mtch_alt, !mtch_lit.
  destruct (room_word_cases _ Hw) as [(c1 & c2 & c3 & c4 & -> & H1 & H2 & H3 & H4)
                                     |(c1 & c2 & -> & H1 & H2)].
  - lit_chars. rewrite H1, H2, H3, H4. cbn [to_lower].
    change (ascii_eqb (to_lower "r") "r") with true.
    change (ascii_eqb (to_lower "o") "o") with true.
    change (ascii_eqb (to_lower "m") "m") with true.
    cbn [andb]. now rewrite automation_tail_match.
  - lit_chars. rewrite H1, H2.
    change (ascii_eqb (to_lower "r") "r") with true.
    change (ascii_eqb (to_lower "o") "m") with false.
    change (ascii_eqb (to_lower "m") "m") with true.
    cbn [andb]. now rewrite automation_tail_match.
Qed.

Lemma room_word_length (w : text) : room_word w = true -> 2 <= length w.
Proof.
  intros H.
  destruct (room_word_cases _ H) as [(c1 & c2 & c3 & c4 & -> & _)|(c1 & c2 & -> & _)];
    simpl; lia.
Qed.

(** The same for the pattern of [aim_formatter], whose words carry the
    colon. *)
Lemma formatter_room_at_marker (prev : option ascii) (w sep X rest : text) :
  room_word w = true ->
  forallb is_space sep = true ->
  X <> [] -> forallb is_alnum X = true ->
  stops is_alnum rest = true ->
  mtch true aim_formatter.room_pattern prev (w ++ ":"%char :: sep ++ X ++ rest) [] accept
  = Some [(1, X)].
Proof.
  intros Hw Hsep HX Hal Hrest.
  change aim_formatter.room_pattern
    with (Cat (Alt (lit (txt "Room:")) (lit (txt "Rm:"))) token_tail).
  rewrite mtch_cat, mtch_alt, !mtch_lit.
  destruct (room_word_cases _ Hw) as [(c1 & c2 & c3 & c4 & -> & H1 & H2 & H3 & H4)
                                     |(c1 & c2 & -> & H1 & H2)].
  - lit_chars. rewrite H1, H2, H3, H4.
    change (ascii_eqb (to_lower "R") "r") with true.
    change (ascii_eqb (to_lower "o") "o") with true.
    change (ascii_eqb (to_lower "m") "m") with true.
    change (ascii_eqb (to_lower ":") (to_lower ":")) with true.
    cbn [andb]. now rewrite token_tail_match.
  - lit_chars. rewrite H1, H2.
    change (ascii_eqb (to_lower "R") "r") with true.
    change (ascii_eqb (to_lower "o") "m") with false.
    change (ascii_eqb (to_lower "m") "m") with true.
    change (ascii_eqb (to_lower ":") (to_lower ":")) with true.
    cbn [andb]. now rewrite token_tail_match.
Qed.

(** Stripping the description leaves the marker and the token in place. *)
Lemma strip_around (pre w sep X rest : text) :
  room_word w = true -> X <> [] -> forallb is_alnum X = true ->
  strip (pre ++ w ++ ":"%char :: sep ++ X ++ rest)
  = lstrip pre ++ w ++ ":"%char :: sep ++ X ++ rstrip rest.
Proof.
  intros Hw HX Hal.
  assert (Hc : exists c1 w', w = c1 :: w' /\ is_space c1 = false).
  { destruct (room_word_cases _ Hw) as [(c1 & c2 & c3 & c4 & -> & H1 & _)
                                       |(c1 & c2 & -> & H1 & _)];
      eexists _, _; split; try reflexivity; now apply lower_r_not_space. }
  destruct Hc as (c1 & w' & -> & Hc1).
  destruct (exists_last HX) as (X' & xl & ->).
  assert (Hxl : is_space xl = false).
  { apply alnum_not_space. rewrite forallb_forall in Hal. apply Hal.
    apply in_or_app. right. now left. }
  unfold strip. cbn [app]. rewrite lstrip_app by assumption.
  replace (lstrip pre ++ c1 :: w' ++ ":"%char :: sep ++ (X' ++ [xl]) ++ rest)
    with ((lstrip pre ++ c1 :: w' ++ ":"%char :: sep ++ X') ++ xl :: rest).
  - rewrite rstrip_app by assumption.
    repeat (rewrite <- ?app_assoc; cbn [app]). reflexivity.
  - repeat (rewrite <- ?app_assoc; cbn [app]). reflexivity.
Qed.

Lemma rstrip_prefix (s : text) : exists ws, s = rstrip s ++ ws.
Proof.
  destruct (lstrip_suffix (rev s)) as [ws E]. exists (rev ws).
  unfold rstrip. rewrite <- rev_app_distr, <- E. now rewrite rev_involutive.
Qed.

Lemma rstrip_stops (p : ascii -> bool) (rest : text) :
  stops p rest = true -> stops p (rstrip rest) = true.
Proof.
  destruct (rstrip_prefix rest) as [ws E]. revert E.
  destruct (rstrip rest) as [|c r]; [reflexivity|].
  intros -> H. exact H.
Qed.

Lemma room_patterns_eq :
  exists r2, room_patterns = [automation_room_marker; r2].
Proof. eexists. reflexivity. Qed.

Lemma room_word_nonempty (w t : text) :
  room_word w = true -> is_empty (w ++ t) = false.
Proof.
  intros H. pose proof (room_word_length _ H). now destruct w.
Qed.

Lemma is_empty_app_r (a b : text) : is_empty b = false -> is_empty (a ++ b) = false.
Proof. destruct a; simpl; auto. Qed.

Lemma sep_not_space (c : ascii) :
  cset_mem true sep_set c = true -> is_space c = false.
Proof. destruct c as [[] [] [] [] [] [] [] []]; vm_compute; congruence. Qed.

Lemma alnum_not_sep (c : ascii) :
  is_alnum c = true -> cset_mem true sep_set c = false.
Proof. destruct c as [[] [] [] [] [] [] [] []]; vm_compute; congruence. Qed.

Lemma token_follows_run (m : text) (a : ascii) (t : text) :
  forallb is_space m = true -> is_alnum a = true ->
  token_follows (m ++ a :: t) = true.
Proof.
  intros Hm Ha. unfold token_follows. rewrite lstrip_run by assumption.
  cbn [lstrip]. now rewrite (alnum_not_space _ Ha).
Qed.

(** Where the end of a room pattern matches, a token follows. *)
Lemma token_tail_follows (A : Type) (prev : option ascii) (t : text) (g : captures)
  (k : option ascii -> text -> captures -> option A) (x : A) :
  mtch true token_tail prev t g k = Some x -> token_follows t = true.
Proof.
  unfold token_tail, star, plus. rewrite mtch_cat, mtch_rep. intros H.
  apply rep_greedy_sound in H as (p1 & m & t1 & -> & Hm & H).
  rewrite mtch_group, mtch_rep in H.
  apply rep_greedy_one_head in H as (c & t2 & -> & Hc).
  rewrite alnum_set_mem in Hc. now apply token_follows_run.
Qed.

Lemma token_follows_sep_run (m t : text) :
  forallb is_space m = true -> token_follows_sep (m ++ t) = token_follows_sep t.
Proof. intros H. unfold token_follows_sep. now rewrite lstrip_run. Qed.

Lemma automation_tail_follows (A : Type) (prev : option ascii) (t : text)
  (g : captures) (k : option ascii -> text -> captures -> option A) (x : A) :
  mtch true (Cat (star CSpace) (Cat (opt sep_set) token_tail)) prev t g k = Some x ->
  token_follows_sep t = true.
Proof.
  unfold star, opt. rewrite mtch_cat, mtch_rep. intros H.
  apply rep_greedy_sound in H as (p1 & m & t1 & -> & Hm & H).
  rewrite token_follows_sep_run by exact Hm.
  rewrite mtch_cat, mtch_rep in H.
  apply rep_greedy_opt_sound in H as [H | (c & t2 & -> & Hc & H)].
  - apply token_tail_follows in H. unfold token_follows in H.
    unfold token_follows_sep.
    destruct (lstrip t1) as [|a u]; [discriminate|]. now rewrite (alnum_not_sep _ H).
  - apply token_tail_follows in H. unfold token_follows_sep. cbn [lstrip].
    now rewrite (sep_not_space _ Hc), Hc.
Qed.

(** Where [automation_room_start] fails, the room pattern of
    [aim_report_automation] does not match. *)
Lemma automation_room_no_match (prev : option ascii) (s : text) :
  automation_room_start s = false ->
  mtch true automation_room_marker prev s [] accept = None.
Proof.
  unfold automation_room_start, automation_room_marker. intros H.
  apply orb_false_iff in H as [H1 H2].
  assert (K : forall n p, token_follows_sep (skipn n s) = false ->
            mtch true (Cat (star CSpace) (Cat (opt sep_set) token_tail)) p
                 (skipn n s) [] accept = None).
  { intros n p Hn.
    destruct (mtch true (Cat (star CSpace) (Cat (opt sep_set) token_tail)) p
                   (skipn n s) [] accept) as [x|] eqn:E; [|reflexivity].
    apply automation_tail_follows in E. congruence. }
  rewrite mtch_cat, mtch_alt, !mtch_lit. cbv beta.
  change (length (txt "room")) with 4. change (length (txt "rm")) with 2.
  destruct (starts_lit true (txt "room") s); cbn [andb] in H1;
    destruct (starts_lit true (txt "rm") s); cbn [andb] in H2;
    rewrite ?(K 4 _ H1), ?(K 2 _ H2); reflexivity.
Qed.

Lemma starts_lit_colon (s : text) :
  starts_lit true (txt "Room:") s = starts_lit true (txt "room:") s /\
  starts_lit true (txt "Rm:") s = starts_lit true (txt "rm:") s.
Proof. destruct s as [|c1 [|c2 [|c3 [|c4 [|c5 s]]]]]; split; reflexivity. Qed.

(** The same for the room pattern of [aim_formatter]. *)
Lemma formatter_room_no_match (prev : option ascii) (s : text) :
  formatter_room_start s = false ->
  mtch true aim_formatter.room_pattern prev s [] accept = None.
Proof.
  unfold formatter_room_start. intros H. apply orb_false_iff in H as [H1 H2].
  change aim_formatter.room_pattern
    with (Cat (Alt (lit (txt "Room:")) (lit (txt "Rm:"))) token_tail).
  assert (K : forall n p, token_follows (skipn n s) = false ->
            mtch true token_tail p (skipn n s) [] accept = None).
  { intros n p Hn.
    destruct (mtch true token_tail p (skipn n s) [] accept) as [x|] eqn:E;
      [|reflexivity].
    apply token_tail_follows in E. congruence. }
  rewrite mtch_cat, mtch_alt, !mtch_lit. cbv beta.
  destruct (starts_lit_colon s) as [E1 E2]. rewrite E1, E2.
  change (length (txt "Room:")) with 5. change (length (txt "Rm:")) with 3.
  destruct (starts_lit true (txt "room:") s); cbn [andb] in H1;
    destruct (starts_lit true (txt "rm:") s); cbn [andb] in H2;
    rewrite ?(K 5 _ H1), ?(K 3 _ H2); reflexivity.
Qed.

Lemma lstrip_split (s : text) :
  exists ws, s = ws ++ lstrip s /\ forallb is_space ws = true.
Proof.
  induction s as [|x s (ws & E & H)]; cbn [lstrip].
  - now exists [].
  - destruct (is_space x) eqn:Ex.
    + exists (x :: ws). cbn [app forallb]. rewrite Ex. split; [now f_equal | exact H].
    + now exists [].
Qed.

Lemma rep_greedy_opt_skip (A : Type) (p : ascii -> bool) (prev : option ascii)
  (c : ascii) (s : text) (k : option ascii -> text -> option A) :
  p c = false -> rep_greedy p 0 (Some 1) prev (c :: s) k = k prev (c :: s).
Proof. intros H. cbn [rep_greedy]. now rewrite H. Qed.

(** Where a token follows, the end of a room pattern matches. *)
Lemma token_tail_start (prev : option ascii) (s : text) :
  token_follows s = true ->
  exists X, mtch true token_tail prev s [] accept = Some [(1, X)].
Proof.
  unfold token_follows. intros H. destruct (lstrip_split s) as (ws & E & Hws).
  destruct (lstrip s) as [|a u] eqn:El; [discriminate|].
  destruct (span_run is_alnum (a :: u)) as (X & rest & EX & HX & Hrest).
  assert (HXne : X <> []).
  { destruct X; [|discriminate]. cbn [app] in EX. subst rest.
    cbn [stops] in Hrest. rewrite H in Hrest. discriminate. }
  exists X. rewrite E, EX. now apply token_tail_match.
Qed.

Lemma automation_tail_start (prev : option ascii) (s : text) :
  token_follows_sep s = true ->
  exists X,
    mtch true (Cat (star CSpace) (Cat (opt sep_set) token_tail)) prev s [] accept
    = Some [(1, X)].
Proof.
  unfold token_follows_sep. intros H. destruct (lstrip_split s) as (ws & E & Hws).
  destruct (lstrip s) as [|c t] eqn:El; [discriminate|].
  destruct (cset_mem true sep_set c) eqn:Hc.
  - destruct (token_tail_start (Some c) t H) as [X HX]. exists X.
    rewrite E. unfold star, opt. rewrite mtch_cat, mtch_rep.
    apply rep_greedy_run;
      [exact Hws | cbn [stops cset_mem]; now rewrite (sep_not_space _ Hc) | cbn; lia |].
    cbv beta. rewrite mtch_cat, mtch_rep.
    apply rep_greedy_opt_take; [exact Hc | exact HX].
  - destruct (token_tail_start (last_opt prev ws) (c :: t)) as [X HX].
    { unfold token_follows. cbn [lstrip]. now rewrite (alnum_not_space _ H). }
    exists X. rewrite E. unfold star, opt. rewrite mtch_cat, mtch_rep.
    apply rep_greedy_run;
      [exact Hws | cbn [stops cset_mem]; now rewrite (alnum_not_space _ H) | cbn; lia |].
    cbv beta. rewrite mtch_cat, mtch_rep.
    rewrite rep_greedy_opt_skip by exact Hc. exact HX.
Qed.

Lemma starts_rm_not_room (w w' s : text) (a b : ascii) :
  to_lower a <> to_lower b ->
  starts_lit true ("r"%char :: a :: w) s = true ->
  starts_lit true ("r"%char :: b :: w') s = false.
Proof.
  intros Hab. destruct s as [|c1 [|c2 s]]; cbn [starts_lit];
    rewrite ?andb_false_r; try discriminate.
  rewrite !andb_true_iff. intros (_ & H2 & _).
  destruct (lit_eq true b c2) eqn:Hb; [|now rewrite andb_false_r].
  unfold lit_eq in H2, Hb. apply ascii_eqb_eq in H2, Hb. congruence.
Qed.

(** [automation_room_start] holds exactly where the room pattern of
    [aim_report_automation] matches. *)
Lemma automation_room_start_match (prev : option ascii) (s : text) :
  automation_room_start s = true <->
  exists X, mtch true automation_room_marker prev s [] accept = Some [(1, X)].
Proof.
  split.
  - unfold automation_room_start, automation_room_marker.
    rewrite orb_true_iff, !andb_true_iff.
    intros [[H1 H2]|[H1 H2]]; rewrite mtch_cat, mtch_alt, !mtch_lit; cbv beta.
    + rewrite H1.
      destruct (automation_tail_start
                  (last_opt prev (firstn (length (txt "room")) s)) _ H2) as [X HX].
      exists X. change (length (txt "room")) with 4 in *. now rewrite HX.
    + assert (N : starts_lit true (txt "room") s = false)
        by exact (starts_rm_not_room [] (txt "om") s "m" "o" ltac:(discriminate) H1).
      rewrite N, H1.
      destruct (automation_tail_start
                  (last_opt prev (firstn (length (txt "rm")) s)) _ H2) as [X HX].
      exists X. exact HX.
  - intros [X H]. destruct (automation_room_start s) eqn:E; [reflexivity|].
    rewrite (automation_room_no_match prev s E) in H. discriminate.
Qed.

(** The same for [formatter_room_start] and the room pattern of
    [aim_formatter]. *)
Lemma formatter_room_start_match (prev : option ascii) (s : text) :
  formatter_room_start s = true <->
  exists X, mtch true aim_formatter.room_pattern prev s [] accept = Some [(1, X)].
Proof.
  split.
  - unfold formatter_room_start.
    change aim_formatter.room_pattern
      with (Cat (Alt (lit (txt "Room:")) (lit (txt "Rm:"))) token_tail).
    rewrite orb_true_iff, !andb_true_iff.
    destruct (starts_lit_colon s) as [E1 E2].
    intros [[H1 H2]|[H1 H2]]; rewrite mtch_cat, mtch_alt, !mtch_lit; cbv beta;
      rewrite E1, E2.
    + rewrite H1.
      destruct (token_tail_start
                  (last_opt prev (firstn (length (txt "Room:")) s)) _ H2) as [X HX].
      exists X. change (length (txt "Room:")) with 5 in *. now rewrite HX.
    + assert (N : starts_lit true (txt "room:") s = false)
        by exact (starts_rm_not_room (txt ":") (txt "om:") s "m" "o"
                    ltac:(discriminate) H1).
      rewrite N, H1.
      destruct (token_tail_start
                  (last_opt prev (firstn (length (txt "Rm:")) s)) _ H2) as [X HX].
      exists X. exact HX.
  - intros [X H]. destruct (formatter_room_start s) eqn:E; [reflexivity|].
    rewrite (formatter_room_no_match prev s E) in H. discriminate.
Qed.

(** The search passes the positions at which the pattern cannot start. *)
Lemma search_none_before (r : regex) (start : text -> bool) :
  (forall prev s, start s = false -> mtch true r prev s [] accept = None) ->
  forall pre prev s,
    none_before start (length pre) (pre ++ s) = true ->
    search_from true r prev (pre ++ s) = search_from true r (last_opt prev pre) s.
Proof.
  intros Hno. induction pre as [|c pre IH]; intros prev s H; [reflexivity|].
  cbn [length app none_before] in H. apply andb_true_iff in H as [H1 H2].
  apply negb_true_iff in H1.
  rewrite search_from_eq. cbn [app]. rewrite (Hno prev _ H1).
  rewrite IH by exact H2. now rewrite last_opt_cons.
Qed.

Lemma none_before_drop (start : text -> bool) (a b t : text) :
  none_before start (length (a ++ b)) ((a ++ b) ++ t) = true ->
  none_before start (length b) (b ++ t) = true.
Proof.
  induction a as [|x a IH]; [auto|].
  cbn [app length none_before]. rewrite andb_true_iff. intros [_ H]. auto.
Qed.

Lemma none_before_shorten (start : text -> bool) :
  (forall s t, start s = true -> start (s ++ t) = true) ->
  forall n u t, none_before start n (u ++ t) = true -> none_before start n u = true.
Proof.
  intros Hm. induction n as [|n IH]; intros u t H; [reflexivity|].
  cbn [none_before] in *. apply andb_true_iff in H as [H1 H2].
  apply andb_true_iff. split.
  - apply negb_true_iff in H1. apply negb_true_iff.
    destruct (start u) eqn:E; [|reflexivity].
    rewrite (Hm _ t E) in H1. discriminate.
  - destruct u as [|c u]; [reflexivity|]. cbn [app] in H2. exact (IH _ _ H2).
Qed.

(** Stripping the description opens no earlier start. *)
Lemma none_before_strip (start : text -> bool) (pre u ws : text) :
  (forall s t, start s = true -> start (s ++ t) = true) ->
  none_before start (length pre) (pre ++ u ++ ws) = true ->
  none_before start (length (lstrip pre)) (lstrip pre ++ u) = true.
Proof.
  intros Hm H. destruct (lstrip_suffix pre) as [sp E].
  rewrite E in H at 1 2. apply none_before_drop in H.
  rewrite app_assoc in H. exact (none_before_shorten start Hm _ _ _ H).
Qed.

Lemma starts_lit_length (ic : bool) (w s : text) :
  starts_lit ic w s = true -> length w <= length s.
Proof.
  revert s. induction w as [|p w IH]; intros [|c s]; cbn [starts_lit length];
    try discriminate; try lia.
  rewrite andb_true_iff. intros [_ H]. apply IH in H. lia.
Qed.

Lemma starts_lit_mono (ic : bool) (w s t : text) :
  starts_lit ic w s = true -> starts_lit ic w (s ++ t) = true.
Proof.
  intros H. rewrite starts_lit_ext; [exact H | exact (starts_lit_length ic w s H)].
Qed.

Lemma skipn_app_short (n : nat) (s t : text) :
  n <= length s -> skipn n (s ++ t) = skipn n s ++ t.
Proof.
  intros H. rewrite skipn_app. replace (n - length s) with 0 by lia. reflexivity.
Qed.

Lemma token_follows_mono (s t : text) :
  token_follows s = true -> token_follows (s ++ t) = true.
Proof.
  unfold token_follows. destruct (lstrip s) as [|c u] eqn:E; [discriminate|].
  now rewrite (lstrip_head_app s t c u E).
Qed.

Lemma token_follows_sep_mono (s t : text) :
  token_follows_sep s = true -> token_follows_sep (s ++ t) = true.
Proof.
  unfold token_follows_sep. destruct (lstrip s) as [|c u] eqn:E; [discriminate|].
  rewrite (lstrip_head_app s t c u E).
  destruct (cset_mem true sep_set c); [apply token_follows_mono | auto].
Qed.

Lemma automation_room_start_mono (s t : text) :
  automation_room_start s = true -> automation_room_start (s ++ t) = true.
Proof.
  unfold automation_room_start. rewrite !orb_true_iff, !andb_true_iff.
  intros [[H1 H2]|[H1 H2]]; [left|right];
    (split; [now apply starts_lit_mono|]);
    pose proof (starts_lit_length _ _ _ H1) as L;
    rewrite skipn_app_short by exact L;
    now apply token_follows_sep_mono.
Qed.

Lemma formatter_room_start_mono (s t : text) :
  formatter_room_start s = true -> formatter_room_start (s ++ t) = true.
Proof.
  unfold formatter_room_start. rewrite !orb_true_iff, !andb_true_iff.
  intros [[H1 H2]|[H1 H2]]; [left|right];
    (split; [now apply starts_lit_mono|]);
    pose proof (starts_lit_length _ _ _ H1) as L;
    rewrite skipn_app_short by exact L;
    now apply token_follows_mono.
Qed.

Lemma automation_room_search (pre w sep X rest : text) :
  room_word w = true ->
  forallb is_space sep = true ->
  X <> [] -> forallb is_alnum X = true ->
  stops is_alnum rest = true ->
  none_before automation_room_start (length pre)
    (pre ++ w ++ ":"%char :: sep ++ X ++ rest) = true ->
  re_search true automation_room_marker (pre ++ w ++ ":"%char :: sep ++ X ++ rest)
  = Some [(1, X)].
Proof.
  intros Hw Hsep HX Hal Hrest Hpre. unfold re_search.
  rewrite (search_none_before _ _ automation_room_no_match) by assumption.
  rewrite search_from_eq. now rewrite automation_room_at_marker.
Qed.

Lemma formatter_room_search (pre w sep X rest : text) :
  room_word w = true ->
  forallb is_space sep = true ->
  X <> [] -> forallb is_alnum X = true ->
  stops is_alnum rest = true ->
  none_before formatter_room_start (length pre)
    (pre ++ w ++ ":"%char :: sep ++ X ++ rest) = true ->
  re_search true aim_formatter.room_pattern (pre ++ w ++ ":"%char :: sep ++ X ++ rest)
  = Some [(1, X)].
Proof.
  intros Hw Hsep HX Hal Hrest Hpre. unfold re_search.
  rewrite (search_none_before _ _ formatter_room_no_match) by assumption.
  rewrite search_from_eq. now rewrite formatter_room_at_marker.
Qed.

(** C1 (as amended).  Take an ASCII description with an explicit marker:
    the word room or rm in any case, a colon, optional white space and a
    token X of letters and digits that no further letter or digit
    continues.  Each extractor returns room = X when its room pattern can
    start at no earlier position: for [aim_report_automation] none where
    the letters room or rm, even inside a longer word, are followed by
    optional white space, at most one colon or hyphen, optional white
    space and a letter or digit; for [aim_formatter] none where the
    letters room or rm and a colon are followed by optional white space
    and a letter or digit.  Digits that stand elsewhere play no part. *)
Theorem explicit_room_marker_first (pre w sep X rest : text) :
  let d := pre ++ w ++ txt ":" ++ sep ++ X ++ rest in
  forallb is_ascii d = true ->
  room_word w = true ->
  forallb is_space sep = true ->
  X <> [] -> forallb is_alnum X = true ->
  stops is_alnum rest = true ->
  (none_before automation_room_start (length pre) d = true ->
   snd (_extract_floor_room (Str d)) = X) /\
  (none_before formatter_room_start (length pre) d = true ->
   snd (aim_formatter.extract_floor_room (Str d)) = X).
Proof.
  intros d _ Hw Hsep HX Hal Hrest. subst d.
  change (txt ":" ++ sep ++ X ++ rest) with (":"%char :: sep ++ X ++ rest).
  assert (Hne : is_empty (lstrip pre ++ w ++ ":"%char :: sep ++ X ++ rstrip rest) = false).
  { apply is_empty_app_r. now apply room_word_nonempty. }
  destruct (rstrip_prefix rest) as [ws E].
  assert (Hd : pre ++ w ++ ":"%char :: sep ++ X ++ rest
               = pre ++ (w ++ ":"%char :: sep ++ X ++ rstrip rest) ++ ws).
  { rewrite E at 1. repeat (rewrite <- ?app_assoc; cbn [app]). reflexivity. }
  apply (rstrip_stops is_alnum) in Hrest.
  split; intros Hpre; rewrite Hd in Hpre.
  - apply (none_before_strip _ _ _ _ automation_room_start_mono) in Hpre.
    unfold _extract_floor_room. rewrite strip_around by assumption.
    rewrite Hne. cbv zeta. cbn [snd].
    destruct room_patterns_eq as [r2 ->]. cbn [first_match].
    now rewrite automation_room_search.
  - apply (none_before_strip _ _ _ _ formatter_room_start_mono) in Hpre.
    unfold aim_formatter.extract_floor_room.
    rewrite is_empty_app_r by now apply room_word_nonempty.
    rewrite strip_around by assumption. cbv zeta. cbn [snd].
    unfold aim_formatter.search_group1.
    rewrite formatter_room_search by assumption.
    cbn [group Nat.eqb]. now apply strip_alnum.
Qed.

Lemma explicit_room_marker_first_witness :
  (snd (_extract_floor_room (Str (txt "Unit 1204, Room: 204 (see 1204)"))) = txt "204" /\
   snd (aim_formatter.extract_floor_room
          (Str (txt "Unit 1204, Room: 204 (see 1204)"))) = txt "204") /\
  snd (_extract_floor_room (Str (txt "Storeroom. Room: 204"))) = txt "204" /\
  snd (aim_formatter.extract_floor_room (Str (txt "Restroom Room: 204"))) = txt "204".
Proof.
  split; [|split].
  - destruct (explicit_room_marker_first
                (txt "Unit 1204, ") (txt "Room") (txt " ") (txt "204")
                (txt " (see 1204)")) as [HA HB];
      [reflexivity | reflexivity | reflexivity | discriminate
      | reflexivity | reflexivity |].
    split; [apply HA | apply HB]; reflexivity.
  - destruct (explicit_room_marker_first
                (txt "Storeroom. ") (txt "Room") (txt " ") (txt "204") [])
      as [HA _];
      [reflexivity | reflexivity | reflexivity | discriminate
      | reflexivity | reflexivity |].
    apply HA. reflexivity.
  - destruct (explicit_room_marker_first
                (txt "Restroom ") (txt "Room") (txt " ") (txt "204") [])
      as [_ HB];
      [reflexivity | reflexivity | reflexivity | discriminate
      | reflexivity | reflexivity |].
    apply HB. reflexivity.
Defined.

(** C1 as stated fails: the letters room inside Restroom, followed by a
    blank and a letter, start the match of [aim_report_automation], and of
    two markers [aim_formatter] takes the first. *)
Lemma explicit_room_marker_counterexample :
  (has_room_marker (txt "Restroom Room: 204") (txt "204") /\
   snd (_extract_floor_room (Str (txt "Restroom Room: 204"))) = txt "Room" /\
   txt "Room" <> txt "204") /\
  (has_room_marker (txt "Rm: 1 Room: 204") (txt "204") /\
   snd (aim_formatter.extract_floor_room (Str (txt "Rm: 1 Room: 204"))) = txt "1" /\
   txt "1" <> txt "204").
Proof.
  split; (split; [|split; [vm_compute; reflexivity | discriminate]]).
  - exists (txt "Restroom "), (txt "Room"), (txt " "), [].
    repeat split; try reflexivity. discriminate.
  - exists (txt "Rm: 1 "), (txt "Room"), (txt " "), [].
    repeat split; try reflexivity. discriminate.
Qed.

(** ** The floor derived from the room *)

Lemma high_rise_cases (room : text) :
  high_rise room = true ->
  exists c rest, room = "1"%char :: c :: rest /\
    (c = "0"%char \/ c = "1"%char \/ c = "2"%char).
Proof.
  unfold high_rise, mem_text. cbn [existsb].
  rewrite !orb_true_iff, !text_eqb_eq.
  destruct room as [|c1 [|c2 rest]]; cbn [firstn];
    intros [H|[H|[H|H]]]; try discriminate; inversion H; subst;
    eexists _, _; split; try reflexivity; auto.
Qed.

Lemma automation_normalize_digit (c : ascii) :
  is_digit c = true -> normalize_floor [c] = digit_floor c.
Proof.
  destruct c as [[] [] [] [] [] [] [] []]; intro H; try discriminate H;
    vm_compute; reflexivity.
Qed.

Lemma formatter_normalize_digit (c : ascii) :
  is_digit c = true ->
  aim_formatter.normalize_floor (aim_formatter.mapping_get c) = digit_floor c.
Proof.
  destruct c as [[] [] [] [] [] [] [] []]; intro H; try discriminate H;
    vm_compute; reflexivity.
Qed.

Lemma automation_extract_eq (d : text) :
  is_empty (strip d) = false ->
  _extract_floor_room (Str d) =
  (normalize_floor
     (floor_fallback (first_match true floor_patterns (strip d))
                     (first_match true room_patterns (strip d))),
   first_match true room_patterns (strip d)).
Proof. intros H. unfold _extract_floor_room. now rewrite H. Qed.

Lemma formatter_extract_eq (d : text) :
  is_empty d = false ->
  aim_formatter.extract_floor_room (Str d) =
  (aim_formatter.normalize_floor
     (aim_formatter.floor_fallback
        (aim_formatter.search_group1 aim_formatter.floor_pattern (strip d))
        (aim_formatter.search_group1 aim_formatter.room_pattern (strip d))),
   aim_formatter.search_group1 aim_formatter.room_pattern (strip d)).
Proof. intros H. unfold aim_formatter.extract_floor_room. now rewrite H. Qed.

Lemma automation_fallback_high_rise (room : text) :
  high_rise room = true ->
  normalize_floor (floor_fallback [] room) = firstn 2 room.
Proof.
  intros H. destruct (high_rise_cases _ H) as (c & rest & -> & [ -> | [ -> | -> ] ]);
    reflexivity.
Qed.

Lemma automation_fallback_digit (room : text) (c : ascii) :
  high_rise room = false -> hd_error room = Some c -> is_digit c = true ->
  normalize_floor (floor_fallback [] room) = digit_floor c.
Proof.
  intros H Hhd Hc. destruct room as [|c' rest]; [discriminate|].
  inversion Hhd; subst c'. rewrite <- (automation_normalize_digit _ Hc).
  f_equal. unfold floor_fallback. cbn [is_empty negb andb].
  fold (high_rise (c :: rest)). rewrite H.
  destruct ((2 <=? length (c :: rest)) && isdigit (firstn 2 (c :: rest)));
    [reflexivity|].
  cbn [firstn isdigit forallb]. now rewrite Hc.
Qed.

Lemma formatter_fallback_high_rise (room : text) :
  high_rise room = true -> 4 <= length room ->
  aim_formatter.normalize_floor (aim_formatter.floor_fallback [] room)
  = firstn 2 room.
Proof.
  intros H Hlen. apply Nat.leb_le in Hlen.
  destruct (high_rise_cases _ H) as (c & rest & -> & [ -> | [ -> | -> ] ]);
    unfold aim_formatter.floor_fallback; rewrite Hlen; reflexivity.
Qed.

Lemma formatter_fallback_digit (room : text) (c : ascii) :
  high_rise room && (4 <=? length room) = false ->
  hd_error room = Some c -> is_digit c = true ->
  aim_formatter.normalize_floor (aim_formatter.floor_fallback [] room)
  = digit_floor c.
Proof.
  intros H Hhd Hc. destruct room as [|c' rest]; [discriminate|].
  inversion Hhd; subst c'. rewrite <- (formatter_normalize_digit _ Hc).
  f_equal. unfold aim_formatter.floor_fallback. cbn [is_empty negb andb].
  fold (high_rise (c :: rest)).
  replace ((4 <=? length (c :: rest)) && isdigit (firstn 2 (c :: rest))
           && high_rise (c :: rest)) with false; [reflexivity|].
  symmetry. apply andb_false_iff in H as [H|H]; rewrite H;
    [apply andb_false_r | reflexivity].
Qed.

Lemma automation_room_nonempty (d room : text) :
  room <> [] -> snd (_extract_floor_room (Str d)) = room ->
  is_empty (strip d) = false.
Proof.
  intros Hr H. unfold _extract_floor_room in H.
  destruct (is_empty (strip d)); [|reflexivity].
  simpl in H. congruence.
Qed.

Lemma formatter_room_nonempty (d room : text) :
  room <> [] -> snd (aim_formatter.extract_floor_room (Str d)) = room ->
  is_empty d = false.
Proof.
  intros Hr H. unfold aim_formatter.extract_floor_room in H.
  destruct (is_empty d); [|reflexivity].
  simpl in H. congruence.
Qed.

(** C2 (as amended).  For a description without explicit floor marker and
    with extracted room [room]:
    - in [aim_report_automation], a room that starts with 10, 11 or 12
      gives these two characters as floor; any other room that starts with
      a digit gives that digit, the digit 0 being written B;
    - in [aim_formatter] the two-character rule applies to rooms of four or
      more characters only, every other room that starts with a digit gives
      that digit, 0 again written B. *)
Theorem floor_from_room (d room : text) :
  room <> [] ->
  (first_match true floor_patterns (strip d) = [] ->
   snd (_extract_floor_room (Str d)) = room ->
   (high_rise room = true ->
    fst (_extract_floor_room (Str d)) = firstn 2 room) /\
   (high_rise room = false ->
    forall c, hd_error room = Some c -> is_digit c = true ->
    fst (_extract_floor_room (Str d)) = digit_floor c)) /\
  (aim_formatter.search_group1 aim_formatter.floor_pattern (strip d) = [] ->
   snd (aim_formatter.extract_floor_room (Str d)) = room ->
   (high_rise room = true -> 4 <= length room ->
    fst (aim_formatter.extract_floor_room (Str d)) = firstn 2 room) /\
   (high_rise room && (4 <=? length room) = false ->
    forall c, hd_error room = Some c -> is_digit c = true ->
    fst (aim_formatter.extract_floor_room (Str d)) = digit_floor c)).
Proof.
  intros Hr. split.
  - intros Hf Hroom.
    pose proof (automation_room_nonempty d room Hr Hroom) as Hne.
    rewrite (automation_extract_eq d Hne) in *. cbn [fst snd] in *.
    rewrite Hf, Hroom. split.
    + apply automation_fallback_high_rise.
    + intros H c. now apply automation_fallback_digit.
  - intros Hf Hroom.
    pose proof (formatter_room_nonempty d room Hr Hroom) as Hne.
    rewrite (formatter_extract_eq d Hne) in *. cbn [fst snd] in *.
    rewrite Hf, Hroom. split.
    + apply formatter_fallback_high_rise.
    + intros H c. now apply formatter_fallback_digit.
Qed.

Lemma floor_from_room_witness :
  (fst (_extract_floor_room (Str (txt "Room: 1104"))) = txt "11" /\
   fst (aim_formatter.extract_floor_room (Str (txt "Room: 1104"))) = txt "11") /\
  (fst (_extract_floor_room (Str (txt "Room: 204"))) = txt "2" /\
   fst (aim_formatter.extract_floor_room (Str (txt "Room: 204"))) = txt "2").
Proof.
  split.
  - assert (Hr : txt "1104" <> []) by discriminate.
    destruct (floor_from_room (txt "Room: 1104") (txt "1104") Hr) as [HA HB].
    destruct (HA eq_refl eq_refl) as [HA1 _].
    destruct (HB eq_refl eq_refl) as [HB1 _].
    split; [exact (HA1 eq_refl) | apply (HB1 eq_refl); simpl; lia].
  - assert (Hr : txt "204" <> []) by discriminate.
    destruct (floor_from_room (txt "Room: 204") (txt "204") Hr) as [HA HB].
    destruct (HA eq_refl eq_refl) as [_ HA2].
    destruct (HB eq_refl eq_refl) as [_ HB2].
    split;
      [exact (HA2 eq_refl "2"%char eq_refl eq_refl)
      |exact (HB2 eq_refl "2"%char eq_refl eq_refl)].
Defined.

(** C2 as stated fails: a leading 0 gives floor B, not 0, in both modules,
    and [aim_formatter] gives room 101 the floor 1, not 10. *)
Lemma floor_from_room_counterexample :
  (first_match true floor_patterns (strip (txt "Room: 012")) = [] /\
   snd (_extract_floor_room (Str (txt "Room: 012"))) = txt "012" /\
   fst (_extract_floor_room (Str (txt "Room: 012"))) = txt "B" /\
   fst (aim_formatter.extract_floor_room (Str (txt "Room: 012"))) = txt "B" /\
   txt "B" <> txt "0") /\
  (aim_formatter.search_group1 aim_formatter.floor_pattern (strip (txt "Room: 101")) = [] /\
   snd (aim_formatter.extract_floor_room (Str (txt "Room: 101"))) = txt "101" /\
   fst (aim_formatter.extract_floor_room (Str (txt "Room: 101"))) = txt "1" /\
   txt "1" <> txt "10").
Proof.
  repeat split; try (vm_compute; reflexivity); discriminate.
Qed.

(** ** The four descriptions of the end-to-end scenario *)

(** C3 (as amended).  On the four descriptions [aim_report_automation]
    yields the floors 2, 11, hallway and the empty floor, and
    [aim_formatter] yields 2, 11 and twice the empty floor. *)
Theorem scenario_floors :
  map (fun d => fst (_extract_floor_room (Str d))) scenario
    = [txt "2"; txt "11"; txt "hallway"; txt ""] /\
  map (fun d => fst (aim_formatter.extract_floor_room (Str d))) scenario
    = [txt "2"; txt "11"; txt ""; txt ""].
Proof. split; vm_compute; reflexivity. Qed.

(** C3 as stated fails: no module yields the floors 2, 11, empty, B. *)
Lemma scenario_floors_counterexample :
  map (fun d => fst (_extract_floor_room (Str d))) scenario
    <> [txt "2"; txt "11"; txt ""; txt "B"] /\
  map (fun d => fst (aim_formatter.extract_floor_room (Str d))) scenario
    <> [txt "2"; txt "11"; txt ""; txt "B"].
Proof. split; vm_compute; discriminate. Qed.

(** ** Order of the rank tuples *)

Lemma code_inj (a b : ascii) : code a = code b -> a = b.
Proof. intros H. apply ascii_eqb_eq. unfold ascii_eqb. now rewrite H, Nat.eqb_refl. Qed.

Lemma text_compare_eq (a b : text) : text_compare a b = Eq <-> a = b.
Proof.
  revert b. induction a as [|x a IH]; intros [|y b]; simpl; try easy.
  destruct (Nat.compare (code x) (code y)) eqn:E.
  - apply Nat.compare_eq_iff, code_inj in E. subst y. rewrite IH.
    split; [now intros -> | intros H; now inversion H].
  - split; [easy|]. intros H. inversion H; subst.
    rewrite Nat.compare_refl in E. discriminate.
  - split; [easy|]. intros H. inversion H; subst.
    rewrite Nat.compare_refl in E. discriminate.
Qed.

Lemma pyval_compare_eq (a b : pyval) : pyval_compare a b = Eq <-> a = b.
Proof.
  destruct a as [x|x], b as [y|y]; simpl; try easy.
  - rewrite Z.compare_eq_iff. split; [now intros -> | intros H; now inversion H].
  - rewrite text_compare_eq. split; [now intros -> | intros H; now inversion H].
Qed.

Lemma lex_eq (c1 c2 : comparison) : lex c1 c2 = Eq <-> c1 = Eq /\ c2 = Eq.
Proof. destruct c1, c2; simpl; intuition congruence. Qed.

Lemma pair_compare_eq (a b : Z * pyval) : pair_compare a b = Eq <-> a = b.
Proof.
  destruct a as [t v], b as [t' v']. unfold pair_compare. simpl.
  rewrite lex_eq, Z.compare_eq_iff, pyval_compare_eq.
  split; [now intros [-> ->] | intros H; now inversion H].
Qed.

Lemma triple_compare_eq (a b : Z * pyval * text) : triple_compare a b = Eq <-> a = b.
Proof.
  destruct a as [p s], b as [p' s']. unfold triple_compare. simpl.
  rewrite lex_eq, pair_compare_eq, text_compare_eq.
  split; [now intros [-> ->] | intros H; now inversion H].
Qed.

(** The tier of a rank tuple fixes the type of its value, so the sort
    never compares an [int] with a [str]. *)
Lemma floor_rank_typed (a b : text) :
  fst (_floor_rank a) = fst (_floor_rank b) ->
  is_int (snd (_floor_rank a)) = is_int (snd (_floor_rank b)).
Proof.
  unfold _floor_rank.
  destruct (is_empty (strip a)), (is_empty (strip b));
    repeat match goal with
           | |- context [if ?c then _ else _] => destruct c
           end; simpl; congruence.
Qed.

Lemma room_rank_typed (a b : text) :
  fst (fst (_room_rank a)) = fst (fst (_room_rank b)) ->
  is_int (snd (fst (_room_rank a))) = is_int (snd (fst (_room_rank b))).
Proof.
  unfold _room_rank.
  destruct (is_empty (strip a)), (is_empty (strip b));
    repeat match goal with
           | |- context [match ?c with Some _ => _ | None => _ end] => destruct c
           end; simpl; congruence.
Qed.

(** ** Stable sorting *)

Section SortingFacts.

Variable R : Type.

Lemma insert_perm (cmp : ordering R) (x : R) (l : list R) :
  Permutation (x :: l) (insert cmp x l).
Proof.
  induction l as [|y l IH]; simpl; [auto|].
  destruct (cmp x y); auto.
  eapply perm_trans; [apply perm_swap|]. now constructor.
Qed.

Lemma stable_sort_perm (cmp : ordering R) (l : list R) :
  Permutation l (stable_sort cmp l).
Proof.
  induction l as [|x l IH]; simpl; [auto|].
  eapply perm_trans; [|apply insert_perm]. now constructor.
Qed.

Lemma sort_values_perm (keys : list (ordering R)) (l : list R) :
  Permutation l (sort_values keys l).
Proof.
  induction keys as [|k keys IH]; simpl; [auto|].
  eapply perm_trans; [exact IH | apply stable_sort_perm].
Qed.

(** Rows of one class, no two of which the order separates, keep their
    places among themselves. *)
Lemma insert_filter (cmp : ordering R) (P : R -> bool) (x : R) (l : list R) :
  tied cmp P -> filter P (insert cmp x l) = filter P (x :: l).
Proof.
  intros HP. induction l as [|y l IH]; [reflexivity|].
  cbn [insert]. destruct (cmp x y) eqn:E; try reflexivity.
  cbn [filter] in *. rewrite IH.
  destruct (P x) eqn:Hx, (P y) eqn:Hy; try reflexivity.
  exfalso. exact (HP x y Hx Hy E).
Qed.

Lemma stable_sort_filter (cmp : ordering R) (P : R -> bool) (l : list R) :
  tied cmp P -> filter P (stable_sort cmp l) = filter P l.
Proof.
  intros HP. induction l as [|x l IH]; [reflexivity|].
  cbn [stable_sort fold_right]. fold (stable_sort cmp l).
  rewrite insert_filter by assumption. cbn [filter]. now rewrite IH.
Qed.

Lemma sort_values_filter (keys : list (ordering R)) (P : R -> bool) (l : list R) :
  Forall (fun cmp => tied cmp P) keys ->
  filter P (sort_values keys l) = filter P l.
Proof.
  induction 1 as [|k keys Hk _ IH]; [reflexivity|].
  cbn [sort_values fold_right]. fold (sort_values keys l).
  now rewrite stable_sort_filter.
Qed.

(** A pass on a key that separates no two rows changes nothing. *)
Lemma insert_head (cmp : ordering R) (x : R) (l : list R) :
  (forall y, In y l -> cmp x y <> Gt) -> insert cmp x l = x :: l.
Proof.
  destruct l as [|y l]; [reflexivity|]. intros H. cbn [insert].
  destruct (cmp x y) eqn:E; try reflexivity.
  exfalso. apply (H y); [now left | assumption].
Qed.

Lemma stable_sort_id (cmp : ordering R) (l : list R) :
  (forall x y, In x l -> In y l -> cmp x y <> Gt) -> stable_sort cmp l = l.
Proof.
  induction l as [|x l IH]; [reflexivity|]. intros H.
  cbn [stable_sort fold_right]. fold (stable_sort cmp l).
  rewrite IH by (intros; apply H; now right).
  apply insert_head. intros y Hy. apply H; [now left | now right].
Qed.

Lemma stable_sort_two (cmp : ordering R) (x y : R) :
  stable_sort cmp [x; y] =
  match cmp x y with Gt => [y; x] | _ => [x; y] end.
Proof. reflexivity. Qed.

End SortingFacts.

Arguments sort_values_perm {R} keys l.
Arguments sort_values_filter {R} keys P l _.
Arguments stable_sort_id {R} cmp l _.
Arguments stable_sort_two {R} cmp x y.
Arguments stable_sort_perm {R} cmp l.

(** ** The order of the sorted rows *)

Lemma Z_compare_ok : order_ok Z.compare.
Proof.
  split.
  - apply Z.compare_eq_iff.
  - intros a b. apply Z.compare_antisym.
  - intros a b d. rewrite !Z.compare_le_iff. lia.
Qed.

Lemma text_compare_ok : order_ok text_compare.
Proof.
  split.
  - apply text_compare_eq.
  - induction a as [|x a IH]; intros [|y b]; simpl; try reflexivity.
    rewrite Nat.compare_antisym, IH.
    now destruct (Nat.compare (code x) (code y)).
  - induction a as [|x a IH]; intros [|y b] [|z d]; simpl; try easy.
    destruct (Nat.compare_spec (code x) (code y)) as [E1|E1|E1];
      destruct (Nat.compare_spec (code y) (code z)) as [E2|E2|E2];
      destruct (Nat.compare_spec (code x) (code z)) as [E3|E3|E3];
      try easy; try lia.
    apply IH.
Qed.

(** The lexicographic product of two orders is an order. *)
Lemma lex_ok {K1 K2 : Type} (c1 : K1 -> K1 -> comparison)
  (c2 : K2 -> K2 -> comparison) :
  order_ok c1 -> order_ok c2 ->
  order_ok (fun a b : K1 * K2 => lex (c1 (fst a) (fst b)) (c2 (snd a) (snd b))).
Proof.
  intros [E1 A1 T1] [E2 A2 T2]. split.
  - intros [a1 a2] [b1 b2]. cbn [fst snd]. rewrite lex_eq, E1, E2.
    split; [now intros [-> ->] | intros H; now inversion H].
  - intros [a1 a2] [b1 b2]. cbn [fst snd]. rewrite A1, A2.
    now destruct (c1 a1 b1), (c2 a2 b2).
  - intros [a1 a2] [b1 b2] [d1 d2]. cbn [fst snd].
    destruct (c1 a1 b1) eqn:H1; cbn [lex]; try easy;
      destruct (c1 b1 d1) eqn:H2; cbn [lex]; try easy.
    + apply E1 in H1, H2. subst. rewrite (proj2 (E1 d1 d1) eq_refl). cbn [lex].
      apply T2.
    + apply E1 in H1. subst. rewrite H2. easy.
    + apply E1 in H2. subst. rewrite H1. easy.
    + intros _ _. destruct (c1 a1 d1) eqn:H3; cbn [lex]; try easy.
      * apply E1 in H3. subst. rewrite A1, H1 in H2. discriminate.
      * exfalso. apply (T1 a1 b1 d1); congruence.
Qed.

Lemma pyval_compare_ok : order_ok pyval_compare.
Proof.
  destruct Z_compare_ok as [E1 A1 T1], text_compare_ok as [E2 A2 T2]. split.
  - apply pyval_compare_eq.
  - intros [x|x] [y|y]; simpl; auto.
  - intros [x|x] [y|y] [z|z]; simpl; try easy; [apply T1 | apply T2].
Qed.

Lemma pair_compare_ok : order_ok pair_compare.
Proof. exact (lex_ok _ _ Z_compare_ok pyval_compare_ok). Qed.

Lemma triple_compare_ok : order_ok triple_compare.
Proof. exact (lex_ok _ _ pair_compare_ok text_compare_ok). Qed.

Section PassSorted.

Variable R : Type.
Variables major minor : ordering R.

Hypothesis major_anti : forall a b, major a b = Gt -> major b a = Lt.
Hypothesis major_trans :
  forall a b d, major a b <> Gt -> major b d <> Gt -> major a d <> Gt.

Lemma lexo_major (a b : R) : lexo major minor a b <> Gt -> major a b <> Gt.
Proof. unfold lexo. now destruct (major a b). Qed.

Lemma lexo_le (a b : R) :
  major a b <> Gt -> minor a b <> Gt -> lexo major minor a b <> Gt.
Proof. unfold lexo. now destruct (major a b). Qed.

Lemma insert_sorted (x : R) (l : list R) :
  StronglySorted (le_by (lexo major minor)) l ->
  Forall (le_by minor x) l ->
  StronglySorted (le_by (lexo major minor)) (insert major x l).
Proof.
  induction 1 as [|y l Hs IH Hy]; intros Hx.
  - repeat constructor.
  - inversion Hx as [|? ? Hxy Hxl]; subst. cbn [insert].
    assert (Hhead : major x y <> Gt ->
              StronglySorted (le_by (lexo major minor)) (x :: y :: l)).
    { intros Hm. constructor; [now constructor|].
      constructor; [now apply lexo_le|].
      apply Forall_forall. intros z Hz.
      apply lexo_le.
      - apply major_trans with (b := y); [exact Hm|].
        apply lexo_major. exact (proj1 (Forall_forall _ _) Hy z Hz).
      - exact (proj1 (Forall_forall _ _) Hxl z Hz). }
    destruct (major x y) eqn:E; try (apply Hhead; congruence).
    constructor; [now apply IH|].
    apply (Permutation_Forall (insert_perm _ major x l)).
    constructor; [|exact Hy].
    unfold le_by, lexo. now rewrite (major_anti _ _ E).
Qed.

(** A stable pass on [major] over rows in the order of [minor] leaves
    them in the order of [major], then [minor]. *)
Lemma stable_sort_sorted (l : list R) :
  StronglySorted (le_by minor) l ->
  StronglySorted (le_by (lexo major minor)) (stable_sort major l).
Proof.
  induction 1 as [|x l Hs IH Hx]; [constructor|].
  cbn [stable_sort fold_right]. fold (stable_sort major l).
  apply insert_sorted; [exact IH|].
  apply (Permutation_Forall (stable_sort_perm major l)). exact Hx.
Qed.

End PassSorted.

(** The order of rows by a key inherits the laws of the order of the key. *)
Lemma by_key_laws {R K : Type} (c : K -> K -> comparison) (key : R -> K) :
  order_ok c ->
  (forall a b, c (key a) (key b) = Gt -> c (key b) (key a) = Lt) /\
  (forall a b d, c (key a) (key b) <> Gt -> c (key b) (key d) <> Gt ->
                 c (key a) (key d) <> Gt).
Proof.
  intros [E A T]. split.
  - intros a b H. now rewrite A, H.
  - intros a b d. apply T.
Qed.

Lemma any_order_trivial {R : Type} (l : list R) :
  StronglySorted (le_by (fun _ _ => Eq)) l.
Proof.
  induction l as [|x l IH]; constructor; auto.
  apply Forall_forall. intros y _. discriminate.
Qed.

Lemma sorted_weaken {R : Type} (c c' : ordering R) (l : list R) :
  (forall a b, c a b = c' a b) ->
  StronglySorted (le_by c) l -> StronglySorted (le_by c') l.
Proof.
  intros H. induction 1 as [|x l Hs IH Hx]; constructor; auto.
  rewrite Forall_forall in *. intros y Hy. unfold le_by. rewrite <- H.
  now apply Hx.
Qed.

Lemma lexo_trivial {R : Type} (c : ordering R) (a b : R) :
  lexo c (fun _ _ => Eq) a b = c a b.
Proof. unfold lexo. now destruct (c a b). Qed.

(** The rows leave the sort in the order of the composite key. *)
Lemma sort_rows_sorted (rows : list row) :
  StronglySorted (le_by key_compare) (sort_rows rows).
Proof.
  destruct (by_key_laws Z.compare (fun r => _building_rank (Building r)) Z_compare_ok)
    as [Ab Tb].
  destruct (by_key_laws pair_compare (fun r => _floor_rank (Floor r)) pair_compare_ok)
    as [Af Tf].
  destruct (by_key_laws triple_compare (fun r => _room_rank (Room r)) triple_compare_ok)
    as [Ar Tr].
  unfold sort_rows, sort_values, key_compare. cbn [fold_right].
  apply (stable_sort_sorted _ by_building (lexo by_floor by_room) Ab Tb).
  apply (stable_sort_sorted _ by_floor by_room Af Tf).
  apply sorted_weaken with (c := lexo by_room (fun _ _ => Eq));
    [apply lexo_trivial|].
  apply (stable_sort_sorted _ by_room (fun _ _ => Eq) Ar Tr).
  apply any_order_trivial.
Qed.

Lemma formatter_sort_rows_sorted (rows : list aim_formatter.row) :
  StronglySorted (le_by formatter_key_compare) (aim_formatter.sort_rows rows).
Proof.
  destruct (by_key_laws Z.compare
              (fun r => aim_formatter.floor_rank (aim_formatter.Floor r)) Z_compare_ok)
    as [Af Tf].
  destruct (by_key_laws Z.compare
              (fun r => aim_formatter.room_rank (aim_formatter.Room r)) Z_compare_ok)
    as [Ar Tr].
  unfold aim_formatter.sort_rows, sort_values, formatter_key_compare.
  cbn [fold_right].
  apply (stable_sort_sorted _ aim_formatter.by_floor aim_formatter.by_room Af Tf).
  apply sorted_weaken with (c := lexo aim_formatter.by_room (fun _ _ => Eq));
    [apply lexo_trivial|].
  apply (stable_sort_sorted _ aim_formatter.by_room (fun _ _ => Eq) Ar Tr).
  apply any_order_trivial.
Qed.

(** ** C6: the sort keeps rows with equal keys in input order *)

Lemma is_eq_true (c : comparison) : is_eq c = true <-> c = Eq.
Proof. destruct c; simpl; intuition congruence. Qed.

Lemma same_key_tied (x : row) :
  Forall (fun cmp => tied cmp (same_key x)) [by_building; by_floor; by_room].
Proof.
  repeat constructor; intros a b Ha Hb; unfold same_key in *;
    rewrite !andb_true_iff, !is_eq_true in Ha, Hb;
    destruct Ha as [[Ha1 Ha2] Ha3], Hb as [[Hb1 Hb2] Hb3].
  - unfold by_building in *. apply Z.compare_eq_iff in Ha1, Hb1.
    rewrite <- Ha1, <- Hb1, Z.compare_refl. discriminate.
  - unfold by_floor in *. apply pair_compare_eq in Ha2, Hb2.
    rewrite <- Ha2, <- Hb2. rewrite (proj2 (pair_compare_eq _ _) eq_refl).
    discriminate.
  - unfold by_room in *. apply triple_compare_eq in Ha3, Hb3.
    rewrite <- Ha3, <- Hb3. rewrite (proj2 (triple_compare_eq _ _) eq_refl).
    discriminate.
Qed.

Lemma formatter_same_key_tied (x : aim_formatter.row) :
  Forall (fun cmp => tied cmp (formatter_same_key x))
         [aim_formatter.by_floor; aim_formatter.by_room].
Proof.
  repeat constructor; intros a b Ha Hb; unfold formatter_same_key in *;
    rewrite !andb_true_iff, !is_eq_true in Ha, Hb;
    destruct Ha as [Ha1 Ha2], Hb as [Hb1 Hb2].
  - unfold aim_formatter.by_floor in *. apply Z.compare_eq_iff in Ha1, Hb1.
    rewrite <- Ha1, <- Hb1, Z.compare_refl. discriminate.
  - unfold aim_formatter.by_room in *. apply Z.compare_eq_iff in Ha2, Hb2.
    rewrite <- Ha2, <- Hb2, Z.compare_refl. discriminate.
Qed.

(** C6.  The sort of either module is stable: the output is a
    rearrangement of the input in which the rows whose composite key
    compares equal to that of any given row stand in their input order. *)
Theorem sort_rows_stable :
  (forall rows : list row,
      Permutation rows (sort_rows rows) /\
      forall x, filter (same_key x) (sort_rows rows) = filter (same_key x) rows) /\
  (forall rows : list aim_formatter.row,
      Permutation rows (aim_formatter.sort_rows rows) /\
      forall x, filter (formatter_same_key x) (aim_formatter.sort_rows rows)
                = filter (formatter_same_key x) rows).
Proof.
  split; intros rows; split.
  - apply sort_values_perm.
  - intros x. apply sort_values_filter, same_key_tied.
  - apply sort_values_perm.
  - intros x. apply sort_values_filter, formatter_same_key_tied.
Qed.

(** ** C4: the order of the floors *)

Lemma by_building_same (a b : row) :
  Building a = Building b -> by_building a b <> Gt.
Proof. unfold by_building. intros ->. now rewrite Z.compare_refl. Qed.

Lemma by_floor_same (a b : row) : Floor a = Floor b -> by_floor a b <> Gt.
Proof.
  unfold by_floor. intros ->.
  now rewrite (proj2 (pair_compare_eq _ _) eq_refl).
Qed.

Lemma by_room_same (a b : row) : Room a = Room b -> by_room a b <> Gt.
Proof.
  unfold by_room. intros ->.
  now rewrite (proj2 (triple_compare_eq _ _) eq_refl).
Qed.

Lemma in_stable_sort (R : Type) (cmp : ordering R) (l : list R) (x : R) :
  In x (stable_sort cmp l) -> In x l.
Proof.
  apply Permutation_in, Permutation_sym, stable_sort_perm.
Qed.

(** With one building and one room, the floor alone orders the rows. *)
Lemma sort_rows_by_floor (l : list row) :
  (forall a b, In a l -> In b l -> Building a = Building b /\ Room a = Room b) ->
  sort_rows l = stable_sort by_floor l.
Proof.
  intros H. unfold sort_rows, sort_values. cbn [fold_right].
  rewrite (stable_sort_id by_room l).
  - apply stable_sort_id. intros x y Hx Hy.
    apply in_stable_sort in Hx, Hy. apply by_building_same. now apply H.
  - intros x y Hx Hy. apply by_room_same. now apply H.
Qed.

(** With one building and one floor, the room alone orders the rows. *)
Lemma sort_rows_by_room (l : list row) :
  (forall a b, In a l -> In b l -> Building a = Building b /\ Floor a = Floor b) ->
  sort_rows l = stable_sort by_room l.
Proof.
  intros H. unfold sort_rows, sort_values. cbn [fold_right].
  assert (E : stable_sort by_floor (stable_sort by_room l) = stable_sort by_room l).
  { apply stable_sort_id. intros x y Hx Hy.
    apply in_stable_sort in Hx, Hy. apply by_floor_same. now apply H. }
  rewrite E. apply stable_sort_id. intros x y Hx Hy.
  apply in_stable_sort in Hx, Hy. apply by_building_same. now apply H.
Qed.

Lemma formatter_sort_rows_by_floor (l : list aim_formatter.row) :
  (forall a b, In a l -> In b l -> aim_formatter.Room a = aim_formatter.Room b) ->
  aim_formatter.sort_rows l = stable_sort aim_formatter.by_floor l.
Proof.
  intros H. unfold aim_formatter.sort_rows, sort_values. cbn [fold_right].
  rewrite (stable_sort_id aim_formatter.by_room l); [reflexivity|].
  intros x y Hx Hy. unfold aim_formatter.by_room.
  rewrite (H x y Hx Hy), Z.compare_refl. discriminate.
Qed.

Lemma formatter_sort_rows_by_room (l : list aim_formatter.row) :
  (forall a b, In a l -> In b l -> aim_formatter.Floor a = aim_formatter.Floor b) ->
  aim_formatter.sort_rows l = stable_sort aim_formatter.by_room l.
Proof.
  intros H. unfold aim_formatter.sort_rows, sort_values. cbn [fold_right].
  apply stable_sort_id. intros x y Hx Hy.
  apply in_stable_sort in Hx, Hy. unfold aim_formatter.by_floor.
  rewrite (H x y Hx Hy), Z.compare_refl. discriminate.
Qed.

(** C4 (as amended).  Rows that differ in the floor only, with the floors
    blank, B, 2, SF, 1: [aim_report_automation] puts the blank floor
    first, then B, then SF, then 1 and 2; [aim_formatter] puts B first,
    then 1 and 2, then SF, and the blank floor last. *)
Theorem five_floors_order :
  (forall base : row,
      map Floor (sort_rows (map (with_floor base) five_floors))
      = [txt ""; txt "B"; txt "SF"; txt "1"; txt "2"]) /\
  (forall base : aim_formatter.row,
      map aim_formatter.Floor
          (aim_formatter.sort_rows (map (formatter_with_floor base) five_floors))
      = [txt "B"; txt "1"; txt "2"; txt "SF"; txt ""]).
Proof.
  split; intros base.
  - rewrite sort_rows_by_floor.
    + vm_compute. reflexivity.
    + intros a b Ha Hb.
      apply in_map_iff in Ha as (fa & <- & _), Hb as (fb & <- & _).
      split; reflexivity.
  - rewrite formatter_sort_rows_by_floor.
    + vm_compute. reflexivity.
    + intros a b Ha Hb.
      apply in_map_iff in Ha as (fa & <- & _), Hb as (fb & <- & _).
      reflexivity.
Qed.

(** C4 as stated fails: neither module yields blank, B, 1, 2, SF. *)
Lemma five_floors_counterexample :
  map Floor (sort_rows (map (with_floor blank_row) five_floors))
    <> [txt ""; txt "B"; txt "1"; txt "2"; txt "SF"] /\
  map aim_formatter.Floor
      (aim_formatter.sort_rows (map (formatter_with_floor formatter_blank_row) five_floors))
    <> [txt ""; txt "B"; txt "1"; txt "2"; txt "SF"].
Proof. split; vm_compute; discriminate. Qed.

(** ** C5: rooms and common areas *)

Lemma upper_space (c : ascii) : is_space (to_upper c) = is_space c.
Proof. destruct c as [[] [] [] [] [] [] [] []]; reflexivity. Qed.

Lemma lstrip_upper (s : text) : lstrip (upper s) = upper (lstrip s).
Proof.
  induction s as [|c s IH]; [reflexivity|].
  cbn [upper map lstrip]. rewrite upper_space.
  destruct (is_space c); [exact IH | reflexivity].
Qed.

Lemma strip_upper (s : text) : strip (upper s) = upper (strip s).
Proof.
  unfold strip, rstrip. rewrite lstrip_upper.
  unfold upper at 1. rewrite <- map_rev. fold (upper (rev (lstrip s))).
  rewrite lstrip_upper. unfold upper. now rewrite map_rev.
Qed.

Lemma strip_upper_empty (s : text) :
  is_empty (strip s) = is_empty (strip (upper s)).
Proof. rewrite strip_upper. now destruct (strip s). Qed.

(** A label that starts with a digit matches the numeric pattern. *)
Lemma numeric_pattern_match (c : ascii) (s : text) :
  is_digit c = true ->
  exists g, re_match false numeric_pattern (c :: s) = Some g.
Proof.
  intros Hc.
  destruct (span_run (cset_mem false CDigit) s) as (run & rest & -> & Hrun & Hrest).
  destruct (span_run (cset_mem false upper_set) rest) as (caps & rest' & -> & Hcaps & Hrest').
  eexists. unfold re_match, numeric_pattern, plus, star. cbn [mtch].
  apply (rep_greedy_run _ (cset_mem false CDigit) (c :: run)).
  - cbn [forallb]. rewrite Hrun. cbn [cset_mem]. now rewrite Hc.
  - exact Hrest.
  - simpl. lia.
  - apply (rep_greedy_run _ (cset_mem false upper_set) caps); auto.
    + lia.
    + reflexivity.
Qed.

Lemma numeric_pattern_no_match (c : ascii) (s : text) :
  is_digit c = false -> re_match false numeric_pattern (c :: s) = None.
Proof.
  intros Hc. unfold re_match, numeric_pattern, plus. cbn [mtch rep_greedy cset_mem].
  now rewrite Hc.
Qed.

Lemma room_rank_numeric (r : text) :
  leading_digit r = true -> fst (fst (_room_rank r)) = 1%Z.
Proof.
  unfold leading_digit, _room_rank. rewrite strip_upper_empty.
  destruct (strip (upper r)) as [|c s]; [discriminate|]. intros Hc.
  cbn [is_empty]. destruct (numeric_pattern_match c s Hc) as [g ->]. reflexivity.
Qed.

Lemma room_rank_label (r : text) :
  non_numeric r = true -> fst (fst (_room_rank r)) = 2%Z.
Proof.
  unfold non_numeric, _room_rank. rewrite strip_upper_empty.
  destruct (strip (upper r)) as [|c s]; [discriminate|]. intros Hc.
  apply negb_true_iff in Hc.
  cbn [is_empty]. now rewrite (numeric_pattern_no_match c s Hc).
Qed.

Lemma triple_compare_tiers (a b : Z * pyval * text) :
  fst (fst a) = 1%Z -> fst (fst b) = 2%Z ->
  triple_compare a b = Lt /\ triple_compare b a = Gt.
Proof.
  destruct a as [[ta va] sa], b as [[tb vb] sb]. simpl. intros -> ->.
  split; reflexivity.
Qed.

Lemma sorts_after_by_room (base : row) (x y : text) :
  by_room (with_room base x) (with_room base y) = Gt ->
  by_room (with_room base y) (with_room base x) = Lt ->
  sorts_after (with_room base x) (with_room base y).
Proof.
  intros Hxy Hyx.
  assert (Hsame : forall l, (forall a, In a l -> exists r, a = with_room base r) ->
            forall a b, In a l -> In b l ->
              Building a = Building b /\ Floor a = Floor b).
  { intros l Hl a b Ha Hb.
    destruct (Hl a Ha) as [ra ->], (Hl b Hb) as [rb ->]. split; reflexivity. }
  split; rewrite sort_rows_by_room, stable_sort_two.
  - now rewrite Hxy.
  - apply Hsame. intros a [<-|[<-|[]]]; eexists; reflexivity.
  - now rewrite Hyx.
  - apply Hsame. intros a [<-|[<-|[]]]; eexists; reflexivity.
Qed.

Lemma formatter_sorts_after_by_rank (base : aim_formatter.row) (x y : text) :
  (aim_formatter.room_rank y < aim_formatter.room_rank x)%Z ->
  formatter_sorts_after (formatter_with_room base x) (formatter_with_room base y).
Proof.
  intros Hlt.
  assert (Hsame : forall l,
            (forall a, In a l -> exists r, a = formatter_with_room base r) ->
            forall a b, In a l -> In b l ->
              aim_formatter.Floor a = aim_formatter.Floor b).
  { intros l Hl a b Ha Hb.
    destruct (Hl a Ha) as [ra ->], (Hl b Hb) as [rb ->]. reflexivity. }
  split; rewrite formatter_sort_rows_by_room, stable_sort_two.
  - unfold aim_formatter.by_room. cbn [aim_formatter.Room formatter_with_room].
    now rewrite (proj2 (Z.compare_gt_iff _ _) Hlt).
  - apply Hsame. intros a [<-|[<-|[]]]; eexists; reflexivity.
  - unfold aim_formatter.by_room. cbn [aim_formatter.Room formatter_with_room].
    now rewrite (proj2 (Z.compare_lt_iff _ _) Hlt).
  - apply Hsame. intros a [<-|[<-|[]]]; eexists; reflexivity.
Qed.

Lemma common_area_not_blank (r : text) :
  common_area r = true -> is_empty r || is_empty (strip r) = false.
Proof.
  unfold common_area. intros H.
  assert (Hs : is_empty (strip (upper r)) = false).
  { destruct (strip (upper r)); [discriminate H | reflexivity]. }
  rewrite <- strip_upper_empty in Hs. rewrite Hs.
  destruct r; [discriminate Hs | reflexivity].
Qed.

Lemma non_numeric_not_blank (r : text) :
  non_numeric r = true -> is_empty r || is_empty (strip r) = false.
Proof.
  unfold non_numeric. intros H.
  assert (Hs : is_empty (strip (upper r)) = false).
  { destruct (strip (upper r)); [discriminate H | reflexivity]. }
  rewrite <- strip_upper_empty in Hs. rewrite Hs.
  destruct r; [discriminate Hs | reflexivity].
Qed.

Lemma formatter_rank_common (r : text) :
  common_area r = true -> aim_formatter.room_rank r = 700000%Z.
Proof.
  intros H. unfold aim_formatter.room_rank.
  rewrite (common_area_not_blank r H). cbv zeta.
  unfold common_area in H. now rewrite H.
Qed.

Lemma formatter_rank_generic (r : text) :
  non_numeric r = true -> common_area r = false ->
  aim_formatter.room_rank r = 600000%Z.
Proof.
  intros Hn Hc. unfold aim_formatter.room_rank.
  rewrite (non_numeric_not_blank r Hn). cbv zeta.
  unfold common_area in Hc. rewrite Hc.
  unfold non_numeric in Hn. destruct (strip (upper r)) as [|c s]; [discriminate|].
  apply negb_true_iff in Hn.
  unfold re_match, plus. cbn [mtch rep_greedy cset_mem]. now rewrite Hn.
Qed.

(** C5 (as amended).  [aim_report_automation] has no bucket for common
    areas: every label that is not blank and does not start with a digit,
    a common area or not, sorts after every room with a leading digit.
    In [aim_formatter] a label whose upper-cased text contains HALL, STR or
    ELEV has rank 700000, a generic non-numeric label has rank 600000, and
    the common area sorts after every label of rank below 700000, the
    generic labels among them. *)
Theorem common_area_order :
  (forall (base : row) (lab num : text),
      non_numeric lab = true -> leading_digit num = true ->
      sorts_after (with_room base lab) (with_room base num)) /\
  (forall hall : text,
      common_area hall = true -> aim_formatter.room_rank hall = 700000%Z) /\
  (forall lab : text,
      non_numeric lab = true -> common_area lab = false ->
      aim_formatter.room_rank lab = 600000%Z) /\
  (forall (base : aim_formatter.row) (hall other : text),
      common_area hall = true ->
      (aim_formatter.room_rank other < 700000)%Z ->
      formatter_sorts_after (formatter_with_room base hall)
                            (formatter_with_room base other)).
Proof.
  split; [|split; [|split]].
  - intros base lab num Hl Hn.
    destruct (triple_compare_tiers (_room_rank num) (_room_rank lab)
                (room_rank_numeric num Hn) (room_rank_label lab Hl)) as [H1 H2].
    apply sorts_after_by_room; assumption.
  - exact formatter_rank_common.
  - exact formatter_rank_generic.
  - intros base hall other Hc Hlt. apply formatter_sorts_after_by_rank.
    now rewrite (formatter_rank_common hall Hc).
Qed.

Lemma common_area_order_witness :
  sorts_after (with_room blank_row (txt "Hallway A"))
              (with_room blank_row (txt "310")) /\
  formatter_sorts_after (formatter_with_room formatter_blank_row (txt "Hallway A"))
                        (formatter_with_room formatter_blank_row (txt "310")).
Proof.
  destruct common_area_order as (HA & _ & _ & HB). split.
  - apply HA; reflexivity.
  - apply HB; reflexivity.
Defined.

(** C5 as stated fails.  In [aim_report_automation] the common area
    Hallway A sorts before the generic label Lobby.  In [aim_formatter]
    Stairwell is no common area and ties with Lobby, and Hallway A sorts
    before the room 800000. *)
Lemma common_area_order_counterexample :
  (non_numeric (txt "Lobby") = true /\
   sort_rows [with_room blank_row (txt "Lobby"); with_room blank_row (txt "Hallway A")]
   = [with_room blank_row (txt "Hallway A"); with_room blank_row (txt "Lobby")]) /\
  (non_numeric (txt "Lobby") = true /\ common_area (txt "Lobby") = false /\
   aim_formatter.sort_rows
     [formatter_with_room formatter_blank_row (txt "Stairwell");
      formatter_with_room formatter_blank_row (txt "Lobby")]
   = [formatter_with_room formatter_blank_row (txt "Stairwell");
      formatter_with_room formatter_blank_row (txt "Lobby")]) /\
  (leading_digit (txt "800000") = true /\ common_area (txt "800000") = false /\
   aim_formatter.sort_rows
     [formatter_with_room formatter_blank_row (txt "800000");
      formatter_with_room formatter_blank_row (txt "Hallway A")]
   = [formatter_with_room formatter_blank_row (txt "Hallway A");
      formatter_with_room formatter_blank_row (txt "800000")]).
Proof. repeat split; vm_compute; reflexivity. Qed.

(** ** C7: the business-day count *)

Open Scope Z_scope.

Lemma days_from_S (d : Z) (n : nat) :
  days_from d (S n) = d :: days_from (d + 1) n.
Proof.
  unfold days_from. cbn [seq map]. f_equal.
  - apply Z.add_0_r.
  - rewrite <- seq_shift, map_map. apply map_ext. intros i. lia.
Qed.

Lemma weekdays_between_eq (s e : Z) :
  weekdays_between s e = weekdays (Z.to_nat (e - s)) s.
Proof.
  unfold weekdays_between. generalize (Z.to_nat (e - s)) as n. intros n.
  revert s. induction n as [|n IH]; intros s; [reflexivity|].
  rewrite days_from_S. cbn [filter weekdays]. rewrite <- IH.
  destruct (is_weekday s); cbn [length]; lia.
Qed.

Lemma day_of_week_range (d : Z) : 0 <= day_of_week d < 7.
Proof. unfold day_of_week. apply Z.mod_pos_bound. lia. Qed.

Lemma day_of_week_next (d : Z) :
  day_of_week (d + 1) =
  if day_of_week d + 1 =? 7 then 0 else day_of_week d + 1.
Proof.
  unfold day_of_week. destruct (Z.eqb_spec ((d - 4) mod 7 + 1) 7) as [E|E];
    Z.div_mod_to_equations; lia.
Qed.

Lemma count_remaining_weekdays (n : nat) (d : Z) :
  count_remaining n (day_of_week d) = weekdays n d.
Proof.
  revert d. induction n as [|n IH]; intros d; [reflexivity|].
  cbn [count_remaining weekdays]. rewrite <- day_of_week_next, IH.
  reflexivity.
Qed.

Lemma weekdays_add (n m : nat) (d : Z) :
  weekdays (n + m) d = weekdays n d + weekdays m (d + Z.of_nat n).
Proof.
  revert d. induction n as [|n IH]; intros d.
  - cbn [Nat.add weekdays Z.of_nat]. now rewrite Z.add_0_r.
  - cbn [Nat.add weekdays]. rewrite IH.
    replace (d + 1 + Z.of_nat n) with (d + Z.of_nat (S n)) by lia. lia.
Qed.

Lemma day_of_week_shift (d k : Z) :
  day_of_week (d + k) = (day_of_week d + k) mod 7.
Proof.
  unfold day_of_week. rewrite Zplus_mod_idemp_l. f_equal. lia.
Qed.

(** Seven days in a row hold five weekdays. *)
Lemma weekdays_week (d : Z) : weekdays 7 d = 5.
Proof.
  cbn [weekdays]. unfold is_weekday.
  replace (d + 1 + 1 + 1 + 1 + 1 + 1) with (d + 6) by lia.
  replace (d + 1 + 1 + 1 + 1 + 1) with (d + 5) by lia.
  replace (d + 1 + 1 + 1 + 1) with (d + 4) by lia.
  replace (d + 1 + 1 + 1) with (d + 3) by lia.
  replace (d + 1 + 1) with (d + 2) by lia.
  rewrite !day_of_week_shift.
  pose proof (day_of_week_range d) as H.
  assert (C : day_of_week d = 0 \/ day_of_week d = 1 \/ day_of_week d = 2 \/
              day_of_week d = 3 \/ day_of_week d = 4 \/ day_of_week d = 5 \/
              day_of_week d = 6) by lia.
  destruct C as [C|[C|[C|[C|[C|[C|C]]]]]]; rewrite C; reflexivity.
Qed.

Lemma weekdays_weeks (w : nat) (d : Z) :
  weekdays (7 * w) d = 5 * Z.of_nat w.
Proof.
  revert d. induction w as [|w IH]; intros d; [reflexivity|].
  replace (7 * S w)%nat with (7 + 7 * w)%nat by lia.
  rewrite weekdays_add, weekdays_week, IH. lia.
Qed.

(** Forward in time, [np.busday_count] is the count of weekdays from the
    start day up to, not including, the end day. *)
Lemma busday_count_forward (s e : Z) :
  s <= e -> busday_count s e = weekdays_between s e.
Proof.
  intros Hle. rewrite weekdays_between_eq. unfold busday_count.
  destruct (Z.eqb_spec s e) as [->|Hne].
  - now rewrite Z.sub_diag.
  - assert (Hlt : (e <? s) = false) by (apply Z.ltb_ge; lia).
    rewrite Hlt. cbv zeta.
    set (w := (e - s) / 7).
    assert (Hw : 0 <= w) by (apply Z.div_pos; lia).
    assert (Hr : 0 <= e - (s + w * 7) < 7).
    { unfold w. pose proof (Z.mod_pos_bound (e - s) 7 ltac:(lia)).
      pose proof (Z.div_mod (e - s) 7 ltac:(lia)). lia. }
    rewrite count_remaining_weekdays.
    replace (Z.to_nat (e - s))
      with (7 * Z.to_nat w + Z.to_nat (e - (s + w * 7)))%nat by lia.
    rewrite weekdays_add, weekdays_weeks.
    replace (s + Z.of_nat (7 * Z.to_nat w)) with (s + w * 7) by lia.
    lia.
Qed.

(** C7.  For a start day not after the end day both age functions count
    the days from the start day (included) up to the end day (excluded)
    that fall on Monday to Friday, with no holiday calendar; from a Monday
    to the Monday after, the count is 5. *)
Theorem business_days_count :
  (forall s e : Z, s <= e ->
      _business_days (Day s) e = Some (weekdays_between s e) /\
      aim_formatter.calculate_business_days (Day s) e = Some (weekdays_between s e)) /\
  (forall m : Z, day_of_week m = 0 ->
      _business_days (Day m) (m + 7) = Some 5 /\
      aim_formatter.calculate_business_days (Day m) (m + 7) = Some 5).
Proof.
  assert (F : forall s e, s <= e ->
      _business_days (Day s) e = Some (weekdays_between s e) /\
      aim_formatter.calculate_business_days (Day s) e = Some (weekdays_between s e)).
  { intros s e Hle. unfold _business_days, aim_formatter.calculate_business_days.
    rewrite busday_count_forward by assumption. split; [reflexivity|].
    destruct (Z.eqb_spec (weekdays_between s e) 0) as [->|_]; reflexivity. }
  split; [exact F|].
  intros m _. destruct (F m (m + 7) ltac:(lia)) as [-> ->].
  rewrite weekdays_between_eq.
  replace (Z.to_nat (m + 7 - m)) with 7%nat by lia.
  now rewrite weekdays_week.
Qed.

Lemma business_days_count_witness :
  (_business_days (Day 19725) 19737 = Some (weekdays_between 19725 19737) /\
   aim_formatter.calculate_business_days (Day 19725) 19737
   = Some (weekdays_between 19725 19737)) /\
  (_business_days (Day 19723) (19723 + 7) = Some 5 /\
   aim_formatter.calculate_business_days (Day 19723) (19723 + 7) = Some 5).
Proof.
  destruct business_days_count as [F M]. split.
  - apply F. lia.
  - apply M. reflexivity.
Defined.

(** ** C10: a start day after the end day *)

(** C10.  For a start day after the end day the count can be negative:
    from Wednesday 2024-01-03 back to Monday 2024-01-01 both age functions
    return -2, neither 0 nor the unavailable marker. *)
Theorem business_days_negative :
  exists s e n : Z,
    e < s /\ n < 0 /\
    _business_days (Day s) e = Some n /\
    aim_formatter.calculate_business_days (Day s) e = Some n.
Proof.
  exists 19725, 19723, (-2). repeat split; reflexivity.
Qed.

Close Scope Z_scope.

(** ** Frames and their columns *)

Lemma starts_with_refl (s : text) : starts_with s s = true.
Proof. induction s as [|c s IH]; [reflexivity|]. simpl. now rewrite ascii_eqb_refl. Qed.

Lemma contains_refl (s : text) : contains s s = true.
Proof. destruct s; [reflexivity|]. cbn [contains]. now rewrite starts_with_refl. Qed.

Lemma lower_cols_get_some (key : text) (cols : list text) (c : text) :
  lower_cols_get key cols = Some c -> In c cols /\ lower c = key.
Proof.
  induction cols as [|x cols IH]; [discriminate|]. cbn [lower_cols_get].
  destruct (lower_cols_get key cols) as [c'|].
  - intros H. inversion H; subst. destruct (IH eq_refl) as [Hin E].
    split; [now right | exact E].
  - destruct (text_eqb (lower x) key) eqn:E; [|discriminate].
    intros H. inversion H; subst. apply text_eqb_eq in E. split; [now left | exact E].
Qed.

(** The look-up in the dictionary of lower-cased names never finds what
    the scan of the columns has missed. *)
Lemma lower_cols_get_dead (key : text) (cols : list text) :
  find (fun col => contains key (lower col)) cols = None ->
  lower_cols_get key cols = None.
Proof.
  intros Hf. destruct (lower_cols_get key cols) as [c|] eqn:E; [|reflexivity].
  destruct (lower_cols_get_some key cols c E) as [Hin Hl].
  pose proof (find_none _ _ Hf c Hin) as H. cbv beta in H.
  rewrite Hl, contains_refl in H. discriminate.
Qed.

Lemma mem_text_In (n : text) (l : list text) : mem_text n l = true <-> In n l.
Proof.
  unfold mem_text. rewrite existsb_exists. split.
  - intros (x & Hx & E). apply text_eqb_eq in E. now subst.
  - intros H. exists n. split; [exact H | apply text_eqb_eq; reflexivity].
Qed.

Lemma mem_text_not_In (n : text) (l : list text) : mem_text n l = false <-> ~ In n l.
Proof.
  rewrite <- mem_text_In. destruct (mem_text n l); split; congruence.
Qed.

Lemma assign_column_In (cols : list text) (name c : text) :
  In c (assign_column cols name) <-> In c cols \/ c = name.
Proof.
  unfold assign_column. destruct (mem_text name cols) eqn:E.
  - apply mem_text_In in E. split; [now left | intros [H| ->]; assumption].
  - rewrite in_app_iff. cbn [In]. intuition congruence.
Qed.

Lemma fold_assign_In (names cols : list text) (c : text) :
  In c (fold_left assign_column names cols) <-> In c cols \/ In c names.
Proof.
  revert cols. induction names as [|n names IH]; intros cols; cbn [fold_left In].
  - tauto.
  - rewrite IH, assign_column_In. intuition congruence.
Qed.

Lemma filter_all (A : Type) (f : A -> bool) (l : list A) :
  (forall x, In x l -> f x = true) -> filter f l = l.
Proof.
  induction l as [|x l IH]; intros H; [reflexivity|]. cbn [filter].
  rewrite (H x (or_introl eq_refl)). f_equal. apply IH. intros y Hy. apply H. now right.
Qed.

Lemma find_column_In (cols terms : list text) (c : text) :
  _find_column cols terms = Some c -> In c cols.
Proof.
  induction terms as [|t terms IH]; [discriminate|]. cbn [_find_column].
  destruct (find (fun col => contains (lower t) (lower col)) cols) as [c0|] eqn:Ef.
  - intros H. inversion H; subst. exact (proj1 (find_some _ _ Ef)).
  - rewrite (lower_cols_get_dead _ _ Ef). exact IH.
Qed.

Lemma find_column_term (cols terms : list text) (c : text) :
  _find_column cols terms = Some c ->
  existsb (fun t => contains (lower t) (lower c)) terms = true.
Proof.
  induction terms as [|t terms IH]; [discriminate|]. cbn [_find_column existsb].
  destruct (find (fun col => contains (lower t) (lower col)) cols) as [c0|] eqn:Ef.
  - intros H. inversion H; subst.
    pose proof (proj2 (find_some _ _ Ef)) as Hc. cbv beta in Hc. now rewrite Hc.
  - rewrite (lower_cols_get_dead _ _ Ef). intros H. rewrite (IH H). apply orb_true_r.
Qed.

Lemma distinct_once (cols : list text) (c : text) :
  distinct cols = true -> In c cols -> (2 <=? occurrences c cols) = false.
Proof.
  unfold distinct. rewrite forallb_forall. intros H Hc.
  specialize (H c Hc). apply Nat.eqb_eq in H. now rewrite H.
Qed.

Lemma index_of_some (n : text) (cols : list text) :
  forall i, index_of n cols = Some i -> nth_error cols i = Some n.
Proof.
  induction cols as [|c cols IH]; intros i; cbn [index_of]; [discriminate|].
  destruct (text_eqb c n) eqn:E.
  - intros H. inversion H; subst. apply text_eqb_eq in E. now subst.
  - destruct (index_of n cols) as [j|]; [|discriminate]. cbn [option_map].
    intros H. inversion H; subst. cbn [nth_error]. now apply IH.
Qed.

Lemma nth_update_other (A : Type) (f : A -> A) (d : A) (l : list A) :
  forall i j, i <> j -> nth j (update i f l) d = nth j l d.
Proof.
  induction l as [|x l IH]; intros [|i] [|j] H; cbn [update nth];
    try reflexivity; try easy.
  apply IH. lia.
Qed.

(** [_normalize_dates] leaves the other columns as they are. *)
Lemma normalize_dates_other (parse_date : text -> option timestamp)
  (cols dates : list text) (c : text) :
  (forall d, In d dates -> d <> c) ->
  forall r, cell_of cols c (_normalize_dates parse_date cols dates r) = cell_of cols c r.
Proof.
  unfold _normalize_dates. induction dates as [|d dates IH]; intros Hd r;
    [reflexivity|].
  cbn [fold_left]. rewrite IH by (intros; apply Hd; now right).
  destruct (index_of d cols) as [i|] eqn:Ei; [|reflexivity].
  unfold cell_of. destruct (index_of c cols) as [j|] eqn:Ej; [|reflexivity].
  apply nth_update_other. intros ->. apply (Hd d (or_introl eq_refl)).
  apply index_of_some in Ei, Ej. congruence.
Qed.

Lemma date_columns_In (cols : list text) (c : text) :
  In c (date_columns cols) -> In c cols.
Proof.
  unfold date_columns, date_created_col, edit_date_col. intros H.
  apply in_app_iff in H as [H|H].
  - destruct (_find_column cols [txt "date created"; txt "created"]) as [d|] eqn:E;
      [|easy].
    destruct H as [<-|[]]. exact (find_column_In _ _ _ E).
  - destruct (_find_column cols [txt "edit date"; txt "last updated"; txt "modified"])
      as [d|] eqn:E; [|easy].
    destruct H as [<-|[]]. exact (find_column_In _ _ _ E).
Qed.

(** No date column bears the name of a rank column. *)
Lemma rank_not_date (cols : list text) (c d : text) :
  In c rank_columns -> In d (date_columns cols) -> d <> c.
Proof.
  intros Hc Hd ->. unfold date_columns, date_created_col, edit_date_col in Hd.
  apply in_app_iff in Hd as [Hd|Hd].
  - destruct (_find_column cols [txt "date created"; txt "created"]) as [d|] eqn:E;
      [|easy].
    destruct Hd as [->|[]]. apply find_column_term in E.
    destruct Hc as [<-|[<-|[<-|[]]]]; discriminate E.
  - destruct (_find_column cols [txt "edit date"; txt "last updated"; txt "modified"])
      as [d|] eqn:E; [|easy].
    destruct Hd as [->|[]]. apply find_column_term in E.
    destruct Hc as [<-|[<-|[<-|[]]]]; discriminate E.
Qed.

Lemma existsb_map (A B : Type) (f : B -> bool) (g : A -> B) (l : list A) :
  existsb f (map g l) = existsb (fun x => f (g x)) l.
Proof. induction l as [|x l IH]; [reflexivity|]. cbn [map existsb]. now rewrite IH. Qed.

(** A column named like a rank column is taken for non-empty when one of
    its cells in the CSV holds a value. *)
Lemma non_empty_rank (parse_date : text -> option timestamp) (cols : list text)
  (rows : list row) (rs : list (list cell)) (c : text) :
  In c rank_columns ->
  non_empty cols rows (map (_normalize_dates parse_date cols (date_columns cols)) rs) c
  = existsb (fun r => notna (cell_of cols c r)) rs.
Proof.
  intros Hc. unfold non_empty.
  assert (E1 : text_eqb c (txt "Age (Work Days)") = false)
    by (destruct Hc as [<-|[<-|[<-|[]]]]; reflexivity).
  assert (E2 : mem_text c required = false)
    by (destruct Hc as [<-|[<-|[<-|[]]]]; reflexivity).
  rewrite E1, E2, existsb_map.
  induction rs as [|r rs IH]; [reflexivity|]. cbn [existsb].
  rewrite IH. f_equal. f_equal. apply normalize_dates_other.
  intros d Hd. now apply rank_not_date with (cols := cols).
Qed.

Lemma rank_named_values_iff (cols : list text) (rs : list (list cell)) :
  rank_named_values cols rs = true <->
  exists c, In c cols /\ In c rank_columns /\
            existsb (fun r => notna (cell_of cols c r)) rs = true.
Proof.
  unfold rank_named_values. rewrite existsb_exists. split.
  - intros (c & Hc & H). apply andb_true_iff in H as [H1 H2].
    exists c. repeat split; auto. now apply mem_text_In.
  - intros (c & Hc & H1 & H2). exists c. split; [exact Hc|].
    apply andb_true_iff. split; [now apply mem_text_In | exact H2].
Qed.

(** The selection of the report columns raises exactly when a column that
    is taken for non-empty bears the name of a rank column. *)
Lemma ordered_cols_none (ne : text -> bool) (cols : list text) :
  ordered_cols ne cols = None <->
  exists c, In c cols /\ In c rank_columns /\ ne c = true.
Proof.
  unfold ordered_cols. cbv zeta.
  rewrite (filter_all _ _ required)
    by (intros x Hx; apply mem_text_In, fold_assign_In; now right).
  match goal with
  | |- (if existsb ?f ?l then _ else _) = _ <-> _ => destruct (existsb f l) eqn:E
  end.
  - split; [intros _ | reflexivity].
    apply existsb_exists in E as (c & Hc & Hr).
    apply in_app_iff in Hc as [Hc|Hc].
    + exfalso. cbn [required In] in Hc.
      repeat (destruct Hc as [<-|Hc]; [discriminate Hr|]). exact Hc.
    + apply filter_In in Hc as [Hc Hq]. apply filter_In in Hc as [Hc Hne].
      apply negb_true_iff, mem_text_not_In in Hq.
      apply fold_assign_In in Hc as [Hc|Hc]; [|contradiction].
      exists c. repeat split; auto. now apply mem_text_In.
  - split; [discriminate|]. intros (c & Hc & Hr & Hne). exfalso.
    assert (X : existsb (fun c => mem_text c rank_columns)
                  (required ++
                   filter (fun c => negb (mem_text c required))
                          (filter ne (fold_left assign_column required cols)))
                = true).
    { apply existsb_exists. exists c. split; [|now apply mem_text_In].
      apply in_app_iff. right. apply filter_In. split.
      - apply filter_In. split; [apply fold_assign_In; now left | exact Hne].
      - destruct Hr as [<-|[<-|[<-|[]]]]; reflexivity. }
    congruence.
Qed.

Lemma ordered_cols_rank (parse_date : text -> option timestamp) (cols : list text)
  (rows : list row) (rs : list (list cell)) :
  ordered_cols
    (non_empty cols rows (map (_normalize_dates parse_date cols (date_columns cols)) rs))
    cols = None
  <-> rank_named_values cols rs = true.
Proof.
  rewrite ordered_cols_none, rank_named_values_iff.
  split; intros (c & Hc & Hr & H); exists c; repeat split; auto.
  - now rewrite <- (non_empty_rank parse_date cols rows rs c Hr).
  - now rewrite (non_empty_rank parse_date cols rows rs c Hr).
Qed.

(** ** C9: the columns a batch needs *)

(** When [prepare_dataframe] returns a frame, and which. *)
Lemma prepare_dataframe_inr (parse_date : text -> option timestamp)
  (today : Z) (df : DataFrame) (rows : list row) :
  prepare_dataframe parse_date today df = inr rows <->
  exists desc_col,
    _find_column (_clean_headers (columns df)) description_terms = Some desc_col /\
    data df <> [] /\
    distinct (_clean_headers (columns df)) = true /\
    rank_named_values (_clean_headers (columns df)) (data df) = false /\
    rows = sort_rows (map (enrich parse_date today (_clean_headers (columns df)) desc_col)
                          (data df)).
Proof.
  unfold prepare_dataframe. fold description_terms. cbv zeta.
  set (cols := _clean_headers (columns df)).
  destruct (_find_column cols description_terms) as [dc|] eqn:Edesc;
    [|split; [discriminate | intros (c & H & _); discriminate]].
  pose proof (find_column_In _ _ _ Edesc) as Hdc.
  destruct (distinct cols) eqn:Ed.
  - (* distinct headers *)
    assert (Eb : match _find_column cols [txt "building"; txt "property"; txt "facility"] with
                 | Some building_col => 2 <=? occurrences building_col cols
                 | None => false
                 end = false).
    { destruct (_find_column cols [txt "building"; txt "property"; txt "facility"])
        as [b|] eqn:E; [|reflexivity].
      exact (distinct_once _ _ Ed (find_column_In _ _ _ E)). }
    rewrite Eb.
    assert (Et : existsb (fun c => 2 <=? occurrences c cols) (date_columns cols) = false).
    { destruct (existsb (fun c => 2 <=? occurrences c cols) (date_columns cols)) eqn:E;
        [|reflexivity].
      apply existsb_exists in E as (c & Hc & H).
      now rewrite (distinct_once _ _ Ed (date_columns_In _ _ Hc)) in H. }
    destruct (data df) as [|r0 rs] eqn:Edata.
    + split; [discriminate | intros (c & _ & H & _); easy].
    + rewrite (distinct_once _ _ Ed Hdc), Et. cbn [negb].
      destruct (rank_named_values cols (r0 :: rs)) eqn:Er.
      * rewrite (proj2 (ordered_cols_rank parse_date cols _ (r0 :: rs)) Er).
        split; [discriminate | intros (c & _ & _ & _ & H & _); discriminate].
      * destruct (ordered_cols _ cols) as [out|] eqn:Eo.
        -- split.
           ++ intros H. inversion H; subst rows. exists dc.
              repeat split; auto. discriminate.
           ++ intros (c & Hc & _ & _ & _ & ->). inversion Hc; subst c. reflexivity.
        -- apply (ordered_cols_rank parse_date cols) in Eo. congruence.
  - (* a name borne by two columns *)
    split; [|intros (c & _ & _ & H & _); discriminate].
    cbn [negb].
    repeat match goal with
           | |- context [if ?b then _ else _] => destruct b
           end; try discriminate.
    all: destruct (data df); discriminate.
Qed.


(** On a batch with rows, distinct headers and no rank name among the
    columns that hold a value, a description column is all that
    [prepare_dataframe] needs. *)
Lemma prepare_dataframe_eq (parse_date : text -> option timestamp)
  (today : Z) (df : DataFrame) (desc_col : text) :
  _find_column (_clean_headers (columns df)) description_terms = Some desc_col ->
  data df <> [] ->
  distinct (_clean_headers (columns df)) = true ->
  rank_named_values (_clean_headers (columns df)) (data df) = false ->
  prepare_dataframe parse_date today df =
  inr (sort_rows (map (enrich parse_date today (_clean_headers (columns df)) desc_col)
                      (data df))).
Proof.
  intros Hc Hne Hd Hr. apply prepare_dataframe_inr. exists desc_col.
  repeat split; assumption.
Qed.




(** ** C8: dates that are missing or cannot be parsed *)

Lemma coerce_no_date (parse_date : text -> option timestamp) (c : cell) :
  no_date parse_date c -> to_datetime_coerce parse_date c = NaT.
Proof.
  intros [->|(s & -> & H)]; [reflexivity|]. unfold to_datetime_coerce.
  now rewrite H.
Qed.

Lemma enrich_age_no_date (parse_date : text -> option timestamp) (today : Z)
  (cols : list text) (desc_col date_col : text) (r : list cell) :
  date_for_age cols = Some date_col ->
  no_date parse_date (cell_of cols date_col r) ->
  Age (enrich parse_date today cols desc_col r) = None.
Proof.
  intros Hd Hc. unfold enrich. cbn [Age]. rewrite Hd.
  now rewrite (coerce_no_date parse_date _ Hc).
Qed.

Lemma to_datetime_error (parse_date : text -> option timestamp) (c : cell) (e : error) :
  aim_formatter.to_datetime parse_date c = inl e -> e = parse_error.
Proof.
  destruct c as [|s]; [discriminate|]. unfold aim_formatter.to_datetime.
  destruct (parse_date s); [discriminate|]. intros H. now inversion H.
Qed.

(** One date text that cannot be parsed ends the age column. *)
Lemma age_column_raises (parse_date : text -> option timestamp) (today : Z)
  (cells : list cell) (s : text) :
  In (Str s) cells -> parse_date s = None ->
  aim_formatter.age_column parse_date today cells = inl parse_error.
Proof.
  intros Hin Hs. induction cells as [|d cells IH]; [easy|].
  cbn [aim_formatter.age_column].
  destruct (aim_formatter.to_datetime parse_date d) as [e|t] eqn:E.
  - now rewrite (to_datetime_error parse_date d e E).
  - destruct Hin as [->|Hin].
    + unfold aim_formatter.to_datetime in E. rewrite Hs in E. discriminate.
    + now rewrite (IH Hin).
Qed.

(** The first column named Date Created after the renaming is the date
    column that was found. *)
Lemma renamed_date_index (work_col desc_col date_col : text) (cols : list text) :
  aim_formatter.find_col cols (txt "date") = Some date_col ->
  index_of (txt "Date Created")
           (map (aim_formatter.rename_column work_col desc_col date_col) cols)
  = index_of date_col cols.
Proof.
  unfold aim_formatter.find_col.
  induction cols as [|c cols IH]; [discriminate|]. cbn [find map index_of].
  destruct (contains (lower (txt "date")) (lower c)) eqn:Ec.
  - intros H. inversion H; subst c. unfold aim_formatter.rename_column.
    now rewrite (proj2 (text_eqb_eq date_col date_col) eq_refl).
  - intros H. pose proof (find_some _ _ H) as [_ Hd]. cbv beta in Hd.
    assert (E1 : text_eqb c date_col = false).
    { destruct (text_eqb c date_col) eqn:E; [|reflexivity].
      apply text_eqb_eq in E. subst c. congruence. }
    assert (E2 : text_eqb (aim_formatter.rename_column work_col desc_col date_col c)
                          (txt "Date Created") = false).
    { unfold aim_formatter.rename_column. rewrite E1.
      destruct (text_eqb c desc_col); [reflexivity|].
      destruct (text_eqb c work_col); [reflexivity|].
      destruct (text_eqb c (txt "Date Created")) eqn:E; [|reflexivity].
      apply text_eqb_eq in E. subst c. discriminate Ec. }
    rewrite E1, E2. now rewrite (IH H).
Qed.

(** One date text that cannot be parsed ends [df["Date Created"].apply],
    be the name borne by one column or by several. *)
Lemma date_created_ages_raises (parse_date : text -> option timestamp) (today : Z)
  (work_col desc_col date_col : text) (cols : list text) (rows : list (list cell))
  (r : list cell) (s : text) :
  aim_formatter.find_col cols (txt "date") = Some date_col ->
  In r rows -> cell_of cols date_col r = Str s -> parse_date s = None ->
  aim_formatter.date_created_ages parse_date today
    (map (aim_formatter.rename_column work_col desc_col date_col) cols) rows
  = inl parse_error.
Proof.
  intros Hd Hr Hc Hs. unfold aim_formatter.date_created_ages, select.
  rewrite (renamed_date_index _ _ _ _ Hd).
  unfold cell_of in Hc.
  destruct (index_of date_col cols) as [i|]; [|discriminate].
  assert (E : aim_formatter.age_column parse_date today
                (map (fun r0 => nth i r0 NaN) rows) = inl parse_error).
  { apply (age_column_raises parse_date today _ s); [|exact Hs].
    rewrite <- Hc. exact (in_map (fun r0 => nth i r0 NaN) rows r Hr). }
  destruct (occurrences (txt "Date Created")
              (map (aim_formatter.rename_column work_col desc_col date_col) cols) =? 1).
  - exact E.
  - destruct rows as [|r0 rows]; [easy|]. now rewrite E.
Qed.

(** C8.  Both age functions return [None] for a missing start date.  In
    [aim_report_automation] a row whose date cell is missing or is no date
    gets the age [None] and the batch is processed to the end, provided
    it has rows, headers that stay distinct once cleaned and no value
    under the name of a rank column (without these the module refuses the
    batch whatever its dates).  In
    [aim_formatter] the date is parsed before the age function is called:
    a missing cell gives [None], but one cell whose text is no date raises
    and ends the whole batch. *)
Theorem unparseable_dates :
  (forall e : Z,
      _business_days NaT e = None /\
      aim_formatter.calculate_business_days NaT e = None) /\
  (forall (parse_date : text -> option timestamp) (today : Z) (df : DataFrame)
          (desc_col date_col : text),
      let cols := _clean_headers (columns df) in
      data df <> [] ->
      distinct cols = true ->
      rank_named_values cols (data df) = false ->
      _find_column cols description_terms = Some desc_col ->
      date_for_age cols = Some date_col ->
      exists rows,
        prepare_dataframe parse_date today df = inr rows /\
        Permutation (map (enrich parse_date today cols desc_col) (data df)) rows /\
        forall r, In r (data df) ->
                  no_date parse_date (cell_of cols date_col r) ->
                  Age (enrich parse_date today cols desc_col r) = None) /\
  (forall (parse_date : text -> option timestamp) (today : Z),
      aim_formatter.age_column parse_date today [NaN] = inr [None]) /\
  (forall (parse_date : text -> option timestamp) (today : Z) (df : DataFrame)
          (work_col desc_col date_col : text) (r : list cell) (s : text),
      let cols := map clean_header (columns df) in
      aim_formatter.find_col cols (txt "work") = Some work_col ->
      aim_formatter.find_col cols (txt "desc") = Some desc_col ->
      aim_formatter.find_col cols (txt "date") = Some date_col ->
      In r (data df) ->
      cell_of cols date_col r = Str s -> parse_date s = None ->
      aim_formatter.run_aim_formatter parse_date today df = inl parse_error).
Proof.
  split; [|split; [|split]].
  - intros e. split; reflexivity.
  - intros parse_date today df desc_col date_col cols Hne Hdis Hrank Hdesc Hdate.
    eexists. split; [|split].
    + apply (prepare_dataframe_eq parse_date today df desc_col); assumption.
    + apply sort_values_perm.
    + intros r _ Hc. now apply enrich_age_no_date with (date_col := date_col).
  - reflexivity.
  - intros parse_date today df work_col desc_col date_col r s cols Hw Hd Hdt Hr Hc Hs.
    unfold aim_formatter.run_aim_formatter. fold cols. rewrite Hw, Hd, Hdt.
    cbv zeta.
    now rewrite (date_created_ages_raises parse_date today work_col desc_col date_col
                   cols (data df) r s Hdt Hr Hc Hs).
Qed.

Lemma unparseable_dates_witness :
  (exists rows,
      prepare_dataframe one_date 19730 unconfirmed = inr rows /\
      forall r, In r (data unconfirmed) ->
        Age (enrich one_date 19730 (_clean_headers (columns unconfirmed))
                    (txt "Description") r) = None) /\
  aim_formatter.run_aim_formatter one_date 19730 unconfirmed = inl parse_error.
Proof.
  destruct unparseable_dates as (_ & HA & _ & HB). split.
  - assert (Hne : data unconfirmed <> []) by discriminate.
    destruct (HA one_date 19730%Z unconfirmed (txt "Description")
                (txt "Date Created") Hne eq_refl eq_refl eq_refl eq_refl)
      as (rows & E & _ & Hage).
    exists rows. split; [exact E|].
    intros r Hr. apply Hage; [exact Hr|].
    destruct Hr as [<-|[]]. right. exists (txt "to be confirmed").
    split; reflexivity.
  - apply (HB one_date 19730%Z unconfirmed
              (txt "Work Order") (txt "Description") (txt "Date Created")
              [Str (txt "WO-1"); Str (txt "Room: 204"); Str (txt "to be confirmed")]
              (txt "to be confirmed")); try reflexivity.
    now left.
Defined.

(* ------------------------------------------------------------------ *)
(** * Further properties of the code *)

(** ** Blank input, case and white space *)

Lemma lstrip_all_space (d : text) : forallb is_space d = true -> lstrip d = [].
Proof.
  induction d as [|c d IH]; [reflexivity|]. cbn [forallb lstrip].
  rewrite andb_true_iff. intros [-> H]. auto.
Qed.

Lemma strip_all_space (d : text) : forallb is_space d = true -> strip d = [].
Proof. intros H. unfold strip. now rewrite lstrip_all_space. Qed.

Lemma lstrip_head (s : text) : stops is_space (lstrip s) = true.
Proof.
  induction s as [|x s IH]; [reflexivity|]. cbn [lstrip].
  destruct (is_space x) eqn:E; [exact IH|]. cbn [stops]. now rewrite E.
Qed.

Lemma lstrip_fixed (s : text) : stops is_space s = true -> lstrip s = s.
Proof.
  destruct s as [|c s]; [reflexivity|]. cbn [stops lstrip].
  now destruct (is_space c).
Qed.

Lemma lstrip_idem (s : text) : lstrip (lstrip s) = lstrip s.
Proof. apply lstrip_fixed, lstrip_head. Qed.

Lemma rstrip_idem (s : text) : rstrip (rstrip s) = rstrip s.
Proof. unfold rstrip. now rewrite rev_involutive, lstrip_idem. Qed.

Lemma strip_idem (s : text) : strip (strip s) = strip s.
Proof.
  unfold strip. rewrite (lstrip_fixed (rstrip (lstrip s))).
  - apply rstrip_idem.
  - apply rstrip_stops, lstrip_head.
Qed.

Lemma upper_char_idem (c : ascii) : to_upper (to_upper c) = to_upper c.
Proof. destruct c as [[] [] [] [] [] [] [] []]; reflexivity. Qed.

Lemma upper_idem (s : text) : upper (upper s) = upper s.
Proof.
  unfold upper. rewrite map_map. apply map_ext. intros c. apply upper_char_idem.
Qed.

Lemma search_empty_none (r : regex) :
  mtch true r None [] [] accept = None -> re_search true r [] = None.
Proof. intros H. unfold re_search. cbn [search_from]. now rewrite H. Qed.

(** X1.  A description that is missing, empty or made of white space only
    gives the empty floor and the empty room, in both modules. *)
Theorem blank_description :
  _extract_floor_room NaN = ([], []) /\
  aim_formatter.extract_floor_room NaN = ([], []) /\
  forall d : text,
    forallb is_space d = true ->
    _extract_floor_room (Str d) = ([], []) /\
    aim_formatter.extract_floor_room (Str d) = ([], []).
Proof.
  split; [reflexivity|]. split; [reflexivity|].
  intros d H. split.
  - unfold _extract_floor_room. now rewrite (strip_all_space d H).
  - unfold aim_formatter.extract_floor_room.
    rewrite (strip_all_space d H). now destruct (is_empty d).
Qed.

Lemma blank_description_witness :
  _extract_floor_room (Str (txt "   ")) = ([], []) /\
  aim_formatter.extract_floor_room (Str (txt "   ")) = ([], []).
Proof.
  destruct blank_description as (_ & _ & H). apply H. reflexivity.
Defined.

(** The rank functions read a label through its upper-cased, stripped
    form only. *)
Lemma strip_nil_empty (v : text) :
  is_empty v || is_empty (strip v) = is_empty (strip v).
Proof. now destruct v. Qed.

Lemma automation_floor_rank_val (a b : text) :
  strip (upper a) = strip (upper b) -> _floor_rank a = _floor_rank b.
Proof.
  intros H. unfold _floor_rank.
  now rewrite (strip_upper_empty a), (strip_upper_empty b), H.
Qed.

Lemma automation_room_rank_val (a b : text) :
  strip (upper a) = strip (upper b) -> _room_rank a = _room_rank b.
Proof.
  intros H. unfold _room_rank.
  now rewrite (strip_upper_empty a), (strip_upper_empty b), H.
Qed.

Lemma building_rank_val (v : text) :
  (if is_empty v then [] else strip (upper v)) = strip (upper v).
Proof. now destruct v. Qed.

Lemma automation_building_rank_val (a b : text) :
  strip (upper a) = strip (upper b) -> _building_rank a = _building_rank b.
Proof.
  intros H. unfold _building_rank. now rewrite !building_rank_val, H.
Qed.

Lemma formatter_floor_rank_val (a b : text) :
  strip (upper a) = strip (upper b) ->
  aim_formatter.floor_rank a = aim_formatter.floor_rank b.
Proof.
  intros H. unfold aim_formatter.floor_rank.
  now rewrite !strip_nil_empty, (strip_upper_empty a), (strip_upper_empty b), H.
Qed.

Lemma formatter_room_rank_val (a b : text) :
  strip (upper a) = strip (upper b) ->
  aim_formatter.room_rank a = aim_formatter.room_rank b.
Proof.
  intros H. unfold aim_formatter.room_rank.
  now rewrite !strip_nil_empty, (strip_upper_empty a), (strip_upper_empty b), H.
Qed.

(** X2.  Two labels that differ in the case of their letters and in the
    white space around them only have the same building, floor and room
    rank in [aim_report_automation] and the same floor and room rank in
    [aim_formatter]. *)
Theorem ranks_ignore_case_and_space (a b : text) :
  strip (upper a) = strip (upper b) ->
  _building_rank a = _building_rank b /\
  _floor_rank a = _floor_rank b /\
  _room_rank a = _room_rank b /\
  aim_formatter.floor_rank a = aim_formatter.floor_rank b /\
  aim_formatter.room_rank a = aim_formatter.room_rank b.
Proof.
  intros H. repeat split.
  - now apply automation_building_rank_val.
  - now apply automation_floor_rank_val.
  - now apply automation_room_rank_val.
  - now apply formatter_floor_rank_val.
  - now apply formatter_room_rank_val.
Qed.

Lemma ranks_ignore_case_and_space_witness :
  _building_rank (txt " web ") = _building_rank (txt "WEB") /\
  _floor_rank (txt " web ") = _floor_rank (txt "WEB") /\
  _room_rank (txt " web ") = _room_rank (txt "WEB") /\
  aim_formatter.floor_rank (txt " web ") = aim_formatter.floor_rank (txt "WEB") /\
  aim_formatter.room_rank (txt " web ") = aim_formatter.room_rank (txt "WEB").
Proof. apply ranks_ignore_case_and_space. reflexivity. Defined.

(** ** The rank of a building *)

Lemma index_of_building (val : text) :
  index_of val BUILDING_ORDER =
  if text_eqb (txt "ETB") val then Some 0
  else if text_eqb (txt "WEB") val then Some 1
  else if text_eqb (txt "HEB") val then Some 2
  else if text_eqb [] val then Some 3
  else None.
Proof.
  unfold BUILDING_ORDER. cbn [index_of].
  destruct (text_eqb (txt "ETB") val); [reflexivity|].
  destruct (text_eqb (txt "WEB") val); [reflexivity|].
  destruct (text_eqb (txt "HEB") val); [reflexivity|].
  destruct (text_eqb [] val); reflexivity.
Qed.

(** X3.  The building rank is 0, 1, 2 for ETB, WEB, HEB (read without
    case and surrounding white space), 3 for a blank building and 5 for
    every other one; it is never 4, so blank buildings sort after the
    three known ones and before all the others. *)
Theorem building_rank_values (v : text) :
  let val := strip (upper v) in
  (_building_rank v = 0%Z <-> val = txt "ETB") /\
  (_building_rank v = 1%Z <-> val = txt "WEB") /\
  (_building_rank v = 2%Z <-> val = txt "HEB") /\
  (_building_rank v = 3%Z <-> val = []) /\
  (_building_rank v = 5%Z <-> mem_text val BUILDING_ORDER = false) /\
  _building_rank v <> 4%Z.
Proof.
  intros val. unfold _building_rank. rewrite building_rank_val. fold val.
  rewrite index_of_building. unfold mem_text, BUILDING_ORDER. cbn [existsb].
  destruct (text_eqb (txt "ETB") val) eqn:E1.
  { apply text_eqb_eq in E1. rewrite <- E1.
    repeat split; intros; try discriminate; try reflexivity; try easy. }
  destruct (text_eqb (txt "WEB") val) eqn:E2.
  { apply text_eqb_eq in E2. rewrite <- E2.
    repeat split; intros; try discriminate; try reflexivity; try easy. }
  destruct (text_eqb (txt "HEB") val) eqn:E3.
  { apply text_eqb_eq in E3. rewrite <- E3.
    repeat split; intros; try discriminate; try reflexivity; try easy. }
  destruct (text_eqb [] val) eqn:E4.
  { apply text_eqb_eq in E4. rewrite <- E4.
    repeat split; intros; try discriminate; try reflexivity; try easy. }
  assert (N1 : val <> txt "ETB") by (intros ->; discriminate E1).
  assert (N2 : val <> txt "WEB") by (intros ->; discriminate E2).
  assert (N3 : val <> txt "HEB") by (intros ->; discriminate E3).
  assert (N4 : val <> []) by (intros ->; discriminate E4).
  assert (M : text_eqb val (txt "ETB") || (text_eqb val (txt "WEB") ||
              (text_eqb val (txt "HEB") || (text_eqb val [] || false))) = false).
  { repeat (apply orb_false_iff; split); try reflexivity;
      match goal with |- text_eqb ?a ?b = false =>
        destruct (text_eqb a b) eqn:E; [apply text_eqb_eq in E; congruence | reflexivity]
      end. }
  destruct (is_empty val) eqn:Ev; [destruct val; [congruence | discriminate]|].
  repeat split; intros; try discriminate; try reflexivity; try easy.
Qed.

(** ** Numbered floors and rooms *)





















(** ** Finding a column *)

(** X6.  [_find_column] returns a column of the frame whose name contains
    one of the search terms, case ignored, and returns nothing exactly when
    no column contains any of the terms; [find_col] of [aim_formatter] does
    the same for its single term. *)
Theorem find_column_spec (cols : list text) :
  (forall terms,
      (forall c, _find_column cols terms = Some c ->
         In c cols /\
         exists t, In t terms /\ contains (lower t) (lower c) = true) /\
      (_find_column cols terms = None <->
       forall t c, In t terms -> In c cols ->
                   contains (lower t) (lower c) = false)) /\
  (forall part,
      (forall c, aim_formatter.find_col cols part = Some c ->
         In c cols /\ contains (lower part) (lower c) = true) /\
      (aim_formatter.find_col cols part = None <->
       forall c, In c cols -> contains (lower part) (lower c) = false)).
Proof.
  split.
  - induction terms as [|t terms [IH1 IH2]].
    + split; [discriminate|]. split; [intros _ t c [] | reflexivity].
    + cbn [_find_column].
      destruct (find (fun col => contains (lower t) (lower col)) cols) as [c0|] eqn:Ef.
      * destruct (find_some _ _ Ef) as [Hin Hc]. split.
        -- intros c H. inversion H; subst. split; [exact Hin|].
           exists t. split; [now left | exact Hc].
        -- split; [discriminate|]. intros H.
           rewrite (H t c0 (or_introl eq_refl) Hin) in Hc. discriminate.
      * rewrite (lower_cols_get_dead _ _ Ef). split.
        -- intros c H. destruct (IH1 c H) as [Hin (t' & Ht' & Hc)].
           split; [exact Hin|]. exists t'. split; [now right | exact Hc].
        -- rewrite IH2. split.
           ++ intros H t' c [<-|Ht'] Hc; [exact (find_none _ _ Ef c Hc) | now apply H].
           ++ intros H t' c Ht' Hc. apply H; [now right | exact Hc].
  - intros part. unfold aim_formatter.find_col. split.
    + intros c H. exact (find_some _ _ H).
    + split.
      * intros H c Hc. exact (find_none _ _ H c Hc).
      * intros H.
        destruct (find (fun c => contains (lower part) (lower c)) cols) as [c|] eqn:E;
          [|reflexivity].
        destruct (find_some _ _ E) as [Hin Hc]. rewrite (H c Hin) in Hc. discriminate.
Qed.

(** ** Cleaning a header *)

Lemma forallb_lstrip (p : ascii -> bool) (s : text) :
  forallb p s = true -> forallb p (lstrip s) = true.
Proof.
  induction s as [|c s IH]; [reflexivity|]. intros H. cbn [lstrip].
  destruct (is_space c); [|exact H].
  cbn [forallb] in H. apply andb_true_iff in H as [_ H]. auto.
Qed.

Lemma forallb_rev (p : ascii -> bool) (s : text) :
  forallb p s = true -> forallb p (rev s) = true.
Proof.
  rewrite !forallb_forall. intros H c Hc. apply H. now apply in_rev.
Qed.

Lemma forallb_strip (p : ascii -> bool) (s : text) :
  forallb p s = true -> forallb p (strip s) = true.
Proof.
  intros H. unfold strip, rstrip.
  now apply forallb_rev, forallb_lstrip, forallb_rev, forallb_lstrip.
Qed.

Lemma forallb_filter (p : ascii -> bool) (s : text) :
  forallb p (filter p s) = true.
Proof.
  apply forallb_forall. intros c Hc. now apply filter_In in Hc.
Qed.

Lemma filter_fixed (p : ascii -> bool) (s : text) :
  forallb p s = true -> filter p s = s.
Proof.
  induction s as [|c s IH]; [reflexivity|]. cbn [forallb filter].
  rewrite andb_true_iff. intros [-> H]. f_equal. auto.
Qed.

(** X7.  A cleaned header holds printable ASCII characters only, has no
    white space at either end, and cleaning it again changes nothing. *)
Theorem clean_header_canonical (c : text) :
  forallb (in_range 32 126) (clean_header c) = true /\
  strip (clean_header c) = clean_header c /\
  clean_header (clean_header c) = clean_header c.
Proof.
  assert (H : forallb (in_range 32 126) (clean_header c) = true).
  { unfold clean_header. apply forallb_strip, forallb_filter. }
  split; [exact H|]. split.
  - unfold clean_header. apply strip_idem.
  - unfold clean_header at 1. rewrite (filter_fixed _ _ H).
    unfold clean_header. apply strip_idem.
Qed.

(** ** More on the business-day count *)

Open Scope Z_scope.

Lemma weekdays_bounds (n : nat) (d : Z) : 0 <= weekdays n d <= Z.of_nat n.
Proof.
  revert d. induction n as [|n IH]; intros d; [cbn; lia|].
  cbn [weekdays]. specialize (IH (d + 1)). destruct (is_weekday d); lia.
Qed.

Lemma busday_count_weekdays (s e : Z) :
  s <= e -> busday_count s e = weekdays (Z.to_nat (e - s)) s.
Proof. intros H. now rewrite busday_count_forward, weekdays_between_eq. Qed.

(** Backwards, the count is the negated count over the days after the end
    day up to the start day. *)
Lemma busday_count_backward (s e : Z) :
  e < s -> busday_count s e = - busday_count (e + 1) (s + 1).
Proof.
  intros H. unfold busday_count.
  destruct (Z.eqb_spec s e) as [E|_]; [lia|].
  destruct (Z.eqb_spec (e + 1) (s + 1)) as [E|_]; [lia|].
  destruct (Z.ltb_spec e s) as [_|E]; [|lia].
  destruct (Z.ltb_spec (s + 1) (e + 1)) as [E|_]; [lia|].
  reflexivity.
Qed.

Lemma age_functions_agree (t : timestamp) (e : Z) :
  aim_formatter.calculate_business_days t e = _business_days t e.
Proof.
  destruct t as [|s]; [reflexivity|].
  unfold aim_formatter.calculate_business_days, _business_days.
  now destruct (Z.eqb_spec (busday_count s e) 0) as [->|_].
Qed.

(** X8.  For a start day that is a date, both age functions return the
    same integer, never the unavailable marker; it lies between 0 and the
    number of calendar days when the start is not after the end, and
    between minus that number and 0 when it is. *)
Theorem age_bounds (s e : Z) :
  exists n,
    _business_days (Day s) e = Some n /\
    aim_formatter.calculate_business_days (Day s) e = Some n /\
    (s <= e -> 0 <= n <= e - s) /\
    (e < s -> e - s <= n <= 0).
Proof.
  exists (busday_count s e). split; [reflexivity|].
  split; [now rewrite age_functions_agree|]. split.
  - intros H. rewrite busday_count_weekdays by assumption.
    pose proof (weekdays_bounds (Z.to_nat (e - s)) s). lia.
  - intros H. rewrite busday_count_backward by assumption.
    rewrite busday_count_weekdays by lia.
    pose proof (weekdays_bounds (Z.to_nat (s + 1 - (e + 1))) (e + 1)). lia.
Qed.

(** X9.  Ages add up over an intermediate day: for start <= middle <= end
    the age from start to end is the age from start to middle plus the
    age from middle to end, in both modules. *)
Theorem age_additive (s m e a b : Z) :
  s <= m -> m <= e ->
  _business_days (Day s) m = Some a ->
  _business_days (Day m) e = Some b ->
  _business_days (Day s) e = Some (a + b) /\
  aim_formatter.calculate_business_days (Day s) e = Some (a + b).
Proof.
  intros H1 H2 Ha Hb. rewrite age_functions_agree.
  unfold _business_days in *. inversion Ha; inversion Hb; subst.
  assert (E : busday_count s e = busday_count s m + busday_count m e).
  { rewrite !busday_count_weekdays by lia.
    replace (Z.to_nat (e - s)) with (Z.to_nat (m - s) + Z.to_nat (e - m))%nat by lia.
    rewrite weekdays_add. do 2 f_equal. lia. }
  now rewrite E.
Qed.

Lemma age_additive_witness :
  _business_days (Day 19723) 19737 = Some (3 + 7) /\
  aim_formatter.calculate_business_days (Day 19723) 19737 = Some (3 + 7).
Proof.
  apply (age_additive 19723 19726 19737); try reflexivity; lia.
Defined.

(** X10.  Whole weeks count five days each, whatever the day of the week
    of the start: the age from a day to the day 7k days later is 5k. *)
Theorem age_whole_weeks (s k : Z) :
  0 <= k ->
  _business_days (Day s) (s + 7 * k) = Some (5 * k) /\
  aim_formatter.calculate_business_days (Day s) (s + 7 * k) = Some (5 * k).
Proof.
  intros Hk. rewrite age_functions_agree. unfold _business_days.
  rewrite busday_count_weekdays by lia.
  replace (Z.to_nat (s + 7 * k - s)) with (7 * Z.to_nat k)%nat by lia.
  rewrite weekdays_weeks. split; do 2 f_equal; lia.
Qed.

Lemma age_whole_weeks_witness :
  _business_days (Day 19725) (19725 + 7 * 3) = Some (5 * 3) /\
  aim_formatter.calculate_business_days (Day 19725) (19725 + 7 * 3) = Some (5 * 3).
Proof. apply age_whole_weeks. lia. Defined.

(** X11.  A work order dated on a Saturday or a Sunday has the age of one
    dated on the Monday that follows, for every end day from that Monday
    on. *)
Theorem weekend_start (s e : Z) :
  (day_of_week s = 5 -> s + 2 <= e ->
   _business_days (Day s) e = _business_days (Day (s + 2)) e /\
   aim_formatter.calculate_business_days (Day s) e
   = aim_formatter.calculate_business_days (Day (s + 2)) e) /\
  (day_of_week s = 6 -> s + 1 <= e ->
   _business_days (Day s) e = _business_days (Day (s + 1)) e /\
   aim_formatter.calculate_business_days (Day s) e
   = aim_formatter.calculate_business_days (Day (s + 1)) e).
Proof.
  split; intros Hd Hle; rewrite !age_functions_agree; unfold _business_days;
    (split; f_equal).
  - rewrite !busday_count_weekdays by lia.
    replace (Z.to_nat (e - s)) with (2 + Z.to_nat (e - (s + 2)))%nat by lia.
    rewrite weekdays_add. cbn [weekdays Z.of_nat]. unfold is_weekday.
    rewrite (day_of_week_shift s 1), Hd. cbn. lia.
  - rewrite !busday_count_weekdays by lia.
    replace (Z.to_nat (e - s)) with (2 + Z.to_nat (e - (s + 2)))%nat by lia.
    rewrite weekdays_add. cbn [weekdays Z.of_nat]. unfold is_weekday.
    rewrite (day_of_week_shift s 1), Hd. cbn. lia.
  - rewrite !busday_count_weekdays by lia.
    replace (Z.to_nat (e - s)) with (1 + Z.to_nat (e - (s + 1)))%nat by lia.
    rewrite weekdays_add. cbn [weekdays Z.of_nat]. unfold is_weekday.
    rewrite Hd. cbn. lia.
  - rewrite !busday_count_weekdays by lia.
    replace (Z.to_nat (e - s)) with (1 + Z.to_nat (e - (s + 1)))%nat by lia.
    rewrite weekdays_add. cbn [weekdays Z.of_nat]. unfold is_weekday.
    rewrite Hd. cbn. lia.
Qed.

Lemma weekend_start_witness :
  _business_days (Day 19728) 19737 = _business_days (Day (19728 + 2)) 19737 /\
  aim_formatter.calculate_business_days (Day 19728) 19737
  = aim_formatter.calculate_business_days (Day (19728 + 2)) 19737.
Proof.
  destruct (weekend_start 19728 19737) as [H _]. apply H; [reflexivity | lia].
Defined.

Close Scope Z_scope.

(** ** What the extraction can return *)

Lemma in_all_ascii (c : ascii) : In c all_ascii.
Proof.
  unfold all_ascii. rewrite <- (ascii_nat_embedding c). apply in_map.
  apply in_seq. pose proof (nat_ascii_bounded c). lia.
Qed.

Lemma class_sub_ok (f q : ascii -> bool) (c : ascii) :
  class_sub f q = true -> f c = true -> q c = true.
Proof.
  unfold class_sub. rewrite forallb_forall. intros H Hf.
  specialize (H c (in_all_ascii c)). now rewrite Hf in H.
Qed.

Lemma mtch_consumes (A : Type) (ic : bool) (q : ascii -> bool) (r : regex) :
  consumes ic q r = true ->
  forall prev s g (k : option ascii -> text -> captures -> option A) x,
    mtch ic r prev s g k = Some x ->
    exists p' m s', s = m ++ s' /\ forallb q m = true /\ k p' s' g = Some x.
Proof.
  induction r as [|p|cs|r1 IH1 r2 IH2|r1 IH1 r2 IH2|cs lo hi|n r1 IH1|];
    cbn [consumes]; intros Hc prev s g k x H; cbn [mtch] in H.
  - now exists prev, [], s.
  - destruct s as [|c s]; [discriminate|].
    destruct (lit_eq ic p c) eqn:E; [|discriminate].
    exists (Some c), [c], s. cbn [forallb app].
    now rewrite (class_sub_ok _ _ c Hc E).
  - destruct s as [|c s]; [discriminate|].
    destruct (cset_mem ic cs c) eqn:E; [|discriminate].
    exists (Some c), [c], s. cbn [forallb app].
    now rewrite (class_sub_ok _ _ c Hc E).
  - apply andb_true_iff in Hc as [H1 H2].
    destruct (IH1 H1 _ _ _ _ _ H) as (p1 & m1 & s1 & -> & Hm1 & Hk1).
    destruct (IH2 H2 _ _ _ _ _ Hk1) as (p2 & m2 & s2 & -> & Hm2 & Hk2).
    exists p2, (m1 ++ m2), s2. rewrite forallb_app, Hm1, Hm2, app_assoc. auto.
  - apply andb_true_iff in Hc as [H1 H2].
    destruct (mtch ic r1 prev s g k) as [y|] eqn:E.
    + inversion H; subst y. exact (IH1 H1 _ _ _ _ _ E).
    + exact (IH2 H2 _ _ _ _ _ H).
  - destruct (rep_greedy_sound _ _ _ _ _ _ _ _ H) as (p' & m & s' & -> & Hm & Hk).
    exists p', m, s'. repeat split; auto.
    rewrite forallb_forall in *. intros c Hin.
    exact (class_sub_ok _ _ c Hc (Hm c Hin)).
  - discriminate.
  - destruct (word_boundary prev s); [|discriminate]. now exists prev, [], s.
Qed.

Lemma mtch_one_group (A : Type) (ic : bool) (q : ascii -> bool) (r : regex) :
  one_group ic q r = true ->
  forall prev s g (k : option ascii -> text -> captures -> option A) x,
    mtch ic r prev s g k = Some x ->
    exists p' s' m, forallb q m = true /\ k p' s' ((1, m) :: g) = Some x.
Proof.
  induction r as [|p|cs|r1 IH1 r2 IH2|r1 IH1 r2 IH2|cs lo hi|n r1 IH1|];
    cbn [one_group]; try discriminate; intros Hg prev s g k x H.
  - cbn [mtch] in H. apply orb_true_iff in Hg as [Hg|Hg];
      apply andb_true_iff in Hg as [Ha Hb].
    + destruct (mtch_consumes _ _ _ _ Ha _ _ _ _ _ H) as (p1 & m1 & s1 & _ & _ & Hk1).
      exact (IH2 Hb _ _ _ _ _ Hk1).
    + destruct (IH1 Ha _ _ _ _ _ H) as (p1 & s1 & m & Hm & Hk1).
      destruct (mtch_consumes _ _ _ _ Hb _ _ _ _ _ Hk1) as (p2 & m2 & s2 & _ & _ & Hk2).
      now exists p2, s2, m.
  - destruct n as [|[|n]]; try discriminate. cbn [mtch] in H.
    destruct (mtch_consumes _ _ _ _ Hg _ _ _ _ _ H) as (p' & m & s' & -> & Hm & Hk).
    rewrite firstn_consumed in Hk. now exists p', s', m.
Qed.

(** A successful search returns the text of group 1 alone. *)
Lemma search_one_group (ic : bool) (q : ascii -> bool) (r : regex) (s : text)
  (g : captures) :
  one_group ic q r = true -> re_search ic r s = Some g ->
  exists m, g = [(1, m)] /\ forallb q m = true.
Proof.
  intros Hg. unfold re_search. generalize (@None ascii) as prev.
  induction s as [|c s IH]; intros prev H; rewrite search_from_eq in H.
  - destruct (mtch ic r prev [] [] accept) as [y|] eqn:E; [|discriminate].
    inversion H; subst y.
    destruct (mtch_one_group _ _ _ _ Hg _ _ _ _ _ E) as (p' & s' & m & Hm & Hk).
    exists m. split; [now inversion Hk | exact Hm].
  - destruct (mtch ic r prev (c :: s) [] accept) as [y|] eqn:E.
    + inversion H; subst y.
      destruct (mtch_one_group _ _ _ _ Hg _ _ _ _ _ E) as (p' & s' & m & Hm & Hk).
      exists m. split; [now inversion Hk | exact Hm].
    + exact (IH _ H).
Qed.

Lemma first_match_class (q : ascii -> bool) (patterns : list regex) (desc : text) :
  forallb (one_group true q) patterns = true ->
  forallb q (first_match true patterns desc) = true.
Proof.
  induction patterns as [|p ps IH]; [reflexivity|]. cbn [forallb first_match].
  rewrite andb_true_iff. intros [Hp Hps].
  destruct (re_search true p desc) as [g|] eqn:E; [|auto].
  destruct (search_one_group _ _ _ _ _ Hp E) as (m & -> & Hm). exact Hm.
Qed.

Lemma search_group1_class (q : ascii -> bool) (r : regex) (desc : text) :
  one_group true q r = true ->
  forallb q (aim_formatter.search_group1 r desc) = true.
Proof.
  intros Hr. unfold aim_formatter.search_group1.
  destruct (re_search true r desc) as [g|] eqn:E; [|reflexivity].
  destruct (search_one_group _ _ _ _ _ Hr E) as (m & -> & Hm).
  now apply forallb_strip.
Qed.

Lemma forallb_firstn (p : ascii -> bool) (n : nat) (s : text) :
  forallb p s = true -> forallb p (firstn n s) = true.
Proof.
  revert n. induction s as [|c s IH]; intros [|n]; try reflexivity.
  cbn [forallb firstn]. rewrite !andb_true_iff. intros [-> H]. auto.
Qed.

Lemma automation_fallback_class (f r : text) :
  forallb is_alnum f = true -> forallb is_alnum r = true ->
  forallb is_alnum (normalize_floor (floor_fallback f r)) = true.
Proof.
  intros Hf Hr.
  assert (Hfb : forallb is_alnum (floor_fallback f r) = true).
  { unfold floor_fallback.
    repeat match goal with
           | |- context [if ?c then _ else _] => destruct c
           end; auto using forallb_firstn. }
  unfold normalize_floor.
  repeat match goal with
         | |- context [if ?c then _ else _] => destruct c
         end; auto.
Qed.

Lemma mapping_get_class (c : ascii) :
  forallb is_alnum (aim_formatter.mapping_get c) = true.
Proof. destruct c as [[] [] [] [] [] [] [] []]; reflexivity. Qed.

Lemma formatter_fallback_class (f r : text) :
  forallb is_alnum f = true -> forallb is_alnum r = true ->
  forallb is_alnum (aim_formatter.normalize_floor (aim_formatter.floor_fallback f r))
  = true.
Proof.
  intros Hf Hr.
  assert (Hfb : forallb is_alnum (aim_formatter.floor_fallback f r) = true).
  { unfold aim_formatter.floor_fallback.
    destruct (is_empty f && negb (is_empty r)); [|exact Hf].
    match goal with
    | |- context [if ?c then _ else _] => destruct c
    end; [now apply forallb_firstn|].
    destruct r; [reflexivity | apply mapping_get_class]. }
  unfold aim_formatter.normalize_floor.
  repeat match goal with
         | |- context [if ?c then _ else _] => destruct c
         end; auto.
Qed.

(** X12.  For a description in ASCII, the floor and the room that either
    module extracts are made of ASCII letters and digits only: no white
    space, no punctuation. *)
Theorem extraction_is_alphanumeric (description : cell) :
  ascii_cell description = true ->
  (forallb is_alnum (fst (_extract_floor_room description)) = true /\
   forallb is_alnum (snd (_extract_floor_room description)) = true) /\
  (forallb is_alnum (fst (aim_formatter.extract_floor_room description)) = true /\
   forallb is_alnum (snd (aim_formatter.extract_floor_room description)) = true).
Proof.
  intros _. destruct description as [|d]; [repeat split|].
  assert (HF : forallb is_alnum (first_match true floor_patterns (strip d)) = true).
  { apply first_match_class. vm_compute. reflexivity. }
  assert (HR : forallb is_alnum (first_match true room_patterns (strip d)) = true).
  { apply first_match_class. vm_compute. reflexivity. }
  assert (GF : forallb is_alnum
                 (aim_formatter.search_group1 aim_formatter.floor_pattern (strip d)) = true).
  { apply search_group1_class. vm_compute. reflexivity. }
  assert (GR : forallb is_alnum
                 (aim_formatter.search_group1 aim_formatter.room_pattern (strip d)) = true).
  { apply search_group1_class. vm_compute. reflexivity. }
  split.
  - unfold _extract_floor_room. destruct (is_empty (strip d)); [now split|].
    cbv zeta. cbn [fst snd]. split; [now apply automation_fallback_class | exact HR].
  - unfold aim_formatter.extract_floor_room. destruct (is_empty d); [now split|].
    cbv zeta. cbn [fst snd]. split; [now apply formatter_fallback_class | exact GR].
Qed.

Lemma extraction_is_alphanumeric_witness :
  forallb is_alnum (snd (_extract_floor_room (Str (txt "leak, rm-12b (2nd floor)"))))
  = true /\
  forallb is_alnum (fst (aim_formatter.extract_floor_room (Str (txt "Flr: sf / Rm: 7"))))
  = true.
Proof.
  destruct (extraction_is_alphanumeric (Str (txt "leak, rm-12b (2nd floor)")) eq_refl)
    as [[_ HA] _].
  destruct (extraction_is_alphanumeric (Str (txt "Flr: sf / Rm: 7")) eq_refl)
    as [_ [HB _]].
  split; [exact HA | exact HB].
Defined.

Lemma automation_normalize_nonempty (f : text) :
  f <> [] -> normalize_floor f <> [].
Proof.
  intros H. unfold normalize_floor.
  repeat match goal with
         | |- context [if ?c then _ else _] => destruct c
         end; try discriminate; exact H.
Qed.

Lemma formatter_normalize_nonempty (f : text) :
  f <> [] -> aim_formatter.normalize_floor f <> [].
Proof.
  intros H. unfold aim_formatter.normalize_floor.
  repeat match goal with
         | |- context [if ?c then _ else _] => destruct c
         end; try discriminate; exact H.
Qed.

Lemma automation_fallback_nonempty (f : text) (c : ascii) (rest : text) :
  is_digit c = true -> floor_fallback f (c :: rest) <> [].
Proof.
  intros Hc. unfold floor_fallback. destruct f as [|x f]; [|discriminate].
  cbn [is_empty negb andb].
  destruct ((2 <=? length (c :: rest)) && isdigit (firstn 2 (c :: rest))) eqn:E.
  - destruct (mem_text (firstn 2 (c :: rest)) [txt "10"; txt "11"; txt "12"]);
      [|discriminate].
    apply andb_true_iff in E as [E _]. destruct rest; [discriminate E | discriminate].
  - cbn [firstn isdigit forallb]. rewrite Hc. discriminate.
Qed.

Lemma formatter_fallback_nonempty (f : text) (c : ascii) (rest : text) :
  is_digit c = true -> aim_formatter.floor_fallback f (c :: rest) <> [].
Proof.
  intros Hc. unfold aim_formatter.floor_fallback. destruct f as [|x f]; [|discriminate].
  cbn [is_empty negb andb].
  match goal with
  | |- context [if ?b then _ else _] => destruct b eqn:E
  end.
  - apply andb_true_iff in E as [E _]. apply andb_true_iff in E as [E _].
    destruct rest; [discriminate E | discriminate].
  - unfold aim_formatter.mapping_get. rewrite Hc.
    destruct (ascii_eqb c "0"); discriminate.
Qed.

(** X13.  Whenever the extracted room starts with a digit, the extracted
    floor is not empty, in both modules: a numbered room always gets a
    floor, from an explicit marker or from its leading digits. *)
Theorem numbered_room_has_floor (description : cell) (c : ascii) (rest : text) :
  is_digit c = true ->
  (snd (_extract_floor_room description) = c :: rest ->
   fst (_extract_floor_room description) <> []) /\
  (snd (aim_formatter.extract_floor_room description) = c :: rest ->
   fst (aim_formatter.extract_floor_room description) <> []).
Proof.
  intros Hc. destruct description as [|d]; [split; discriminate|]. split.
  - unfold _extract_floor_room. destruct (is_empty (strip d)); [discriminate|].
    cbv zeta. cbn [fst snd]. intros ->.
    now apply automation_normalize_nonempty, automation_fallback_nonempty.
  - unfold aim_formatter.extract_floor_room. destruct (is_empty d); [discriminate|].
    cbv zeta. cbn [fst snd]. intros ->.
    now apply formatter_normalize_nonempty, formatter_fallback_nonempty.
Qed.

Lemma numbered_room_has_floor_witness :
  fst (_extract_floor_room (Str (txt "leak in 204"))) <> [] /\
  (snd (aim_formatter.extract_floor_room (Str (txt "Rm: 7"))) = txt "7" ->
   fst (aim_formatter.extract_floor_room (Str (txt "Rm: 7"))) <> []).
Proof.
  destruct (numbered_room_has_floor (Str (txt "leak in 204")) "2" (txt "04") eq_refl)
    as [HA _].
  destruct (numbered_room_has_floor (Str (txt "Rm: 7")) "7" [] eq_refl) as [_ HB].
  split; [apply HA; reflexivity | exact HB].
Defined.

Lemma automation_normalize_spelling (v : text) :
  normalize_floor v <> txt "0" /\
  (upper (normalize_floor v) = txt "B" -> normalize_floor v = txt "B") /\
  (upper (normalize_floor v) = txt "LL" -> normalize_floor v = txt "LL") /\
  (upper (normalize_floor v) = txt "SF" -> normalize_floor v = txt "SF").
Proof.
  unfold normalize_floor, mem_text. cbn [existsb].
  destruct (text_eqb (upper v) (txt "0")) eqn:E0;
    [repeat split; try discriminate; reflexivity|].
  destruct (text_eqb (upper v) (txt "B")) eqn:EB;
    [repeat split; try discriminate; reflexivity|].
  cbn [orb].
  destruct (text_eqb (upper v) (txt "LL")) eqn:EL;
    [repeat split; try discriminate; reflexivity|].
  destruct (text_eqb (upper v) (txt "SF")) eqn:ES;
    [repeat split; try discriminate; reflexivity|].
  repeat split.
  - intros ->. discriminate E0.
  - intros H. rewrite H in EB. discriminate EB.
  - intros H. rewrite H in EL. discriminate EL.
  - intros H. rewrite H in ES. discriminate ES.
Qed.

Lemma formatter_normalize_spelling (v : text) :
  aim_formatter.normalize_floor v <> txt "0" /\
  (upper (aim_formatter.normalize_floor v) = txt "SF" ->
   aim_formatter.normalize_floor v = txt "SF").
Proof.
  unfold aim_formatter.normalize_floor, mem_text. cbn [existsb].
  destruct (text_eqb (upper v) (txt "SF")) eqn:ES;
    [split; try discriminate; reflexivity|].
  destruct (text_eqb v (txt "0")) eqn:E0;
    [split; try discriminate; reflexivity|].
  destruct (text_eqb v (txt "B")) eqn:EB;
    [split; try discriminate; reflexivity|].
  cbn [orb]. split.
  - intros ->. discriminate E0.
  - intros H. rewrite H in ES. discriminate ES.
Qed.

(** X14.  [aim_report_automation] never returns the floor 0 and spells the
    special floors B, LL and SF in capitals whatever the case in the
    description; [aim_formatter] never returns the floor 0 either and
    spells SF in capitals. *)
Theorem special_floors_spelling (description : cell) :
  (fst (_extract_floor_room description) <> txt "0" /\
   (upper (fst (_extract_floor_room description)) = txt "B" ->
    fst (_extract_floor_room description) = txt "B") /\
   (upper (fst (_extract_floor_room description)) = txt "LL" ->
    fst (_extract_floor_room description) = txt "LL") /\
   (upper (fst (_extract_floor_room description)) = txt "SF" ->
    fst (_extract_floor_room description) = txt "SF")) /\
  (fst (aim_formatter.extract_floor_room description) <> txt "0" /\
   (upper (fst (aim_formatter.extract_floor_room description)) = txt "SF" ->
    fst (aim_formatter.extract_floor_room description) = txt "SF")).
Proof.
  destruct description as [|d].
  - repeat split; discriminate.
  - split.
    + unfold _extract_floor_room. destruct (is_empty (strip d)).
      * repeat split; discriminate.
      * cbv zeta. cbn [fst]. apply automation_normalize_spelling.
    + unfold aim_formatter.extract_floor_room. destruct (is_empty d).
      * repeat split; discriminate.
      * cbv zeta. cbn [fst]. apply formatter_normalize_spelling.
Qed.

Lemma special_floors_spelling_witness :
  fst (_extract_floor_room (Str (txt "floor: ll, pump"))) = txt "LL".
Proof.
  destruct (special_floors_spelling (Str (txt "floor: ll, pump")))
    as [(_ & _ & H & _) _].
  apply H. reflexivity.
Defined.

(** ** The outcome of a batch *)


(** X16.  What [prepare_dataframe] returns: the enriched rows of the
    batch, each exactly once, in the order of the composite key (building
    rank, floor rank, room rank); every row has the status Pending, and
    its floor and room are the extraction of its own description cell. *)
Theorem prepare_dataframe_output (parse_date : text -> option timestamp)
  (today : Z) (df : DataFrame) (rows : list row) :
  prepare_dataframe parse_date today df = inr rows ->
  exists desc_col,
    _find_column (_clean_headers (columns df)) description_terms = Some desc_col /\
    Permutation
      (map (enrich parse_date today (_clean_headers (columns df)) desc_col) (data df))
      rows /\
    StronglySorted (le_by key_compare) rows /\
    length rows = length (data df) /\
    forall r, In r rows ->
      Inspection_Status r = txt "Pending" /\
      (Floor r, Room r)
      = _extract_floor_room (cell_of (_clean_headers (columns df)) desc_col (source r)).
Proof.
  intros H. apply prepare_dataframe_inr in H as (dc & Hdc & _ & _ & _ & ->).
  exists dc. split; [exact Hdc|].
  pose (l := map (enrich parse_date today (_clean_headers (columns df)) dc) (data df)).
  assert (P : Permutation l (sort_rows l)) by apply sort_values_perm.
  split; [exact P|]. split; [apply sort_rows_sorted|]. split.
  - etransitivity; [symmetry; exact (Permutation_length P) | apply length_map].
  - intros r Hr. apply (Permutation_in r (Permutation_sym P)) in Hr.
    unfold l in Hr. apply in_map_iff in Hr as (c & <- & _). split; [reflexivity|].
    unfold enrich. cbn [Floor Room source].
    now destruct (_extract_floor_room (cell_of (_clean_headers (columns df)) dc c)).
Qed.

Lemma prepare_dataframe_output_witness :
  exists rows,
    prepare_dataframe one_date 19730 unconfirmed = inr rows /\
    length rows = 1 /\
    forall r, In r rows -> Inspection_Status r = txt "Pending".
Proof.
  exists (sort_rows
            (map (enrich one_date 19730 (_clean_headers (columns unconfirmed))
                         (txt "Description"))
                 (data unconfirmed))).
  assert (E : prepare_dataframe one_date 19730 unconfirmed
              = inr (sort_rows
                       (map (enrich one_date 19730 (_clean_headers (columns unconfirmed))
                                    (txt "Description"))
                            (data unconfirmed)))) by reflexivity.
  destruct (prepare_dataframe_output one_date 19730%Z unconfirmed _ E)
    as (dc & _ & _ & _ & Hlen & Hrows).
  split; [exact E|]. split; [exact Hlen|].
  intros r Hr. now apply Hrows.
Defined.

Lemma date_ok_to_datetime (parse_date : text -> option timestamp) (c : cell) :
  date_ok parse_date c <-> exists t, aim_formatter.to_datetime parse_date c = inr t.
Proof.
  unfold date_ok, aim_formatter.to_datetime. destruct c as [|s].
  - split; [intros _; now exists NaT | now left].
  - destruct (parse_date s) as [t|] eqn:E.
    + split; [intros _; now exists t | intros _; right; now exists s, t].
    + split.
      * intros [H|(s' & t & H & Hp)]; [discriminate|].
        inversion H; subst. congruence.
      * intros [t H]. discriminate.
Qed.

Lemma age_column_inr (parse_date : text -> option timestamp) (today : Z)
  (cells : list cell) :
  (forall c, In c cells -> date_ok parse_date c) ->
  aim_formatter.age_column parse_date today cells
  = inr (map (formatter_age parse_date today) cells).
Proof.
  induction cells as [|c cells IH]; intros H; [reflexivity|].
  cbn [aim_formatter.age_column map]. unfold formatter_age at 1.
  destruct (proj1 (date_ok_to_datetime parse_date c) (H c (or_introl eq_refl)))
    as [t ->].
  now rewrite IH by (intros; apply H; now right).
Qed.

Lemma age_column_dates (parse_date : text -> option timestamp) (today : Z)
  (cells : list cell) (ages : list (option Z)) :
  aim_formatter.age_column parse_date today cells = inr ages ->
  forall c, In c cells -> date_ok parse_date c.
Proof.
  revert ages. induction cells as [|d cells IH]; intros ages H c Hc; [easy|].
  cbn [aim_formatter.age_column] in H.
  destruct (aim_formatter.to_datetime parse_date d) as [e|t] eqn:Ed; [discriminate|].
  destruct (aim_formatter.age_column parse_date today cells) as [e|ages'] eqn:Ea;
    [discriminate|].
  destruct Hc as [<-|Hc].
  - apply date_ok_to_datetime. now exists t.
  - exact (IH ages' eq_refl c Hc).
Qed.

Lemma zip_rows_map (desc : nat) (g : list cell -> option Z) (rs : list (list cell)) :
  aim_formatter.zip_rows desc rs (map g rs)
  = map (fun r => aim_formatter.enrich desc r (g r)) rs.
Proof.
  induction rs as [|r rs IH]; [reflexivity|].
  cbn [map aim_formatter.zip_rows]. now rewrite IH.
Qed.

Lemma once_at_most_iff (renamed : list text) :
  once_at_most renamed = true <->
  ((2 <=? occurrences (txt "Floor") renamed)
   || (2 <=? occurrences (txt "Room") renamed) = false /\
   (2 <=? occurrences (txt "__FloorRank") renamed)
   || (2 <=? occurrences (txt "__RoomRank") renamed) = false).
Proof.
  unfold once_at_most. cbn [forallb].
  destruct (occurrences (txt "Floor") renamed) as [|[|a]];
    destruct (occurrences (txt "Room") renamed) as [|[|b]];
    destruct (occurrences (txt "__FloorRank") renamed) as [|[|c]];
    destruct (occurrences (txt "__RoomRank") renamed) as [|[|d]];
    cbn; intuition congruence.
Qed.

(** When the first part of [run_aim_formatter] goes through, and what it
    hands on. *)
Lemma run_aim_formatter_inr (parse_date : text -> option timestamp)
  (today : Z) (df : DataFrame) (rows : list aim_formatter.row) :
  aim_formatter.run_aim_formatter parse_date today df = inr rows <->
  exists work_col desc_col date_col i j,
    aim_formatter.find_col (map clean_header (columns df)) (txt "work") = Some work_col /\
    aim_formatter.find_col (map clean_header (columns df)) (txt "desc") = Some desc_col /\
    aim_formatter.find_col (map clean_header (columns df)) (txt "date") = Some date_col /\
    select (txt "Date Created")
      (map (aim_formatter.rename_column work_col desc_col date_col)
           (map clean_header (columns df))) = Series i /\
    select (txt "Description")
      (map (aim_formatter.rename_column work_col desc_col date_col)
           (map clean_header (columns df))) = Series j /\
    data df <> [] /\
    once_at_most (map (aim_formatter.rename_column work_col desc_col date_col)
                      (map clean_header (columns df))) = true /\
    (forall r, In r (data df) -> date_ok parse_date (nth i r NaN)) /\
    rows = aim_formatter.sort_rows
             (map (fun r => aim_formatter.enrich j r
                              (formatter_age parse_date today (nth i r NaN)))
                  (data df)).
Proof.
  unfold aim_formatter.run_aim_formatter. cbv zeta.
  set (cols := map clean_header (columns df)).
  destruct (aim_formatter.find_col cols (txt "work")) as [wc|];
    [|split; [discriminate | intros (w & d & t & i & j & H & _); discriminate]].
  destruct (aim_formatter.find_col cols (txt "desc")) as [dc|];
    [|split; [discriminate | intros (w & d & t & i & j & _ & H & _); discriminate]].
  destruct (aim_formatter.find_col cols (txt "date")) as [tc|];
    [|split; [discriminate | intros (w & d & t & i & j & _ & _ & H & _); discriminate]].
  set (renamed := map (aim_formatter.rename_column wc dc tc) cols).
  assert (R : forall P : nat -> nat -> Prop,
            (exists w d t i j,
                Some wc = Some w /\ Some dc = Some d /\ Some tc = Some t /\
                select (txt "Date Created")
                  (map (aim_formatter.rename_column w d t) cols) = Series i /\
                select (txt "Description")
                  (map (aim_formatter.rename_column w d t) cols) = Series j /\
                data df <> [] /\
                once_at_most (map (aim_formatter.rename_column w d t) cols) = true /\
                P i j)
            <-> exists i j,
                select (txt "Date Created") renamed = Series i /\
                select (txt "Description") renamed = Series j /\
                data df <> [] /\ once_at_most renamed = true /\ P i j).
  { intros P. split.
    - intros (w & d & t & i & j & Hw & Hd & Ht & H).
      inversion Hw; inversion Hd; inversion Ht; subst. now exists i, j.
    - intros (i & j & H). now exists wc, dc, tc, i, j. }
  rewrite (R (fun i j =>
                (forall r, In r (data df) -> date_ok parse_date (nth i r NaN)) /\
                rows = aim_formatter.sort_rows
                         (map (fun r => aim_formatter.enrich j r
                                          (formatter_age parse_date today (nth i r NaN)))
                              (data df)))).
  clear R. unfold aim_formatter.date_created_ages.
  destruct (select (txt "Date Created") renamed) as [|i|i] eqn:S1.
  - split; [discriminate | intros (i & j & H & _); discriminate].
  - destruct (aim_formatter.age_column parse_date today
                (map (fun r => nth i r NaN) (data df))) as [e|ages] eqn:Ea.
    + split; [discriminate|]. intros (i' & j & Hi & _ & _ & _ & Hok & _).
      inversion Hi; subst i'.
      rewrite age_column_inr in Ea; [discriminate|].
      intros c Hc. apply in_map_iff in Hc as (r & <- & Hr). now apply Hok.
    + pose proof (age_column_dates parse_date today _ ages Ea) as Hok.
      rewrite (age_column_inr parse_date today _ Hok) in Ea.
      inversion Ea; subst ages. clear Ea. rewrite map_map.
      destruct (select (txt "Description") renamed) as [|j|j] eqn:S2.
      * split; [discriminate | intros (i' & j & _ & H & _); discriminate].
      * destruct (data df) as [|r0 rs] eqn:Ed.
        -- split; [discriminate | intros (i' & j' & _ & _ & H & _); easy].
        -- rewrite zip_rows_map.
           destruct (once_at_most renamed) eqn:Eo.
           ++ apply once_at_most_iff in Eo as [-> ->]. split.
              ** intros H. inversion H; subst rows. exists i, j.
                 repeat split; try discriminate.
                 intros r Hr. apply Hok. exact (in_map (fun r1 => nth i r1 NaN) _ r Hr).
              ** intros (i' & j' & Hi & Hj & _ & _ & _ & ->).
                 inversion Hi; inversion Hj; subst. reflexivity.
           ++ split; [|intros (i' & j' & _ & _ & _ & H & _); discriminate].
              assert (N : ~ ((2 <=? occurrences (txt "Floor") renamed)
                             || (2 <=? occurrences (txt "Room") renamed) = false /\
                             (2 <=? occurrences (txt "__FloorRank") renamed)
                             || (2 <=? occurrences (txt "__RoomRank") renamed) = false)).
              { intros N. apply once_at_most_iff in N. congruence. }
              destruct ((2 <=? occurrences (txt "Floor") renamed)
                        || (2 <=? occurrences (txt "Room") renamed)); [discriminate|].
              destruct ((2 <=? occurrences (txt "__FloorRank") renamed)
                        || (2 <=? occurrences (txt "__RoomRank") renamed));
                [discriminate|].
              exfalso. now apply N.
      * split; [|intros (i' & j' & _ & H & _); discriminate].
        destruct (data df); discriminate.
  - split; [|intros (i' & j & H & _); discriminate].
    destruct (data df) as [|r0 rs]; [discriminate|].
    destruct (aim_formatter.age_column parse_date today
                (map (fun r => nth i r NaN) (r0 :: rs))); discriminate.
Qed.


(** X18.  What the first part of [run_aim_formatter] hands to the
    workbook: one row for every row of the batch, in the order of the key
    (floor rank, room rank); every row has the status Pending, its floor
    and room are the extraction of its cell in the one column that is
    named Description after the renaming, and its age is computed from
    its cell in the one column that is named Date Created. *)
Theorem run_aim_formatter_output (parse_date : text -> option timestamp)
  (today : Z) (df : DataFrame) (rows : list aim_formatter.row) :
  let cols := map clean_header (columns df) in
  aim_formatter.run_aim_formatter parse_date today df = inr rows ->
  exists work_col desc_col date_col i j,
    aim_formatter.find_col cols (txt "work") = Some work_col /\
    aim_formatter.find_col cols (txt "desc") = Some desc_col /\
    aim_formatter.find_col cols (txt "date") = Some date_col /\
    let renamed := map (aim_formatter.rename_column work_col desc_col date_col) cols in
    select (txt "Date Created") renamed = Series i /\
    select (txt "Description") renamed = Series j /\
    StronglySorted (le_by formatter_key_compare) rows /\
    length rows = length (data df) /\
    forall r, In r rows ->
      In (aim_formatter.source r) (data df) /\
      aim_formatter.Inspection_Status r = txt "Pending" /\
      (aim_formatter.Floor r, aim_formatter.Room r)
      = aim_formatter.extract_floor_room (nth j (aim_formatter.source r) NaN) /\
      aim_formatter.Age r
      = formatter_age parse_date today (nth i (aim_formatter.source r) NaN).
Proof.
  intros cols H.
  apply run_aim_formatter_inr in H
    as (w & d & t & i & j & H1 & H2 & H3 & H4 & H5 & _ & _ & _ & ->).
  exists w, d, t, i, j. cbv zeta.
  split; [exact H1|]. split; [exact H2|]. split; [exact H3|].
  split; [exact H4|]. split; [exact H5|].
  split; [apply formatter_sort_rows_sorted|].
  pose (l := map (fun r => aim_formatter.enrich j r
                             (formatter_age parse_date today (nth i r NaN)))
                  (data df)).
  assert (P : Permutation l (aim_formatter.sort_rows l)) by apply sort_values_perm.
  split.
  - etransitivity; [symmetry; exact (Permutation_length P) | apply length_map].
  - intros r Hr. apply (Permutation_in r (Permutation_sym P)) in Hr.
    unfold l in Hr. apply in_map_iff in Hr as (c & <- & Hc).
    unfold aim_formatter.enrich.
    cbn [aim_formatter.source aim_formatter.Floor aim_formatter.Room
         aim_formatter.Age aim_formatter.Inspection_Status].
    repeat split; auto.
    now destruct (aim_formatter.extract_floor_room (nth j c NaN)).
Qed.

(** On a frame whose column Desc Date comes before the column
    Description, the dates are read in the former and the rooms in the
    latter. *)
Lemma run_aim_formatter_output_witness :
  exists rows,
    aim_formatter.run_aim_formatter one_date 19730 desc_date_batch = inr rows /\
    length rows = 1 /\
    forall r, In r rows ->
      aim_formatter.Age r = Some 3%Z /\
      aim_formatter.Room r = txt "204" /\
      aim_formatter.Inspection_Status r = txt "Pending".
Proof.
  eexists. split; [reflexivity|].
  match goal with
  | |- length ?rows = 1 /\ _ =>
      destruct (run_aim_formatter_output one_date 19730%Z desc_date_batch rows eq_refl)
        as (w & d & t & i & j & Hw & Hd & Ht & Hi & Hj & _ & Hlen & Hrows)
  end.
  split; [exact Hlen|].
  inversion Hw; inversion Hd; inversion Ht; subst w d t.
  inversion Hi; inversion Hj; subst i j.
  intros r Hr. destruct (Hrows r Hr) as (Hsrc & Hst & Hfr & Hage).
  destruct Hsrc as [E|[]]. rewrite <- E in Hfr, Hage.
  split; [exact Hage|]. split; [|exact Hst].
  exact (f_equal snd Hfr).
Defined.

Lemma find_column_spec_witness :
  In (txt "Work Description") [txt "ID"; txt "Work Description"; txt "Desc"] /\
  exists t, In t description_terms /\
            contains (lower t) (lower (txt "Work Description")) = true.
Proof.
  destruct (find_column_spec [txt "ID"; txt "Work Description"; txt "Desc"]) as [H _].
  destruct (H description_terms) as [H1 _].
  apply H1. reflexivity.
Defined.

Lemma age_bounds_witness :
  exists n, _business_days (Day 19725) 19737 = Some n /\ (0 <= n <= 12)%Z.
Proof.
  destruct (age_bounds 19725 19737) as (n & H1 & _ & H2 & _).
  exists n. split; [exact H1|]. apply H2. lia.
Defined.

(** ** The building of a row *)

Lemma replace_building_canonical (x : text) :
  strip (upper (replace_building (strip (upper x))))
  = replace_building (strip (upper x)).
Proof.
  unfold replace_building.
  repeat match goal with
         | |- context [if ?c then _ else _] => destruct c
         end; try reflexivity.
  now rewrite <- strip_upper, upper_idem, !strip_upper, strip_idem.
Qed.

(** X19.  The building that [_normalize_building] gives a row is already
    upper-cased and stripped, so that [_building_rank] ranks it as it
    stands; a cell reading E.T.B, W.E.B or H.E.B in any case and with white
    space around becomes ETB, WEB or HEB; without a building column every
    row has the blank building and the rank 3. *)
Theorem normalized_building (cols : list text) (r : list cell) :
  strip (upper (_normalize_building cols r)) = _normalize_building cols r /\
  (forall building_col s,
      _find_column cols [txt "building"; txt "property"; txt "facility"]
        = Some building_col ->
      cell_of cols building_col r = Str s ->
      (strip (upper s) = txt "E.T.B" -> _normalize_building cols r = txt "ETB") /\
      (strip (upper s) = txt "W.E.B" -> _normalize_building cols r = txt "WEB") /\
      (strip (upper s) = txt "H.E.B" -> _normalize_building cols r = txt "HEB")) /\
  (_find_column cols [txt "building"; txt "property"; txt "facility"] = None ->
   _normalize_building cols r = [] /\
   _building_rank (_normalize_building cols r) = 3%Z).
Proof.
  unfold _normalize_building.
  destruct (_find_column cols [txt "building"; txt "property"; txt "facility"])
    as [bc|].
  - split; [apply replace_building_canonical|]. split; [|discriminate].
    intros building_col s H Hc. inversion H; subst building_col.
    rewrite Hc. cbn [fillna]. repeat split; intros ->; reflexivity.
  - split; [reflexivity|]. split; [discriminate|]. intros _. split; reflexivity.
Qed.

Lemma normalized_building_witness :
  _normalize_building [txt "WO"; txt "Building"] [Str (txt "1"); Str (txt " e.t.b ")]
  = txt "ETB".
Proof.
  destruct (normalized_building [txt "WO"; txt "Building"]
              [Str (txt "1"); Str (txt " e.t.b ")]) as (_ & H & _).
  destruct (H (txt "Building") (txt " e.t.b ") eq_refl eq_refl) as (H1 & _).
  apply H1. reflexivity.
Defined.

(** ** The columns of the report *)

Lemma fold_assign_NoDup (names cols : list text) :
  NoDup cols -> NoDup (fold_left assign_column names cols).
Proof.
  revert cols. induction names as [|n names IH]; intros cols H; [exact H|].
  cbn [fold_left]. apply IH. unfold assign_column.
  destruct (mem_text n cols) eqn:E; [exact H|].
  apply mem_text_not_In in E. apply NoDup_app; [exact H | repeat constructor; easy|].
  intros x Hx [<-|[]]. contradiction.
Qed.

(** New columns go to the end, in the order of their assignment. *)
Lemma fold_assign_fresh (names cols : list text) :
  NoDup names -> (forall n, In n names -> ~ In n cols) ->
  fold_left assign_column names cols = cols ++ names.
Proof.
  revert cols. induction names as [|n names IH]; intros cols Hnd Hf.
  - now rewrite app_nil_r.
  - cbn [fold_left]. inversion Hnd as [|? ? Hn Hnd']; subst.
    unfold assign_column at 2.
    rewrite (proj2 (mem_text_not_In n cols) (Hf n (or_introl eq_refl))).
    rewrite IH; [now rewrite <- app_assoc|exact Hnd'|].
    intros m Hm Hin. apply in_app_iff in Hin as [Hin|[<-|[]]].
    + exact (Hf m (or_intror Hm) Hin).
    + contradiction.
Qed.

Lemma index_of_app_fresh (n : text) (cols l : list text) :
  ~ In n cols ->
  index_of n (cols ++ l) = option_map (fun i => length cols + i) (index_of n l).
Proof.
  induction cols as [|c cols IH]; intros H; cbn [app index_of length].
  - now destruct (index_of n l).
  - destruct (text_eqb c n) eqn:E.
    + apply text_eqb_eq in E. subst. exfalso. apply H. now left.
    + rewrite IH by (intros Hin; apply H; now right).
      now destruct (index_of n l).
Qed.

Lemma delete_cols_app (A : Type) (cols l : list A) (k : nat) :
  1 <= k -> delete_cols (length cols + k) (cols ++ l) = cols ++ delete_cols k l.
Proof.
  intros Hk. unfold delete_cols.
  replace (length cols + k - 1) with (length cols + (k - 1)) by lia.
  rewrite firstn_app_2, skipn_app.
  rewrite skipn_all2 by lia.
  replace (length cols + k - length cols) with k by lia.
  now rewrite <- app_assoc.
Qed.

(** X20.  In [aim_formatter], for a frame that has none of the derived
    column names yet, the sheet ends with the columns Age (Days), Floor,
    Room, Inspection Status once the two rank columns are deleted, while
    [insp_col], taken from the header list that still holds the rank
    columns, is the number of the column two to the right of Inspection
    Status, past the last column of the sheet. *)
Theorem formatter_dropdown_column (work_col desc_col date_col : text)
  (cols : list text) :
  let renamed := map (aim_formatter.rename_column work_col desc_col date_col) cols in
  let headers := formatter_headers work_col desc_col date_col cols in
  let sheet := renamed ++ [txt "Age (Days)"; txt "Floor"; txt "Room";
                           txt "Inspection Status"] in
  (forall n, In n formatter_derived -> ~ In n renamed) ->
  sheet_header headers = Some sheet /\
  insp_col headers = Some (length sheet + 2) /\
  option_map (fun i => i + 1) (index_of (txt "Inspection Status") sheet)
  = Some (length sheet).
Proof.
  intros renamed headers sheet Hf.
  assert (Hnd : NoDup formatter_derived).
  { unfold formatter_derived.
    repeat (constructor; [cbn [In]; intros H;
                          repeat (destruct H as [H|H]; [discriminate H|]); exact H|]).
    constructor. }
  assert (Eh : headers = renamed ++ formatter_derived).
  { unfold headers, formatter_headers. fold renamed.
    now apply fold_assign_fresh. }
  assert (Fi : forall n, In n formatter_derived ->
                 index_of n headers
                 = option_map (fun i => length renamed + i) (index_of n formatter_derived)).
  { intros n Hn. rewrite Eh. apply index_of_app_fresh. now apply Hf. }
  split; [|split].
  - unfold sheet_header.
    rewrite (Fi (txt "__RoomRank")), (Fi (txt "__FloorRank"))
      by (unfold formatter_derived; cbn [In]; tauto).
    change (index_of (txt "__RoomRank") formatter_derived) with (Some 4).
    change (index_of (txt "__FloorRank") formatter_derived) with (Some 3).
    cbn [option_map]. rewrite Eh.
    replace (length renamed + 4 + 1) with (length renamed + 5) by lia.
    replace (length renamed + 3 + 1) with (length renamed + 4) by lia.
    rewrite delete_cols_app by lia.
    rewrite delete_cols_app by lia.
    reflexivity.
  - unfold insp_col.
    rewrite (Fi (txt "Inspection Status")) by (unfold formatter_derived; cbn [In]; tauto).
    change (index_of (txt "Inspection Status") formatter_derived) with (Some 5).
    cbn [option_map]. unfold sheet. rewrite length_app. cbn [length]. f_equal. lia.
  - unfold sheet. rewrite index_of_app_fresh.
    + change (index_of (txt "Inspection Status")
                [txt "Age (Days)"; txt "Floor"; txt "Room"; txt "Inspection Status"])
        with (Some 3).
      cbn [option_map]. rewrite length_app. cbn [length]. f_equal. lia.
    + apply Hf. unfold formatter_derived. cbn [In]. tauto.
Qed.

Lemma formatter_dropdown_column_witness :
  insp_col (formatter_headers (txt "Work Order") (txt "Description") (txt "Date")
              [txt "Work Order"; txt "Description"; txt "Date"])
  = Some 9 /\
  sheet_header (formatter_headers (txt "Work Order") (txt "Description") (txt "Date")
                  [txt "Work Order"; txt "Description"; txt "Date"])
  = Some [txt "Work Order"; txt "Description"; txt "Date Created"; txt "Age (Days)";
          txt "Floor"; txt "Room"; txt "Inspection Status"].
Proof.
  destruct (formatter_dropdown_column (txt "Work Order") (txt "Description") (txt "Date")
              [txt "Work Order"; txt "Description"; txt "Date"]) as (H1 & H2 & _).
  - intros n Hn Hin. cbn in Hin, Hn.
    repeat (destruct Hin as [<-|Hin];
            [repeat (destruct Hn as [Hn|Hn]; [discriminate Hn|]); exact Hn|]).
    exact Hin.
  - split; [exact H2 | exact H1].
Defined.

Lemma required_NoDup : NoDup required.
Proof.
  unfold required.
  repeat (constructor; [cbn [In]; intros H;
                        repeat (destruct H as [H|H]; [discriminate H|]); exact H|]).
  constructor.
Qed.

Lemma ordered_cols_eq (non_empty : text -> bool) (cols out : list text) :
  ordered_cols non_empty cols = Some out ->
  out = required ++
        filter (fun c => negb (mem_text c required))
               (filter non_empty (fold_left assign_column required cols)) /\
  forall c, In c out -> ~ In c rank_columns.
Proof.
  unfold ordered_cols. cbv zeta.
  rewrite (filter_all _ _ required)
    by (intros x Hx; apply mem_text_In, fold_assign_In; now right).
  match goal with
  | |- (if existsb ?f ?l then _ else _) = _ -> _ => destruct (existsb f l) eqn:E
  end; [discriminate|].
  intros H. inversion H; subst out. split; [reflexivity|].
  intros c Hc Hr.
  assert (X : existsb (fun c => mem_text c rank_columns)
                (required ++
                 filter (fun c => negb (mem_text c required))
                        (filter non_empty (fold_left assign_column required cols)))
              = true).
  { apply existsb_exists. exists c. split; [exact Hc | now apply mem_text_In]. }
  congruence.
Qed.

(** X21.  When [prepare_dataframe] can lay out its columns, the report
    starts with Building, Floor, Room, Age (Work Days), Inspection Status
    in this order; after them come exactly the other columns of the frame
    that hold a value; no rank column is exported, and with distinct
    headers no column appears twice. *)
Theorem ordered_cols_layout (non_empty : text -> bool) (cols out : list text) :
  ordered_cols non_empty cols = Some out ->
  firstn 5 out = required /\
  (forall c, In c out <-> In c required \/ (In c cols /\ non_empty c = true)) /\
  (forall c, In c out -> ~ In c rank_columns) /\
  (NoDup cols -> NoDup out).
Proof.
  intros H. destruct (ordered_cols_eq non_empty cols out H) as [-> Hr].
  split; [reflexivity|]. split; [|split; [exact Hr|]].
  - intros c. rewrite in_app_iff, !filter_In, fold_assign_In, negb_true_iff,
      mem_text_not_In.
    destruct (in_dec (list_eq_dec ascii_dec) c required) as [Hin|Hin]; tauto.
  - intros Hnd. apply NoDup_app.
    + apply required_NoDup.
    + apply NoDup_filter, NoDup_filter, fold_assign_NoDup, Hnd.
    + intros c Hc Hin. apply filter_In in Hin as [_ Hin].
      apply negb_true_iff, mem_text_not_In in Hin. contradiction.
Qed.

Lemma ordered_cols_layout_witness :
  firstn 5 [txt "Building"; txt "Floor"; txt "Room"; txt "Age (Work Days)";
            txt "Inspection Status"; txt "WO"; txt "Description"]
  = required.
Proof.
  assert (E : ordered_cols (fun c => negb (text_eqb c (txt "Notes")))
                [txt "WO"; txt "Building"; txt "Notes"; txt "Description"]
              = Some [txt "Building"; txt "Floor"; txt "Room"; txt "Age (Work Days)";
                      txt "Inspection Status"; txt "WO"; txt "Description"])
    by reflexivity.
  exact (proj1 (ordered_cols_layout _ _ _ E)).
Defined.

(** ** Descriptions without a colon *)

Lemma lower_colon (c : ascii) : to_lower c = ":"%char -> c = ":"%char.
Proof.
  destruct c as [[] [] [] [] [] [] [] []]; intro H; vm_compute in H;
    try discriminate H; reflexivity.
Qed.

(** A text that starts with a word of a pattern holds the characters that
    have no case in that word. *)
Lemma starts_lit_In (w s : text) (c : ascii) :
  starts_lit true w s = true -> In c w -> to_lower c = c ->
  (forall x, to_lower x = c -> x = c) -> In c s.
Proof.
  revert s. induction w as [|p w IH]; intros s H Hin Hl Hc; [easy|].
  destruct s as [|x s]; [discriminate|]. cbn [starts_lit] in H.
  apply andb_true_iff in H as [Hp Hw]. destruct Hin as [->|Hin].
  - left. unfold lit_eq in Hp. apply ascii_eqb_eq in Hp. rewrite Hl in Hp.
    apply Hc. now symmetry.
  - right. now apply (IH s).
Qed.

Lemma search_from_none (ic : bool) (r : regex) (s : text) :
  (forall prev a b, s = a ++ b -> mtch ic r prev b [] accept = None) ->
  forall prev, search_from ic r prev s = None.
Proof.
  induction s as [|c s IH]; intros H prev; rewrite search_from_eq.
  - now rewrite (H prev [] []).
  - rewrite (H prev [] (c :: s)) by reflexivity.
    apply IH. intros p a b E. apply (H p (c :: a) b). cbn [app]. now f_equal.
Qed.

Lemma formatter_search_no_colon (w1 w2 : text) (tail : regex) (s : text) :
  In ":"%char w1 -> In ":"%char w2 -> ~ In ":"%char s ->
  aim_formatter.search_group1 (Cat (Alt (lit w1) (lit w2)) tail) s = [].
Proof.
  intros H1 H2 Hs. unfold aim_formatter.search_group1, re_search.
  rewrite search_from_none; [reflexivity|].
  intros prev a b E. rewrite mtch_cat, mtch_alt, !mtch_lit.
  assert (Hb : ~ In ":"%char b).
  { intros Hin. apply Hs. rewrite E. apply in_or_app. now right. }
  destruct (starts_lit true w1 b) eqn:E1.
  { exfalso. apply Hb.
    exact (starts_lit_In w1 b ":"%char E1 H1 eq_refl lower_colon). }
  destruct (starts_lit true w2 b) eqn:E2.
  { exfalso. apply Hb.
    exact (starts_lit_In w2 b ":"%char E2 H2 eq_refl lower_colon). }
  reflexivity.
Qed.

Lemma In_strip (c : ascii) (s : text) : In c (strip s) -> In c s.
Proof.
  intros H. destruct (lstrip_suffix s) as [ws E].
  destruct (rstrip_prefix (lstrip s)) as [ws' E'].
  rewrite E, E'. apply in_or_app. right. apply in_or_app. now left.
Qed.

(** X22.  [aim_formatter] extracts nothing from a description without a
    colon: its two patterns need Floor:, Flr:, Room: or Rm:, so that
    Room 204 gives neither room nor floor there, while
    [aim_report_automation] reads room 204 and floor 2. *)
Theorem formatter_needs_colon :
  (forall d : text,
      ~ In ":"%char d -> aim_formatter.extract_floor_room (Str d) = ([], [])) /\
  _extract_floor_room (Str (txt "Room 204")) = (txt "2", txt "204").
Proof.
  split; [|vm_compute; reflexivity].
  intros d Hd. unfold aim_formatter.extract_floor_room.
  destruct (is_empty d); [reflexivity|]. cbv zeta.
  assert (Hs : ~ In ":"%char (strip d)) by (intros H; apply Hd; now apply In_strip).
  change aim_formatter.floor_pattern
    with (Cat (Alt (lit (txt "Floor:")) (lit (txt "Flr:"))) token_tail).
  change aim_formatter.room_pattern
    with (Cat (Alt (lit (txt "Room:")) (lit (txt "Rm:"))) token_tail).
  rewrite !formatter_search_no_colon; try assumption;
    try (cbn [txt list_ascii_of_string In]; tauto).
  all: reflexivity.
Qed.

Lemma formatter_needs_colon_witness :
  aim_formatter.extract_floor_room (Str (txt "Room 204")) = ([], []).
Proof.
  destruct formatter_needs_colon as [H _]. apply H.
  cbn. intros H0. repeat (destruct H0 as [H0|H0]; [discriminate H0|]). exact H0.
Defined.
